(** * kiara_plugin.tropy: the [NetworkGraph] model

    A shallow embedding of [src/kiara_plugin/tropy/models.py]: the factory
    methods of [NetworkGraph] ([create_from_tables],
    [create_from_networkx_graph]), its accessors, [query],
    [as_networkx_graph], and [NetworkGraphProperties.create_value_metadata].

    The module is glue code between three libraries.  Each of them is
    modelled by the part of its behaviour that the module observes:
    - Python: exceptions (an error monad), insertion-ordered [dict]s
      (association lists), keyword-argument binding, truth values;
    - pyarrow / pandas: a table is a list of column names and a list of rows,
      whose cells are integers, strings or nulls;
    - duckdb: the relational operators of the one statement the module
      builds, with the names it puts into the text, and an abstract engine
      for user queries;
    - networkx: the four graph classes with their node and adjacency
      dictionaries.

    The tables and the graph objects on which this follows the libraries
    are named by predicates ([typed_table], [materializable], [sql_ready],
    [node_frame_typed]); the properties are stated for them. *)

From Stdlib Require Import ZArith List String Ascii Bool Lia Arith.
From Stdlib Require Import Sorting.Sorted Sorting.Permutation.
Import ListNotations.

Set Implicit Arguments.
Open Scope string_scope.
Open Scope list_scope.

(** ** Python *)

Module Py.

(** Scalars stored in table cells and used as node identifiers.  [VNaN] is
    the missing value: a null in Arrow, which pandas hands out as [None] in
    a column of objects and as a float [nan] in a numeric column.  It is
    compared structurally here, as [None] is; a float [nan] is equal to
    nothing, itself included, so that the model does not cover nulls that
    are used as keys (node identifiers, end points, edge keys): the
    properties of [as_networkx_graph] below are stated for tables without
    such nulls. *)
Inductive value : Type :=
| VInt (n : Z)
| VStr (s : string)
| VNaN.

Definition value_eqb (a b : value) : bool :=
  match a, b with
  | VInt x, VInt y => Z.eqb x y
  | VStr s, VStr t => String.eqb s t
  | VNaN, VNaN => true
  | _, _ => false
  end.

(** [v is None] *)
Definition is_none (v : value) : bool :=
  match v with VNaN => true | _ => false end.

(** The exceptions the module raises or lets through. *)
Inductive exn : Type :=
| PyException (msg : string)      (* [raise Exception(...)] *)
| KiaraException (msg : string)
| TypeError (msg : string)
| KeyError (msg : string)
| ValueError (msg : string)
| NetworkXError (msg : string)
| DuckDBError (msg : string)
| ParserException.                (* [duckdb.ParserException], whatever its text *)

Inductive result (A : Type) : Type :=
| Ok (a : A)
| Raise (e : exn).
Arguments Ok {A} a.
Arguments Raise {A} e.

Definition bind {A B : Type} (r : result A) (k : A -> result B) : result B :=
  match r with
  | Ok a => k a
  | Raise e => Raise e
  end.

(** ** Insertion-ordered dictionaries

    A Python [dict] keeps its keys in insertion order; assigning to a key
    that is present keeps the key where it is. *)
Section Dict.
Context {K V : Type} (keq : K -> K -> bool).

Definition dict : Type := list (K * V).

Fixpoint dict_get (k : K) (d : dict) : option V :=
  match d with
  | [] => None
  | (k', v) :: rest => if keq k k' then Some v else dict_get k rest
  end.

Definition dict_mem (k : K) (d : dict) : bool :=
  match dict_get k d with Some _ => true | None => false end.

Fixpoint dict_set (k : K) (v : V) (d : dict) : dict :=
  match d with
  | [] => [(k, v)]
  | (k', v') :: rest =>
      if keq k k' then (k', v) :: rest else (k', v') :: dict_set k v rest
  end.

Fixpoint dict_del (k : K) (d : dict) : dict :=
  match d with
  | [] => []
  | (k', v') :: rest =>
      if keq k k' then rest else (k', v') :: dict_del k rest
  end.

(** [d.update(other)] *)
Definition dict_update (d : dict) (other : list (K * V)) : dict :=
  fold_left (fun acc kv => dict_set (fst kv) (snd kv) acc) other d.

(** [dict(items)]: a later item overrides an earlier one of the same key. *)
Definition dict_of_items (items : list (K * V)) : dict :=
  dict_update [] items.

Definition dict_keys (d : dict) : list K := map fst d.
End Dict.

(** [x in xs] for a list of strings. *)
Definition str_in (x : string) (xs : list string) : bool :=
  existsb (String.eqb x) xs.

(** [x in xs] for a list of scalars. *)
Definition val_in (x : value) (xs : list value) : bool :=
  existsb (value_eqb x) xs.

(** An attribute dictionary: the [**attr] of networkx, the [dict] of a row. *)
Definition attrs : Type := list (string * value).

Definition attrs_get : string -> attrs -> option value := dict_get String.eqb.
Definition attrs_mem : string -> attrs -> bool := dict_mem String.eqb.
Definition attrs_update : attrs -> attrs -> attrs := dict_update String.eqb.

(** Binding [f(positional..., **kw)] against a signature whose named
    parameters [params] are bound positionally already: the keywords are
    taken in the order in which they are passed, and the first one that
    names such a parameter is a [TypeError].  [fname] is the qualified name
    of the function, which the message starts with (Python 3.10 and
    later). *)
Definition bind_kwargs (fname : string) (params : list string) (kw : attrs)
  : result attrs :=
  match find (fun kv : string * value => str_in (fst kv) params) kw with
  | Some kv =>
      Raise (TypeError (fname ++ "() got multiple values for argument '"
                          ++ fst kv ++ "'"))
  | None => Ok kw
  end.

(** The keys of a sequence of dicts, each once, in order of first
    appearance. *)
Fixpoint add_names (seen : list string) (names : list string) : list string :=
  match names with
  | [] => seen
  | n :: rest => add_names (if str_in n seen then seen else seen ++ [n]) rest
  end.

Definition key_union (dicts : list attrs) : list string :=
  fold_left (fun seen d => add_names seen (dict_keys d)) dicts [].

(** [d.get(k, nan)] *)
Definition attr_or_nan (d : attrs) (k : string) : value :=
  match attrs_get k d with Some v => v | None => VNaN end.

(** A [for] loop whose body may raise. *)
Fixpoint for_each {A S : Type} (body : S -> A -> result S) (l : list A) (s : S)
  : result S :=
  match l with
  | [] => Ok s
  | x :: rest =>
      match body s x with
      | Ok s' => for_each body rest s'
      | Raise e => Raise e
      end
  end.

End Py.

Export Py.

Declare Scope result_scope.
Notation "x <- c1 ;; c2" := (Py.bind c1 (fun x => c2))
  (at level 61, c1 at next level, right associativity) : result_scope.
Open Scope result_scope.

(** ** Tables (pyarrow.Table, pandas.DataFrame, KiaraTable) *)

Module Table.

(** A table is its ordered column names and its rows; a row lists one cell
    per column, in column order. *)
Record table : Type := mkTable {
  column_names : list string;
  rows : list (list value)
}.

Definition num_rows (t : table) : nat := List.length (rows t).

(** No name occurs twice. *)
Fixpoint distinct_names (names : list string) : bool :=
  match names with
  | [] => true
  | n :: rest => negb (str_in n rest) && distinct_names rest
  end.

(** Every row has one cell per column and no column name repeats. *)
Definition wf_table (t : table) : bool :=
  distinct_names (column_names t)
  && forallb (fun r => Nat.eqb (List.length r) (List.length (column_names t)))
             (rows t).

(** [KiaraTable.create_table]: wraps an Arrow table, converts a pandas
    frame; columns and rows are kept as they are.  Arrow converts a frame
    whose columns are of one type each, with integers in its range
    ([typed_table] below), and refuses others, which is left out here: the
    properties that assert the result of a conversion are stated for such
    frames. *)
Definition create_table (t : table) : table := t.

(** What a caller hands over as the nodes table: a [pyarrow.Table], or a
    [KiaraTable] that wraps one.  (A pandas frame, which has no truth
    value, and the other inputs of [create_table] are left out.) *)
Inductive table_object : Type :=
| Arrow (data : table)
| Kiara (data : table).

Definition table_of (x : table_object) : table :=
  match x with
  | Arrow data => data
  | Kiara data => data
  end.

(** [bool(x)]: a [pyarrow.Table] has a length, its number of rows, and is
    false when that is zero; a [KiaraTable] has neither a length nor a
    truth value of its own, and is true. *)
Definition truth (x : table_object) : bool :=
  match x with
  | Arrow data => negb (Nat.eqb (num_rows data) 0)
  | Kiara _ => true
  end.

(** [KiaraTable.arrow_table] and [pa.Table.to_pandas()] *)
Definition arrow_table (t : table) : table := t.
Definition to_pandas (t : table) : table := t.

(** A row as pandas hands it out from [iterrows]: a Series labelled by the
    column names, kept as the list of its labelled cells. *)
Abbreviation series := attrs (only parsing).

Definition iterrows (t : table) : list series :=
  map (fun r => combine (column_names t) r) (rows t).

(** [row[name]] *)
Definition series_getitem (row : series) (name : string) : result value :=
  match dict_get String.eqb name row with
  | Some v => Ok v
  | None => Raise (KeyError name)
  end.

(** [row.to_dict()] *)
Definition series_to_dict (row : series) : attrs :=
  dict_of_items String.eqb row.

(** The cells of column [name], top to bottom (a null where a row is too
    short to have one). *)
Definition column_values (t : table) (name : string) : list value :=
  map (fun row => match dict_get String.eqb name row with
                  | Some v => v
                  | None => VNaN
                  end) (iterrows t).

(** *** The tables that the model speaks of

    An Arrow column has one type.  The cells of a column of the model are
    integers, or they are strings, nulls apart; the integers are those that
    a float64 holds exactly, since pandas turns an integer column with a
    null into a float64 column. *)
Definition int_exact (n : Z) : bool :=
  (Z.leb (- 9007199254740992) n) && (Z.leb n 9007199254740992).

Definition cells_typed (cells : list value) : bool :=
  forallb (fun v => match v with
                    | VInt n => int_exact n
                    | VStr _ => false
                    | VNaN => true
                    end) cells
  || forallb (fun v => match v with
                       | VInt _ => false
                       | VStr _ => true
                       | VNaN => true
                       end) cells.

Definition typed_table (t : table) : bool :=
  forallb (fun c => cells_typed (column_values t c)) (column_names t).

(** No cell is a null. *)
Definition no_null (cells : list value) : bool :=
  forallb (fun v => negb (is_none v)) cells.

(** *** pandas.DataFrame operations used by the module *)

Definition keep_cells (keep : string -> bool) (cols : list string)
           (row : list value) : list value :=
  map snd (filter (fun cv => keep (fst cv)) (combine cols row)).

(** [df.drop(name, axis=1)]: every column labelled [name] goes; a label
    that is not there is a [KeyError]. *)
Definition df_drop (name : string) (df : table) : result table :=
  let keep := fun c => negb (String.eqb c name) in
  if str_in name (column_names df)
  then Ok {| column_names := filter keep (column_names df);
             rows := map (keep_cells keep (column_names df)) (rows df) |}
  else Raise (KeyError name).

(** [df.rename(columns={old: new})] *)
Definition df_rename (old new : string) (df : table) : table :=
  {| column_names :=
       map (fun c => if String.eqb c old then new else c) (column_names df);
     rows := rows df |}.

(** A frame with an index: [pd.DataFrame.from_dict(d, orient="index")].
    The columns are the keys of the inner dicts in order of first
    appearance; the index lists the outer keys in the order in which the
    columns, taken one after the other, mention them; a cell that a dict
    does not give is NaN. *)
Record frame : Type := mkFrame {
  index : list value;
  data : table
}.

Fixpoint first_seen (seen : list value) (l : list value) : list value :=
  match l with
  | [] => []
  | x :: rest =>
      if val_in x seen then first_seen seen rest
      else x :: first_seen (x :: seen) rest
  end.

Definition labels_having (d : list (value * attrs)) (col : string)
  : list value :=
  map fst (filter (fun kv => attrs_mem col (snd kv)) d).

Definition from_dict_index (d : list (value * attrs)) : frame :=
  let cols := key_union (map snd d) in
  let idx := first_seen [] (flat_map (labels_having d) cols) in
  {| index := idx;
     data := {| column_names := cols;
                rows := map (fun i =>
                               let a := match dict_get value_eqb i d with
                                        | Some a => a
                                        | None => []
                                        end in
                               map (attr_or_nan a) cols)
                            idx |} |}.

(** [df.reset_index()]: the index becomes the first column, labelled
    [index], or [level_0] when there is an [index] column already. *)
Definition reset_index (f : frame) : result table :=
  let cols := column_names (data f) in
  let name := if str_in "index" cols then "level_0" else "index" in
  if str_in name cols
  then Raise (ValueError ("cannot insert " ++ name ++ ", already exists"))
  else Ok {| column_names := name :: cols;
             rows := map (fun ir => fst ir :: snd ir)
                         (combine (index f) (rows (data f))) |}.

End Table.

Export Table.

(** ** duckdb *)

Module DuckDB.

(** The total order of [ORDER BY ... ASC] on a column: integers by value,
    strings byte-wise, nulls last. *)
Definition value_compare (a b : value) : comparison :=
  match a, b with
  | VInt x, VInt y => Z.compare x y
  | VInt _, _ => Lt
  | VStr _, VInt _ => Gt
  | VStr s, VStr t => String.compare s t
  | VStr _, VNaN => Lt
  | VNaN, VNaN => Eq
  | VNaN, _ => Gt
  end.

Definition value_leb (a b : value) : bool :=
  match value_compare a b with Gt => false | _ => true end.

Definition row_eqb (r1 r2 : list value) : bool :=
  Nat.eqb (List.length r1) (List.length r2)
  && forallb (fun ab => value_eqb (fst ab) (snd ab)) (combine r1 r2).

(** The rows of a relation without repetitions. *)
Fixpoint distinct_rows (l : list (list value)) : list (list value) :=
  match l with
  | [] => []
  | r :: rest => r :: filter (fun x => negb (row_eqb x r)) (distinct_rows rest)
  end.

Definition binder_error (col : string) : exn :=
  DuckDBError ("Binder Error: Referenced column " ++ col ++ " not found").

(** [SELECT col AS alias FROM t] *)
Definition select_as (col alias : string) (t : table) : result table :=
  if str_in col (column_names t)
  then Ok {| column_names := [alias];
             rows := map (fun v => [v]) (column_values t col) |}
  else Raise (binder_error col).

(** [q1 UNION q2]: set union, the column names are those of [q1]. *)
Definition union (t1 t2 : table) : table :=
  {| column_names := column_names t1;
     rows := distinct_rows (rows t1 ++ rows t2) |}.

(** [SELECT DISTINCT t.col FROM t] *)
Definition select_distinct (col : string) (t : table) : result table :=
  p <- select_as col col t ;;
  Ok {| column_names := column_names p; rows := distinct_rows (rows p) |}.

Definition row_key (cols : list string) (col : string) (row : list value)
  : value :=
  match dict_get String.eqb col (combine cols row) with
  | Some v => v
  | None => VNaN
  end.

Fixpoint insert_row (key : list value -> value) (r : list value)
         (sorted : list (list value)) : list (list value) :=
  match sorted with
  | [] => [r]
  | x :: rest =>
      if value_leb (key r) (key x) then r :: sorted
      else x :: insert_row key r rest
  end.

(** [... ORDER BY t.col] *)
Definition order_by (col : string) (t : table) : result table :=
  if str_in col (column_names t)
  then Ok {| column_names := column_names t;
             rows := fold_right (insert_row (row_key (column_names t) col))
                                [] (rows t) |}
  else Raise (binder_error col).

(** *** Names in the text of a statement

    [create_from_tables] puts the column names into the text of its
    statement as they are, without quotes.  Where the statement selects a
    column, a reserved word of the grammar is a syntax error. *)
Definition lower_ascii (c : ascii) : ascii :=
  let n := nat_of_ascii c in
  if Nat.leb 65 n && Nat.leb n 90 then ascii_of_nat (n + 32) else c.

Fixpoint lower (s : string) : string :=
  match s with
  | EmptyString => EmptyString
  | String c rest => String (lower_ascii c) (lower rest)
  end.

Definition reserved_words : list string :=
  ["all"; "analyse"; "analyze"; "and"; "any"; "as"; "asc"; "asymmetric";
   "both"; "case"; "cast"; "check"; "collate"; "column"; "constraint";
   "create"; "deferrable"; "desc"; "distinct"; "do"; "else"; "end";
   "except"; "fetch"; "for"; "foreign"; "from"; "grant"; "group"; "having";
   "in"; "initially"; "intersect"; "into"; "lateral"; "leading"; "limit";
   "not"; "offset"; "on"; "only"; "or"; "order"; "placing"; "primary";
   "references"; "returning"; "select"; "some"; "symmetric"; "table";
   "then"; "to"; "trailing"; "union"; "unique"; "using"; "variadic";
   "when"; "where"; "window"; "with"].

Definition is_reserved (name : string) : bool :=
  str_in (lower name) reserved_words.

(** The names that the model of the statement is meant for: lower-case
    letters, digits and underscores, not starting with a digit, and either
    holding a digit, which no word of the grammar does, or one of a few
    plain words.  The parser reads such a name as one identifier. *)
Definition is_digit (c : ascii) : bool :=
  let n := nat_of_ascii c in Nat.leb 48 n && Nat.leb n 57.

Definition is_name_char (c : ascii) : bool :=
  let n := nat_of_ascii c in
  (Nat.leb 97 n && Nat.leb n 122) || is_digit c || Nat.eqb n 95.

Fixpoint all_chars (p : ascii -> bool) (s : string) : bool :=
  match s with
  | EmptyString => true
  | String c rest => p c && all_chars p rest
  end.

Fixpoint any_char (p : ascii -> bool) (s : string) : bool :=
  match s with
  | EmptyString => false
  | String c rest => p c || any_char p rest
  end.

Definition plain_words : list string :=
  ["source"; "target"; "id"; "node_id"; "src"; "tgt"; "nid"].

Definition plain_name (name : string) : bool :=
  match name with
  | EmptyString => false
  | String c _ => negb (is_digit c) && all_chars is_name_char name
  end
  && (any_char is_digit name || str_in name plain_words).

(** Identifiers match without regard to case: a name of the statement
    stands for one column when no two column names of the relation are the
    same but for case. *)
Definition case_distinct (names : list string) : bool :=
  distinct_names (map lower names).

(** The statement [create_from_tables] runs against the relation [edges]:
<<
    SELECT DISTINCT combined.{nid}
    FROM (SELECT {src} AS {nid} FROM edges
          UNION
          SELECT {tgt} AS {nid} FROM edges) AS combined
    ORDER BY combined.{nid}
>>
    The model follows the statement for names that are read as one
    identifier and match a column exactly ([plain_name], [case_distinct]),
    and for two end-point columns of one type, which [UNION] leaves as they
    are. *)
Definition nodes_query (src tgt nid : string) (edges : table) : result table :=
  if is_reserved src || is_reserved tgt then Raise ParserException else
  s <- select_as src nid edges ;;
  t <- select_as tgt nid edges ;;
  let combined := union s t in
  d <- select_distinct nid combined ;;
  order_by nid d.

(** A query engine for user-supplied statements: the text and the relations
    it may refer to, by name. *)
Definition engine : Type := string -> list (string * table) -> result table.

(** The one-cell table a [COUNT( * )] statement answers with. *)
Definition count_table (n : nat) : table :=
  {| column_names := ["count_star()"]; rows := [[VInt (Z.of_nat n)]] |}.

End DuckDB.

(** ** kiara_plugin.tropy.defaults

    The values of [GraphType] are those of the [Literal] annotation of
    [NetworkGraph.graph_type]; the two table names are the keys under which
    [NetworkGraph] stores its tables. *)

Inductive GraphType : Type :=
| DIRECTED
| UNDIRECTED
| DIRECTED_MULTI
| UNDIRECTED_MULTI.

Definition GraphType_value (t : GraphType) : string :=
  match t with
  | DIRECTED => "directed"
  | UNDIRECTED => "undirected"
  | DIRECTED_MULTI => "directed_multi"
  | UNDIRECTED_MULTI => "undirected_multi"
  end.

Definition EDGES_TABLE_NAME : string := "edges".
Definition NODES_TABLE_NAME : string := "nodes".

(** ** networkx *)

Module Nx.

Inductive graph_class : Type :=
| Graph
| DiGraph
| MultiGraph
| MultiDiGraph.

Definition is_directed (c : graph_class) : bool :=
  match c with DiGraph | MultiDiGraph => true | _ => false end.

Definition is_multigraph (c : graph_class) : bool :=
  match c with MultiGraph | MultiDiGraph => true | _ => false end.

(** [_adj[u][v]]: for the multigraph classes a dict from edge key to
    attribute dict.  For [Graph] and [DiGraph] it is the attribute dict of
    the one edge of the pair; it is kept here as a dict with the single
    key [0], so that the four classes share one representation. *)
Definition keydict : Type := list (value * attrs).
Definition nbrdict : Type := list (value * keydict).
Definition adjdict : Type := list (value * nbrdict).

(** A graph object: its class, [_node] and [_adj] ([_succ] for the
    directed classes). *)
Record graph : Type := mkGraph {
  g_class : graph_class;
  g_node : list (value * attrs);
  g_adj : adjdict
}.

(** [graph_type()] *)
Definition empty (c : graph_class) : graph :=
  {| g_class := c; g_node := []; g_adj := [] |}.

Definition has_node (g : graph) (n : value) : bool :=
  dict_mem value_eqb n (g_node g).

Definition node_attrs (g : graph) (n : value) : attrs :=
  match dict_get value_eqb n (g_node g) with Some a => a | None => [] end.

Definition nbrs_of (adj : adjdict) (u : value) : nbrdict :=
  match dict_get value_eqb u adj with Some m => m | None => [] end.

Definition keys_of (adj : adjdict) (u v : value) : keydict :=
  match dict_get value_eqb v (nbrs_of adj u) with Some kd => kd | None => [] end.

(** A node that is new gets an empty adjacency dict and an empty attribute
    dict. *)
Definition ensure_node (g : graph) (n : value) : graph :=
  if has_node g n then g
  else {| g_class := g_class g;
          g_node := dict_set value_eqb n [] (g_node g);
          g_adj := dict_set value_eqb n [] (g_adj g) |}.

(** [G.add_node(node_for_adding, **attr)]: the body, and the call with its
    keyword arguments. *)
Definition add_node_body (g : graph) (n : value) (attr : attrs) : graph :=
  let g1 := ensure_node g n in
  {| g_class := g_class g1;
     g_node := dict_set value_eqb n (attrs_update (node_attrs g1 n) attr)
                        (g_node g1);
     g_adj := g_adj g1 |}.

(** [add_node] is defined by [Graph] and by [DiGraph]; [MultiGraph]
    inherits the one of [Graph], [MultiDiGraph] the one of [DiGraph].  The
    keywords are bound before the body runs; the body refuses [None]. *)
Definition add_node_qualname (c : graph_class) : string :=
  match c with
  | Graph | MultiGraph => "Graph.add_node"
  | DiGraph | MultiDiGraph => "DiGraph.add_node"
  end.

Definition add_node (g : graph) (n : value) (kw : attrs) : result graph :=
  attr <- bind_kwargs (add_node_qualname (g_class g))
                      ["self"; "node_for_adding"] kw ;;
  if is_none n then Raise (ValueError "None cannot be a node")
  else Ok (add_node_body g n attr).

(** [new_edge_key]: the number of edges of the pair, counted up while it
    is taken.  One more candidate than there are keys always has a free
    one among them. *)
Fixpoint first_free_key (fuel : nat) (k : Z) (kd : keydict) : Z :=
  match fuel with
  | O => k
  | S f => if dict_mem value_eqb (VInt k) kd
           then first_free_key f (k + 1) kd
           else k
  end.

Definition new_edge_key (g : graph) (u v : value) : value :=
  let kd := keys_of (g_adj g) u v in
  VInt (first_free_key (S (List.length kd)) (Z.of_nat (List.length kd)) kd).

Definition adj_set (adj : adjdict) (u v : value) (kd : keydict) : adjdict :=
  dict_set value_eqb u (dict_set value_eqb v kd (nbrs_of adj u)) adj.

(** The edge [(u, v, key)] gets [attr] merged into its attribute dict; an
    undirected class stores the result under both [u][v] and [v][u]. *)
Definition set_edge (g : graph) (u v key : value) (attr : attrs) : graph :=
  let kd := keys_of (g_adj g) u v in
  let datadict :=
    attrs_update (match dict_get value_eqb key kd with
                  | Some d => d
                  | None => []
                  end) attr in
  let kd' := dict_set value_eqb key datadict kd in
  let adj1 := adj_set (g_adj g) u v kd' in
  {| g_class := g_class g;
     g_node := g_node g;
     g_adj := if is_directed (g_class g) then adj1 else adj_set adj1 v u kd' |}.

(** [G.add_edge(u, v, **attr)].  The signatures are
    [add_edge(self, u_of_edge, v_of_edge, **attr)] for [Graph] and
    [DiGraph] and [add_edge(self, u_for_edge, v_for_edge, key=None, **attr)]
    for the multigraph classes, where a keyword [key] is the edge key and
    not an attribute, and a key that is [None] stands for a new key.  Each
    of the four classes defines its own [add_edge]; the body refuses [None]
    as an end point. *)
Definition add_edge_simple (g : graph) (u v : value) (attr : attrs) : graph :=
  let g1 := ensure_node (ensure_node g u) v in
  set_edge g1 u v (VInt 0) attr.

Definition add_edge_multi (g : graph) (u v : value) (key : option value)
           (attr : attrs) : graph :=
  let g1 := ensure_node (ensure_node g u) v in
  let key := match key with
             | Some k => k
             | None => new_edge_key g1 u v
             end in
  set_edge g1 u v key attr.

Definition add_edge_qualname (c : graph_class) : string :=
  match c with
  | Graph => "Graph.add_edge"
  | DiGraph => "DiGraph.add_edge"
  | MultiGraph => "MultiGraph.add_edge"
  | MultiDiGraph => "MultiDiGraph.add_edge"
  end.

Definition add_edge (g : graph) (u v : value) (kw : attrs) : result graph :=
  if is_multigraph (g_class g) then
    bound <- bind_kwargs (add_edge_qualname (g_class g))
                         ["self"; "u_for_edge"; "v_for_edge"] kw ;;
    if is_none u || is_none v then Raise (ValueError "None cannot be a node")
    else Ok (add_edge_multi g u v
                            (match attrs_get "key" bound with
                             | Some k => if is_none k then None else Some k
                             | None => None
                             end)
                            (dict_del String.eqb "key" bound))
  else
    attr <- bind_kwargs (add_edge_qualname (g_class g))
                        ["self"; "u_of_edge"; "v_of_edge"] kw ;;
    if is_none u || is_none v then Raise (ValueError "None cannot be a node")
    else Ok (add_edge_simple g u v attr).

(** [G.number_of_nodes()] *)
Definition number_of_nodes (g : graph) : nat := List.length (g_node g).

(** [G.nodes(data=True)] *)
Definition nodes_data (g : graph) : list (value * attrs) := g_node g.

(** Iterating over [G.edges(data=True)]: node by node in [_adj] order, then
    neighbour by neighbour, then key by key.  An undirected class skips
    the neighbours whose own turn has already come. *)
Fixpoint edges_from (directed : bool) (seen : list value) (adj : adjdict)
  : list (value * value * attrs) :=
  match adj with
  | [] => []
  | (n, nbrs) :: rest =>
      flat_map (fun nk : value * keydict =>
                  if directed || negb (val_in (fst nk) seen)
                  then map (fun kdd : value * attrs => (n, fst nk, snd kdd))
                           (snd nk)
                  else [])
               nbrs
      ++ edges_from directed (n :: seen) rest
  end.

Definition edges_data (g : graph) : list (value * value * attrs) :=
  edges_from (is_directed (g_class g)) [] (g_adj g).

(** [len(G.edges())], as each of the four edge views computes it. *)
Definition edges_len (g : graph) : nat :=
  match g_class g with
  | Graph =>
      Nat.div
        (list_sum (map (fun nn : value * nbrdict =>
                         List.length (snd nn)
                         + (if dict_mem value_eqb (fst nn) (snd nn) then 1 else 0))
                      (g_adj g)))
        2
  | DiGraph =>
      list_sum (map (fun nn : value * nbrdict => List.length (snd nn)) (g_adj g))
  | MultiGraph => List.length (edges_data g)
  | MultiDiGraph =>
      list_sum (map (fun nn : value * nbrdict =>
                      list_sum (map (fun nk : value * keydict =>
                                      List.length (snd nk)) (snd nn)))
                   (g_adj g))
  end.

(** The attribute names of the edges, each once.  networkx collects them
    in a [set], whose order is not fixed; the order taken here is that of
    first appearance. *)
Definition all_attrs (dicts : list attrs) : list string := key_union dicts.

(** [nx.to_pandas_edgelist(G, source=source, target=target)]: one row per
    edge with the two end points and every edge attribute; it refuses a
    [source] or [target] that is the name of an edge attribute. *)
Definition to_pandas_edgelist (g : graph) (source target : string)
  : result table :=
  let edgelist := edges_data g in
  let names := all_attrs (map snd edgelist) in
  if str_in source names then
    Raise (NetworkXError ("Source name " ++ source ++ " is an edge attr name"))
  else if str_in target names then
    Raise (NetworkXError ("Target name " ++ target ++ " is an edge attr name"))
  else if String.eqb source target then
    Ok {| column_names := target :: names;
          rows := map (fun e : value * value * attrs =>
                         snd (fst e) :: map (attr_or_nan (snd e)) names)
                      edgelist |}
  else
    Ok {| column_names := source :: target :: names;
          rows := map (fun e : value * value * attrs =>
                         fst (fst e) :: snd (fst e)
                           :: map (attr_or_nan (snd e)) names)
                      edgelist |}.

End Nx.

(** ** models.py *)

(** What [create_from_networkx_graph] is handed: a networkx graph object, or
    an object of some other type. *)
Inductive pyobject : Type :=
| NxObject (g : Nx.graph)
| OtherObject (type_name : string).

(** The class hierarchy of networkx: [MultiDiGraph] derives from
    [MultiGraph] and [DiGraph], and both of these from [Graph]. *)
Definition subclass (c d : Nx.graph_class) : bool :=
  match c, d with
  | _, Nx.Graph => true
  | Nx.DiGraph, Nx.DiGraph => true
  | Nx.MultiGraph, Nx.MultiGraph => true
  | Nx.MultiDiGraph, Nx.DiGraph => true
  | Nx.MultiDiGraph, Nx.MultiGraph => true
  | Nx.MultiDiGraph, Nx.MultiDiGraph => true
  | _, _ => false
  end.

Definition isinstance (o : pyobject) (c : Nx.graph_class) : bool :=
  match o with
  | NxObject g => subclass (Nx.g_class g) c
  | OtherObject _ => false
  end.

(** [type(o)], as an f-string prints it *)
Definition type_repr (o : pyobject) : string :=
  match o with
  | NxObject g =>
      match Nx.g_class g with
      | Nx.Graph => "<class 'networkx.classes.graph.Graph'>"
      | Nx.DiGraph => "<class 'networkx.classes.digraph.DiGraph'>"
      | Nx.MultiGraph => "<class 'networkx.classes.multigraph.MultiGraph'>"
      | Nx.MultiDiGraph => "<class 'networkx.classes.multidigraph.MultiDiGraph'>"
      end
  | OtherObject n => "<class '" ++ n ++ "'>"
  end.

(** The graph an object is, once [isinstance] has said it is one. *)
Definition graph_of (o : pyobject) : Nx.graph :=
  match o with
  | NxObject g => g
  | OtherObject _ => Nx.empty Nx.Graph
  end.

Module NetworkGraph.

(** The fields of the model.  [tables] is only ever built as the dict
    [{EDGES_TABLE_NAME: edges_table, NODES_TABLE_NAME: nodes_table}]; its
    two entries are the fields [edges] and [nodes]. *)
Record t : Type := mk {
  graph_type : GraphType;
  source_column_name : string;
  target_column_name : string;
  node_id_column_name : string;
  edges : table;
  nodes : table
}.

Definition tables (self : t) : list (string * table) :=
  [(EDGES_TABLE_NAME, edges self); (NODES_TABLE_NAME, nodes self)].

Definition missing_column_message (table_name column : string)
           (available : list string) : string :=
  "Invalid 'network_data' value: '" ++ table_name
    ++ "' table does not contain a '" ++ column
    ++ "' column. Available columns: " ++ String.concat ", " available ++ ".".

(** [nodes_table = KiaraTable.create_table(nodes_table) if nodes_table else
    None] tests the truth of what was passed, and [if not nodes_table] that
    of the result, a [KiaraTable] or [None]. *)
Definition create_from_tables (graph_type : GraphType) (edges_table : table)
           (nodes_table : option table_object)
           (source_column_name target_column_name node_id_column_name : string)
  : result t :=
  let edges_table := create_table edges_table in
  let nodes_table :=
    match nodes_table with
    | Some x => if truth x then Some (create_table (table_of x)) else None
    | None => None
    end in
  let edges_columns := column_names edges_table in
  if negb (str_in source_column_name edges_columns) then
    Raise (PyException
             (missing_column_message "edges" source_column_name edges_columns))
  else if negb (str_in target_column_name edges_columns) then
    Raise (PyException
             (missing_column_message "edges" target_column_name edges_columns))
  else
    nodes_table <-
      match nodes_table with
      | None =>
          let edges := arrow_table edges_table in
          nodes_table_arrow <-
            DuckDB.nodes_query source_column_name target_column_name
                               node_id_column_name edges ;;
          Ok (create_table nodes_table_arrow)
      | Some nodes_table =>
          let nodes_columns := column_names nodes_table in
          if negb (str_in node_id_column_name nodes_columns) then
            Raise (PyException
                     (missing_column_message "nodes" node_id_column_name
                                             nodes_columns))
          else Ok nodes_table
      end ;;
    Ok {| graph_type := graph_type;
          source_column_name := source_column_name;
          target_column_name := target_column_name;
          node_id_column_name := node_id_column_name;
          edges := edges_table;
          nodes := nodes_table |}.

Definition create_from_kiara_tables (graph_type : GraphType)
           (tables : list (string * table))
           (source_column_name target_column_name node_id_column_name : string)
  : result t :=
  match dict_get String.eqb EDGES_TABLE_NAME tables with
  | None =>
      Raise (KiaraException
               ("Can't import network data: no '" ++ EDGES_TABLE_NAME
                  ++ "' table found"))
  | Some edges_table =>
      create_from_tables graph_type edges_table
                         (option_map Kiara
                                     (dict_get String.eqb NODES_TABLE_NAME tables))
                         source_column_name target_column_name
                         node_id_column_name
  end.

Definition placeholder : string := "_x_placeholder_x_".

(** [create_from_networkx_graph] is embedded in three steps, in the order
    of its body, and then put together. *)

(** The [isinstance] chain (lines 154-163). *)
Definition graph_type_of_object (graph : pyobject) : result GraphType :=
  if isinstance graph Nx.MultiDiGraph then Ok DIRECTED_MULTI
  else if isinstance graph Nx.MultiGraph then Ok UNDIRECTED_MULTI
  else if isinstance graph Nx.DiGraph then Ok DIRECTED
  else if isinstance graph Nx.Graph then Ok UNDIRECTED
  else Raise (KiaraException ("Invalid graph type: " ++ type_repr graph)).

(** The edges table (lines 165-187).  [temp_source] and [temp_target]
    are the two [str(uuid.uuid4())] the function draws. *)
Definition edges_table_of_graph (temp_source temp_target : string)
           (graph : Nx.graph) (source_column_name target_column_name : string)
  : result table :=
  edges_df <- Nx.to_pandas_edgelist graph temp_source temp_target ;;
  edges_df <-
    (if str_in source_column_name (column_names edges_df) then
       edges_df <- df_drop source_column_name edges_df ;;
       Ok (df_rename temp_source source_column_name edges_df)
     else Ok edges_df) ;;
  edges_df <-
    (if str_in target_column_name (column_names edges_df) then
       edges_df <- df_drop target_column_name edges_df ;;
       Ok (df_rename temp_target target_column_name edges_df)
     else Ok edges_df) ;;
  Ok (create_table edges_df).

(** The nodes table (lines 189-206): first the dict of the attribute dicts,
    where a node without attributes gets the placeholder. *)
Definition node_dict (graph : Nx.graph) : list (value * attrs) :=
  map (fun kv : value * attrs =>
         (fst kv,
          match snd kv with
          | [] => [(placeholder, VStr "__dummy__")]
          | _ :: _ => snd kv
          end))
      (Nx.nodes_data graph).

Definition nodes_table_of_graph (graph : Nx.graph) (node_id_column_name : string)
  : result table :=
  let node_dict := node_dict graph in
  let nodes_data := from_dict_index node_dict in
  nodes_data <- reset_index nodes_data ;;
  nodes_data <-
    (if str_in placeholder (column_names nodes_data)
     then df_drop placeholder nodes_data
     else Ok nodes_data) ;;
  nodes_data <-
    (if str_in node_id_column_name (column_names nodes_data)
     then df_drop "index" nodes_data
     else Ok (df_rename "index" node_id_column_name nodes_data)) ;;
  Ok (create_table nodes_data).

Definition create_from_networkx_graph (temp_source temp_target : string)
           (graph : pyobject)
           (source_column_name target_column_name node_id_column_name : string)
  : result t :=
  graph_type <- graph_type_of_object graph ;;
  let graph := graph_of graph in
  edges_table <- edges_table_of_graph temp_source temp_target graph
                                      source_column_name target_column_name ;;
  nodes_table <- nodes_table_of_graph graph node_id_column_name ;;
  create_from_tables graph_type edges_table (Some (Kiara nodes_table))
                     source_column_name target_column_name
                     node_id_column_name.

Definition num_nodes (self : t) : nat := num_rows (nodes self).

Definition num_edges (self : t) : nat := num_rows (edges self).

(** The statement runs on a fresh connection; the relations it can name
    are the two local variables [edges] and [nodes]. *)
Definition query (execute : DuckDB.engine) (self : t) (sql_query : string)
  : result table :=
  let edges := arrow_table (edges self) in
  let nodes := arrow_table (nodes self) in
  let result := execute sql_query [("edges", edges); ("nodes", nodes)] in
  result.

Definition as_networkx_graph (self : t) : result Nx.graph :=
  let gt := GraphType_value (graph_type self) in
  graph_type <-
    (if String.eqb gt (GraphType_value DIRECTED) then Ok Nx.DiGraph
     else if String.eqb gt (GraphType_value UNDIRECTED) then Ok Nx.Graph
     else if String.eqb gt (GraphType_value DIRECTED_MULTI) then Ok Nx.MultiDiGraph
     else if String.eqb gt (GraphType_value UNDIRECTED_MULTI) then Ok Nx.MultiGraph
     else Raise (KiaraException "Invalid graph type: {self.graph_type}")) ;;
  let graph := Nx.empty graph_type in
  let nodes_df := to_pandas (arrow_table (nodes self)) in
  graph <-
    for_each (fun graph row =>
                n <- series_getitem row (node_id_column_name self) ;;
                Nx.add_node graph n (series_to_dict row))
             (iterrows nodes_df) graph ;;
  let edges_df := to_pandas (arrow_table (edges self)) in
  graph <-
    for_each (fun graph row =>
                u <- series_getitem row (source_column_name self) ;;
                v <- series_getitem row (target_column_name self) ;;
                Nx.add_edge graph u v (series_to_dict row))
             (iterrows edges_df) graph ;;
  Ok graph.

End NetworkGraph.

Module NetworkGraphProperties.

Record t : Type := mk {
  number_of_nodes : nat;
  number_of_edges : nat
}.

Definition retrieve_supported_data_types : list string := ["network_graph"].

(** [value.data] is the [NetworkGraph] the value holds. *)
Definition create_value_metadata (network_graph : NetworkGraph.t) : result t :=
  graph <- NetworkGraph.as_networkx_graph network_graph ;;
  let num_rows := Nx.number_of_nodes graph in
  let num_edges := Nx.edges_len graph in
  Ok {| number_of_nodes := num_rows; number_of_edges := num_edges |}.

End NetworkGraphProperties.

(** * Properties *)

Unset Implicit Arguments.

(** ** Equality tests and dictionaries *)

Lemma value_eqb_spec (a b : value) : reflect (a = b) (value_eqb a b).
Proof.
  destruct a as [x|s|], b as [y|t|]; simpl; try (constructor; congruence).
  - destruct (Z.eqb_spec x y); constructor; congruence.
  - destruct (String.eqb_spec s t); constructor; congruence.
Qed.

Lemma value_eqb_refl (a : value) : value_eqb a a = true.
Proof. destruct (value_eqb_spec a a); congruence. Qed.

Lemma value_eqb_eq (a b : value) : value_eqb a b = true <-> a = b.
Proof. destruct (value_eqb_spec a b); split; congruence. Qed.

Lemma value_eqb_neq (a b : value) : value_eqb a b = false <-> a <> b.
Proof. destruct (value_eqb_spec a b); split; congruence. Qed.

Lemma value_eqb_sym (a b : value) : value_eqb a b = value_eqb b a.
Proof.
  destruct (value_eqb_spec a b), (value_eqb_spec b a); congruence.
Qed.

Lemma str_in_spec (x : string) (xs : list string) :
  str_in x xs = true <-> In x xs.
Proof.
  unfold str_in. rewrite existsb_exists. split.
  - intros [y [Hy He]]. apply String.eqb_eq in He. now subst.
  - intros H. exists x. split; [assumption | apply String.eqb_refl].
Qed.

Lemma str_in_false (x : string) (xs : list string) :
  str_in x xs = false <-> ~ In x xs.
Proof.
  rewrite <- str_in_spec. destruct (str_in x xs); split; congruence.
Qed.

Lemma val_in_spec (x : value) (xs : list value) :
  val_in x xs = true <-> In x xs.
Proof.
  unfold val_in. rewrite existsb_exists. split.
  - intros [y [Hy He]]. apply value_eqb_eq in He. now subst.
  - intros H. exists x. split; [assumption | apply value_eqb_refl].
Qed.

Lemma val_in_false (x : value) (xs : list value) :
  val_in x xs = false <-> ~ In x xs.
Proof.
  rewrite <- val_in_spec. destruct (val_in x xs); split; congruence.
Qed.

(** Dictionaries over a key type with a correct equality test. *)
Section DictFacts.
Context {K V : Type} (keq : K -> K -> bool).
Hypothesis keq_spec : forall a b, reflect (a = b) (keq a b).

Lemma keq_refl (k : K) : keq k k = true.
Proof. destruct (keq_spec k k); congruence. Qed.

Lemma dict_get_In (k : K) (d : list (K * V)) (v : V) :
  dict_get keq k d = Some v -> In (k, v) d.
Proof.
  induction d as [|[k' v'] d IH]; simpl; [discriminate|].
  destruct (keq_spec k k') as [->|Hne]; intros H.
  - injection H as ->. now left.
  - right. now apply IH.
Qed.

Lemma dict_get_None (k : K) (d : list (K * V)) :
  dict_get keq k d = None <-> ~ In k (dict_keys d).
Proof.
  induction d as [|[k' v'] d IH]; simpl.
  - split; [intros _ [] | reflexivity].
  - destruct (keq_spec k k') as [->|Hne].
    + split; [discriminate | intros H; exfalso; apply H; now left].
    + rewrite IH. split; intros H; [intros [E|F]; [congruence | tauto] | tauto].
Qed.

Lemma dict_mem_spec (k : K) (d : list (K * V)) :
  dict_mem keq k d = true <-> In k (dict_keys d).
Proof.
  unfold dict_mem. destruct (dict_get keq k d) eqn:E.
  - split; [intros _ | reflexivity].
    apply dict_get_In in E. unfold dict_keys.
    change k with (fst (k, v)). now apply in_map.
  - apply dict_get_None in E. split; [discriminate | tauto].
Qed.

Lemma dict_mem_false (k : K) (d : list (K * V)) :
  dict_mem keq k d = false <-> ~ In k (dict_keys d).
Proof.
  rewrite <- dict_mem_spec. destruct (dict_mem keq k d); split; congruence.
Qed.

Lemma dict_get_NoDup_In (k : K) (v : V) (d : list (K * V)) :
  NoDup (dict_keys d) -> In (k, v) d -> dict_get keq k d = Some v.
Proof.
  induction d as [|[k' v'] d IH]; simpl; [intros _ []|].
  intros Hnd [E|Hin]; inversion Hnd as [|? ? Hni Hnd']; subst.
  - injection E as -> ->. now rewrite keq_refl.
  - destruct (keq_spec k k') as [->|Hne]; [|now apply IH].
    exfalso. apply Hni. unfold dict_keys.
    change k' with (fst (k', v)). now apply in_map.
Qed.

Lemma dict_set_keys_present (k : K) (v : V) (d : list (K * V)) :
  In k (dict_keys d) -> dict_keys (dict_set keq k v d) = dict_keys d.
Proof.
  induction d as [|[k' v'] d IH]; simpl; [intros []|].
  destruct (keq_spec k k') as [->|Hne]; simpl; [reflexivity|].
  intros [E|Hin]; [congruence|]. now rewrite IH.
Qed.

Lemma dict_set_keys_absent (k : K) (v : V) (d : list (K * V)) :
  ~ In k (dict_keys d) -> dict_set keq k v d = d ++ [(k, v)].
Proof.
  induction d as [|[k' v'] d IH]; simpl; [reflexivity|].
  destruct (keq_spec k k') as [->|Hne]; intros H.
  - exfalso. apply H. now left.
  - rewrite IH; [reflexivity | tauto].
Qed.

Lemma dict_set_length_present (k : K) (v : V) (d : list (K * V)) :
  In k (dict_keys d) -> List.length (dict_set keq k v d) = List.length d.
Proof.
  intros H. apply (dict_set_keys_present k v) in H.
  unfold dict_keys in H.
  rewrite <- (length_map fst (dict_set keq k v d)), H. apply length_map.
Qed.

Lemma dict_set_length_absent (k : K) (v : V) (d : list (K * V)) :
  ~ In k (dict_keys d) -> List.length (dict_set keq k v d) = S (List.length d).
Proof.
  intros H. rewrite dict_set_keys_absent by assumption.
  rewrite length_app. simpl. lia.
Qed.

Lemma dict_get_set_same (k : K) (v : V) (d : list (K * V)) :
  dict_get keq k (dict_set keq k v d) = Some v.
Proof.
  induction d as [|[k' v'] d IH]; simpl.
  - now rewrite keq_refl.
  - destruct (keq_spec k k') as [->|Hne]; simpl.
    + now rewrite keq_refl.
    + destruct (keq_spec k k'); [congruence | exact IH].
Qed.

Lemma dict_get_set_other (k k0 : K) (v : V) (d : list (K * V)) :
  k0 <> k -> dict_get keq k0 (dict_set keq k v d) = dict_get keq k0 d.
Proof.
  intros Hne. induction d as [|[k' v'] d IH]; simpl.
  - destruct (keq_spec k0 k); [congruence | reflexivity].
  - destruct (keq_spec k k') as [->|Hne']; simpl.
    + destruct (keq_spec k0 k'); [congruence | reflexivity].
    + destruct (keq_spec k0 k'); [reflexivity | exact IH].
Qed.

Lemma dict_set_keys_In (k k0 : K) (v : V) (d : list (K * V)) :
  In k0 (dict_keys (dict_set keq k v d)) <-> k0 = k \/ In k0 (dict_keys d).
Proof.
  rewrite <- !dict_mem_spec. unfold dict_mem.
  destruct (keq_spec k0 k) as [->|Hne].
  - rewrite dict_get_set_same. tauto.
  - rewrite dict_get_set_other by assumption.
    split; [tauto | intros [E|H]; [congruence | exact H]].
Qed.

Lemma dict_set_NoDup (k : K) (v : V) (d : list (K * V)) :
  NoDup (dict_keys d) -> NoDup (dict_keys (dict_set keq k v d)).
Proof.
  intros Hnd.
  destruct (in_dec (fun a b => reflect_dec _ _ (keq_spec a b)) k (dict_keys d))
    as [Hin|Hni].
  - now rewrite dict_set_keys_present.
  - rewrite dict_set_keys_absent by assumption.
    unfold dict_keys. rewrite map_app. simpl.
    apply NoDup_app; [exact Hnd | repeat constructor; intros [] |].
    intros x Hx [E|[]]. subst. exact (Hni Hx).
Qed.
End DictFacts.

Arguments keq_refl {K keq} keq_spec.
Arguments dict_get_In {K V keq} keq_spec.
Arguments dict_get_None {K V keq} keq_spec.
Arguments dict_mem_spec {K V keq} keq_spec.
Arguments dict_mem_false {K V keq} keq_spec.
Arguments dict_get_NoDup_In {K V keq} keq_spec.
Arguments dict_set_keys_present {K V keq} keq_spec.
Arguments dict_set_keys_absent {K V keq} keq_spec.
Arguments dict_set_length_present {K V keq} keq_spec.
Arguments dict_set_length_absent {K V keq} keq_spec.
Arguments dict_get_set_same {K V keq} keq_spec.
Arguments dict_get_set_other {K V keq} keq_spec.
Arguments dict_set_keys_In {K V keq} keq_spec.
Arguments dict_set_NoDup {K V keq} keq_spec.

(** ** Schema validation *)

(** Whether the table has a row.  A table that has one is true for Python,
    an Arrow table and a [KiaraTable] alike. *)
Definition has_rows (x : table_object) : bool :=
  negb (Nat.eqb (num_rows (table_of x)) 0).

Lemma has_rows_truth (x : table_object) : has_rows x = true -> truth x = true.
Proof. unfold has_rows. now destruct x. Qed.

(** C3 as the specification words it: when the edges table lacks the
    source column or the target column, or a supplied nodes table lacks
    the node-id column, [create_from_tables] raises and returns no graph. *)
Definition rejects_missing_column
           (gt : GraphType) (edges_table : table)
           (nodes_table : option table_object) (src tgt nid : string) : Prop :=
  (str_in src (column_names edges_table) = false
   \/ str_in tgt (column_names edges_table) = false
   \/ exists x, nodes_table = Some x
                /\ str_in nid (column_names (table_of x)) = false) ->
  exists e,
    NetworkGraph.create_from_tables gt edges_table nodes_table src tgt nid
    = Raise e.

Definition edges_a_b : table :=
  {| column_names := ["source"; "target"]; rows := [[VStr "A"; VStr "B"]] |}.

(** An Arrow table without rows and without the column [id]. *)
Definition empty_arrow_nodes : table_object :=
  Arrow {| column_names := ["label"]; rows := [] |}.

(** Line 93 tests the truth of the nodes table, and an Arrow table without
    rows is false: it is set aside like [None], its columns are never
    looked at, and the nodes are inferred from the edges. *)
Example empty_arrow_nodes_inferred :
  NetworkGraph.create_from_tables DIRECTED edges_a_b (Some empty_arrow_nodes)
                                  "source" "target" "id"
  = Ok {| NetworkGraph.graph_type := DIRECTED;
          NetworkGraph.source_column_name := "source";
          NetworkGraph.target_column_name := "target";
          NetworkGraph.node_id_column_name := "id";
          NetworkGraph.edges := edges_a_b;
          NetworkGraph.nodes :=
            {| column_names := ["id"]; rows := [[VStr "A"]; [VStr "B"]] |} |}.
Proof. reflexivity. Qed.



Definition edges_without_source : table :=
  {| column_names := ["from"; "to"; "weight"];
     rows := [[VStr "A"; VStr "B"; VInt 1]] |}.


(** A supplied nodes table that lacks the node-id column. *)
Example missing_node_id_message :
  NetworkGraph.create_from_tables
    DIRECTED edges_a_b
    (Some (Arrow {| column_names := ["label"]; rows := [[VStr "x"]] |}))
    "source" "target" "id"
  = Raise (PyException
             "Invalid 'network_data' value: 'nodes' table does not contain a 'id' column. Available columns: label.").
Proof. reflexivity. Qed.

(** The message of the example, in full. *)
Example missing_source_message :
  NetworkGraph.create_from_tables DIRECTED edges_without_source None
                                  "source" "to" "id"
  = Raise (PyException
             "Invalid 'network_data' value: 'edges' table does not contain a 'source' column. Available columns: from, to, weight.").
Proof. reflexivity. Qed.

(** ** Classification of graph objects *)


(** ** Node inference *)

(** The tables and names for which the statement of [create_from_tables]
    is read as the model reads it: the three names are plain names, no two
    columns of the edges table differ by case only, and the two end-point
    columns hold no null and are of one type. *)
Definition sql_ready (edges_table : table) (src tgt nid : string) : bool :=
  DuckDB.plain_name src && DuckDB.plain_name tgt && DuckDB.plain_name nid
  && DuckDB.case_distinct (column_names edges_table)
  && cells_typed (column_values edges_table src
                    ++ column_values edges_table tgt)
  && no_null (column_values edges_table src ++ column_values edges_table tgt).

Lemma is_digit_lower (c : ascii) :
  DuckDB.is_digit (DuckDB.lower_ascii c) = DuckDB.is_digit c.
Proof.
  destruct c as [[] [] [] [] [] [] [] []]; reflexivity.
Qed.

Lemma any_digit_lower (s : string) :
  DuckDB.any_char DuckDB.is_digit (DuckDB.lower s)
  = DuckDB.any_char DuckDB.is_digit s.
Proof.
  induction s as [|c s IH]; simpl; [reflexivity|].
  now rewrite is_digit_lower, IH.
Qed.

Lemma lower_name_char (c : ascii) :
  DuckDB.is_name_char c = true -> DuckDB.lower_ascii c = c.
Proof.
  destruct c as [[] [] [] [] [] [] [] []]; vm_compute;
    try reflexivity; discriminate.
Qed.

Lemma lower_plain (s : string) :
  DuckDB.all_chars DuckDB.is_name_char s = true -> DuckDB.lower s = s.
Proof.
  induction s as [|c s IH]; simpl; [reflexivity|].
  intros H. apply andb_true_iff in H as [Hc Hs].
  now rewrite (lower_name_char c Hc), IH.
Qed.

(** A plain name is no reserved word. *)
Lemma plain_name_not_reserved (name : string) :
  DuckDB.plain_name name = true -> DuckDB.is_reserved name = false.
Proof.
  unfold DuckDB.plain_name, DuckDB.is_reserved.
  intros H. apply andb_true_iff in H as [Hform Hkind].
  assert (Hl : DuckDB.lower name = name).
  { destruct name as [|c rest]; [discriminate|].
    apply andb_true_iff in Hform as [_ Hall]. now apply lower_plain. }
  rewrite Hl. apply orb_true_iff in Hkind as [Hd|Hw].
  - apply str_in_false. intros Hin.
    assert (Hnone : forallb (fun w => negb (DuckDB.any_char DuckDB.is_digit w))
                            DuckDB.reserved_words = true) by reflexivity.
    rewrite forallb_forall in Hnone. specialize (Hnone _ Hin).
    rewrite Hd in Hnone. discriminate.
  - apply str_in_spec in Hw. unfold DuckDB.plain_words in Hw.
    repeat (destruct Hw as [<-|Hw]; [reflexivity|]). destruct Hw.
Qed.

Lemma sql_ready_names (edges_table : table) (src tgt nid : string) :
  sql_ready edges_table src tgt nid = true ->
  DuckDB.is_reserved src || DuckDB.is_reserved tgt = false.
Proof.
  unfold sql_ready. rewrite !andb_true_iff.
  intros [[[[[Hs Ht] _] _] _] _].
  now rewrite (plain_name_not_reserved _ Hs), (plain_name_not_reserved _ Ht).
Qed.

(** C8 as the specification words it: for an edges table without rows that
    has the two end-point columns, and no nodes table, [create_from_tables]
    succeeds and the nodes table has the one column [nid] and no row. *)
Definition infers_no_nodes (gt : GraphType) (edges_table : table)
           (src tgt nid : string) : Prop :=
  rows edges_table = [] ->
  str_in src (column_names edges_table) = true ->
  str_in tgt (column_names edges_table) = true ->
  exists T,
    NetworkGraph.create_from_tables gt edges_table None src tgt nid = Ok T
    /\ NetworkGraph.nodes T = {| column_names := [nid]; rows := [] |}.

(** The names go into the text of the statement without quotes:
    [SELECT from AS id FROM edges] is a syntax error, whatever the rows. *)
Lemma reserved_names_rejected (gt : GraphType) (edges_table : table)
      (nid : string) :
  str_in "from" (column_names edges_table) = true ->
  str_in "to" (column_names edges_table) = true ->
  NetworkGraph.create_from_tables gt edges_table None "from" "to" nid
  = Raise ParserException.
Proof.
  intros Hs Ht. unfold NetworkGraph.create_from_tables, create_table.
  rewrite Hs, Ht. reflexivity.
Qed.



Definition edges_no_rows : table :=
  {| column_names := ["source"; "target"; "weight"]; rows := [] |}.


(** *** The order of [ORDER BY] *)

Definition value_lt (a b : value) : Prop := DuckDB.value_compare a b = Lt.

Lemma string_compare_refl (s : string) : String.compare s s = Eq.
Proof.
  induction s as [|c s IH]; simpl; [reflexivity|].
  unfold Ascii.compare. now rewrite N.compare_refl.
Qed.

Lemma string_compare_lt_trans (s1 s2 s3 : string) :
  String.compare s1 s2 = Lt -> String.compare s2 s3 = Lt ->
  String.compare s1 s3 = Lt.
Proof.
  revert s2 s3.
  induction s1 as [|c1 s1 IH]; intros [|c2 s2] [|c3 s3]; simpl;
    try discriminate; try reflexivity.
  unfold Ascii.compare.
  destruct (N.compare_spec (N_of_ascii c1) (N_of_ascii c2)) as [E12|L12|G12];
    try discriminate;
    destruct (N.compare_spec (N_of_ascii c2) (N_of_ascii c3)) as [E23|L23|G23];
    try discriminate; intros H12 H23.
  - rewrite E12, E23, N.compare_refl. eapply IH; eassumption.
  - rewrite E12. now apply N.compare_lt_iff in L23 as ->.
  - rewrite <- E23. now apply N.compare_lt_iff in L12 as ->.
  - assert (L : (N_of_ascii c1 < N_of_ascii c3)%N) by lia.
    now apply N.compare_lt_iff in L as ->.
Qed.

Lemma value_compare_eq (a b : value) :
  DuckDB.value_compare a b = Eq <-> a = b.
Proof.
  destruct a as [x|s|], b as [y|t|]; simpl;
    try (split; [discriminate | congruence]).
  - rewrite Z.compare_eq_iff. split; congruence.
  - split; [intros H; f_equal; now apply String.compare_eq_iff|].
    intros [= ->]. apply string_compare_refl.
  - tauto.
Qed.

Lemma value_compare_antisym (a b : value) :
  DuckDB.value_compare a b = CompOpp (DuckDB.value_compare b a).
Proof.
  destruct a as [x|s|], b as [y|t|]; simpl; try reflexivity.
  - apply Z.compare_antisym.
  - apply String.compare_antisym.
Qed.

Lemma value_lt_irrefl (a : value) : ~ value_lt a a.
Proof.
  unfold value_lt. assert (H : DuckDB.value_compare a a = Eq)
    by now apply value_compare_eq.
  congruence.
Qed.

Lemma value_lt_asym (a b : value) : value_lt a b -> ~ value_lt b a.
Proof.
  unfold value_lt. intros H1 H2.
  rewrite value_compare_antisym, H2 in H1. discriminate.
Qed.

Lemma value_lt_trans (a b c : value) :
  value_lt a b -> value_lt b c -> value_lt a c.
Proof.
  unfold value_lt.
  destruct a as [x|s|], b as [y|t|], c as [z|u|]; simpl;
    try discriminate; try reflexivity.
  - rewrite !Z.compare_lt_iff. lia.
  - apply string_compare_lt_trans.
Qed.

Lemma value_leb_lt (a b : value) :
  DuckDB.value_leb a b = true -> a <> b -> value_lt a b.
Proof.
  unfold DuckDB.value_leb, value_lt.
  destruct (DuckDB.value_compare a b) eqn:E; try congruence.
  apply value_compare_eq in E. congruence.
Qed.

Lemma value_leb_false_lt (a b : value) :
  DuckDB.value_leb a b = false -> value_lt b a.
Proof.
  unfold DuckDB.value_leb, value_lt. rewrite value_compare_antisym.
  destruct (DuckDB.value_compare b a); simpl; congruence.
Qed.

(** Two strictly ascending lists with the same members are the same list. *)
Lemma strictly_sorted_unique (l1 l2 : list value) :
  StronglySorted value_lt l1 -> StronglySorted value_lt l2 ->
  (forall v, In v l1 <-> In v l2) -> l1 = l2.
Proof.
  revert l2. induction l1 as [|a l1 IH]; intros [|b l2] S1 S2 Hm.
  - reflexivity.
  - exfalso. apply (proj2 (Hm b)). now left.
  - exfalso. apply (proj1 (Hm a)). now left.
  - inversion S1 as [|? ? S1' F1]; inversion S2 as [|? ? S2' F2]; subst.
    rewrite Forall_forall in F1, F2.
    assert (Hab : a = b).
    { destruct (proj1 (Hm a) (or_introl eq_refl)) as [E|Ha]; [now symmetry|].
      destruct (proj2 (Hm b) (or_introl eq_refl)) as [E|Hb]; [assumption|].
      exfalso. exact (value_lt_asym _ _ (F1 _ Hb) (F2 _ Ha)). }
    subst b. f_equal. apply IH; try assumption.
    intros v. split; intros Hv.
    + destruct (proj1 (Hm v) (or_intror Hv)) as [E|H]; [|assumption].
      subst v. exfalso. exact (value_lt_irrefl _ (F1 _ Hv)).
    + destruct (proj2 (Hm v) (or_intror Hv)) as [E|H]; [|assumption].
      subst v. exfalso. exact (value_lt_irrefl _ (F2 _ Hv)).
Qed.

(** *** The statement on one-column relations

    On the rows of a one-column relation, the operators of the statement
    act as the following functions on its values. *)

Fixpoint distinct_values (l : list value) : list value :=
  match l with
  | [] => []
  | v :: rest => v :: filter (fun x => negb (value_eqb x v)) (distinct_values rest)
  end.

Fixpoint insert_value (v : value) (sorted : list value) : list value :=
  match sorted with
  | [] => [v]
  | x :: rest =>
      if DuckDB.value_leb v x then v :: sorted else x :: insert_value v rest
  end.

Definition sort_values (l : list value) : list value :=
  fold_right insert_value [] l.

Definition one_cell (v : value) : list value := [v].

Lemma distinct_rows_one_cell (l : list value) :
  DuckDB.distinct_rows (map one_cell l) = map one_cell (distinct_values l).
Proof.
  induction l as [|v l IH]; simpl; [reflexivity|].
  rewrite IH. f_equal.
  generalize (distinct_values l) as m. intros m.
  induction m as [|x m IHm]; simpl; [reflexivity|].
  unfold DuckDB.row_eqb at 1. simpl. rewrite andb_true_r.
  destruct (value_eqb x v); simpl; now rewrite IHm.
Qed.

Lemma column_values_one_cell (c : string) (l : list value) :
  column_values {| column_names := [c]; rows := map one_cell l |} c = l.
Proof.
  unfold column_values, iterrows. simpl. rewrite !map_map. simpl.
  rewrite String.eqb_refl. apply map_id.
Qed.

Lemma sort_rows_one_cell (c : string) (l : list value) :
  fold_right (DuckDB.insert_row (DuckDB.row_key [c] c)) [] (map one_cell l)
  = map one_cell (sort_values l).
Proof.
  induction l as [|v l IH]; simpl; [reflexivity|].
  rewrite IH. unfold sort_values at 2. simpl. fold (sort_values l).
  generalize (sort_values l) as m. intros m.
  induction m as [|x m IHm]; simpl; [reflexivity|].
  unfold DuckDB.row_key at 1 2. simpl. rewrite String.eqb_refl.
  destruct (DuckDB.value_leb v x); simpl; [reflexivity|]. now rewrite IHm.
Qed.

Lemma distinct_values_In (l : list value) (v : value) :
  In v (distinct_values l) <-> In v l.
Proof.
  induction l as [|a l IH]; simpl; [tauto|].
  rewrite filter_In, IH, negb_true_iff, value_eqb_neq.
  destruct (value_eqb_spec a v); [tauto|].
  split; [tauto | intros [E|H]; [congruence | right; split; [exact H | congruence]]].
Qed.

Lemma distinct_values_NoDup (l : list value) : NoDup (distinct_values l).
Proof.
  induction l as [|a l IH]; simpl; constructor.
  - rewrite filter_In, negb_true_iff, value_eqb_neq. tauto.
  - now apply NoDup_filter.
Qed.

Lemma insert_value_In (v x : value) (l : list value) :
  In x (insert_value v l) <-> x = v \/ In x l.
Proof.
  induction l as [|a l IH]; simpl; [intuition congruence|].
  destruct (DuckDB.value_leb v a); simpl; [intuition congruence|].
  rewrite IH. intuition congruence.
Qed.

Lemma sort_values_In (l : list value) (x : value) :
  In x (sort_values l) <-> In x l.
Proof.
  induction l as [|a l IH]; simpl; [tauto|].
  rewrite insert_value_In, IH. intuition congruence.
Qed.

Lemma insert_value_sorted (v : value) (l : list value) :
  StronglySorted value_lt l -> ~ In v l ->
  StronglySorted value_lt (insert_value v l).
Proof.
  induction l as [|a l IH]; simpl; intros S Hni.
  - repeat constructor.
  - inversion S as [|? ? S' F]; subst.
    destruct (DuckDB.value_leb v a) eqn:E.
    + assert (Hva : value_lt v a) by (apply value_leb_lt; [exact E | intros ->; apply Hni; now left]).
      constructor; [exact S|]. constructor; [exact Hva|].
      rewrite Forall_forall in *. intros y Hy.
      exact (value_lt_trans _ _ _ Hva (F y Hy)).
    + constructor; [apply IH; tauto|].
      rewrite Forall_forall in *. intros y Hy.
      apply insert_value_In in Hy as [->|Hy]; [|now apply F].
      now apply value_leb_false_lt.
Qed.

Lemma sort_values_sorted (l : list value) :
  NoDup l -> StronglySorted value_lt (sort_values l).
Proof.
  induction 1 as [|a l Hni Hnd IH]; simpl; [constructor|].
  apply insert_value_sorted; [exact IH | now rewrite sort_values_In].
Qed.

Lemma strictly_sorted_NoDup (l : list value) :
  StronglySorted value_lt l -> NoDup l.
Proof.
  induction 1 as [|a l S IH F]; constructor; [|exact IH].
  rewrite Forall_forall in F. intros Hin. exact (value_lt_irrefl _ (F _ Hin)).
Qed.

(** What the statement of [create_from_tables] computes. *)
Lemma nodes_query_value (src tgt nid : string) (edges : table) :
  DuckDB.is_reserved src || DuckDB.is_reserved tgt = false ->
  str_in src (column_names edges) = true ->
  str_in tgt (column_names edges) = true ->
  DuckDB.nodes_query src tgt nid edges
  = Ok {| column_names := [nid];
          rows := map one_cell
                      (sort_values
                         (distinct_values
                            (distinct_values
                               (column_values edges src
                                  ++ column_values edges tgt)))) |}.
Proof.
  intros Hres Hs Ht. unfold DuckDB.nodes_query. rewrite Hres.
  unfold DuckDB.select_as. rewrite Hs, Ht. simpl.
  unfold DuckDB.select_distinct, DuckDB.select_as, DuckDB.union. simpl.
  rewrite String.eqb_refl. simpl.
  fold one_cell. rewrite <- map_app, !distinct_rows_one_cell.
  rewrite column_values_one_cell.
  unfold DuckDB.order_by. simpl. rewrite String.eqb_refl. simpl.
  now rewrite sort_rows_one_cell.
Qed.

Lemma create_from_tables_inferred
      (gt : GraphType) (edges_table : table) (src tgt nid : string) :
  DuckDB.is_reserved src || DuckDB.is_reserved tgt = false ->
  str_in src (column_names edges_table) = true ->
  str_in tgt (column_names edges_table) = true ->
  NetworkGraph.create_from_tables gt edges_table None src tgt nid
  = Ok {| NetworkGraph.graph_type := gt;
          NetworkGraph.source_column_name := src;
          NetworkGraph.target_column_name := tgt;
          NetworkGraph.node_id_column_name := nid;
          NetworkGraph.edges := edges_table;
          NetworkGraph.nodes :=
            {| column_names := [nid];
               rows := map one_cell
                           (sort_values
                              (distinct_values
                                 (distinct_values
                                    (column_values edges_table src
                                       ++ column_values edges_table tgt)))) |} |}.
Proof.
  intros Hres Hs Ht.
  unfold NetworkGraph.create_from_tables, create_table, arrow_table.
  rewrite Hs, Ht. simpl. now rewrite nodes_query_value.
Qed.

Lemma create_from_tables_Ok_columns
      (gt : GraphType) (edges_table : table)
      (nodes_table : option table_object)
      (src tgt nid : string) (T : NetworkGraph.t) :
  NetworkGraph.create_from_tables gt edges_table nodes_table src tgt nid = Ok T ->
  str_in src (column_names edges_table) = true
  /\ str_in tgt (column_names edges_table) = true.
Proof.
  unfold NetworkGraph.create_from_tables, create_table.
  destruct (str_in src (column_names edges_table)); [|discriminate].
  destruct (str_in tgt (column_names edges_table)); [|discriminate].
  auto.
Qed.

(** C2 as the specification words it: without a nodes table, for an edges
    table that has the source and the target column, [create_from_tables]
    builds a nodes table with the single column [nid], whose values are
    ascending, without repetition, and are the values found in the source
    or the target column. *)
Definition infers_nodes (gt : GraphType) (edges_table : table)
           (src tgt nid : string) : Prop :=
  str_in src (column_names edges_table) = true ->
  str_in tgt (column_names edges_table) = true ->
  exists T,
    NetworkGraph.create_from_tables gt edges_table None src tgt nid = Ok T
    /\ column_names (NetworkGraph.nodes T) = [nid]
    /\ StronglySorted value_lt (column_values (NetworkGraph.nodes T) nid)
    /\ (forall v,
           In v (column_values (NetworkGraph.nodes T) nid)
           <-> In v (column_values edges_table src)
               \/ In v (column_values edges_table tgt)).



Definition edges_abc : table :=
  {| column_names := ["source"; "target"];
     rows := [[VStr "B"; VStr "C"]; [VStr "A"; VStr "B"]; [VStr "A"; VStr "C"]] |}.


(** ** The query surface *)

(** The text [SELECT COUNT( * ) FROM relation]. *)
Definition count_star_sql (relation : string) : string :=
  "SELECT COUNT(" ++ "*" ++ ") FROM " ++ relation.

(** [con.execute(sql).arrow()], as far as the counting statements go: for
    the text [SELECT COUNT( * ) FROM r], where [r] is a local variable of the
    caller that holds a table, and no reserved word, the engine answers
    with the number of rows of that table, in a table with the one column
    [count_star()].  What the engine does with any other text is left
    open: it is the parameter [other]. *)
Definition count_engine (other : DuckDB.engine) : DuckDB.engine :=
  fun sql relations =>
    match find (fun nt : string * table =>
                  String.eqb sql (count_star_sql (fst nt))
                  && negb (DuckDB.is_reserved (fst nt)))
               relations with
    | Some nt => Ok (DuckDB.count_table (num_rows (snd nt)))
    | None => other sql relations
    end.

(** C6: [query] hands the statement to the engine with the edges and the
    nodes table of the graph bound to the names [edges] and [nodes], and
    returns what the engine returns, whatever the engine and the
    statement.  With the engine's answer to the counting statements,
    [SELECT COUNT( * ) FROM edges] returns [num_edges] and
    [SELECT COUNT( * ) FROM nodes] returns [num_nodes], each as the one cell
    of the column [count_star()]. *)
Theorem query_binds_edges_and_nodes (T : NetworkGraph.t) :
  (forall (execute : DuckDB.engine) (sql : string),
      NetworkGraph.query execute T sql
      = execute sql [("edges", NetworkGraph.edges T);
                     ("nodes", NetworkGraph.nodes T)])
  /\ (forall other : DuckDB.engine,
         NetworkGraph.query (count_engine other) T (count_star_sql "edges")
         = Ok {| column_names := ["count_star()"];
                 rows := [[VInt (Z.of_nat (NetworkGraph.num_edges T))]] |})
  /\ (forall other : DuckDB.engine,
         NetworkGraph.query (count_engine other) T (count_star_sql "nodes")
         = Ok {| column_names := ["count_star()"];
                 rows := [[VInt (Z.of_nat (NetworkGraph.num_nodes T))]] |}).
Proof.
  unfold NetworkGraph.query, arrow_table.
  split; [reflexivity|]. split; intros other; reflexivity.
Qed.

Definition graph_abc : NetworkGraph.t :=
  {| NetworkGraph.graph_type := UNDIRECTED;
     NetworkGraph.source_column_name := "source";
     NetworkGraph.target_column_name := "target";
     NetworkGraph.node_id_column_name := "id";
     NetworkGraph.edges := edges_abc;
     NetworkGraph.nodes :=
       {| column_names := ["id"];
          rows := [[VStr "A"]; [VStr "B"]; [VStr "C"]] |} |}.

Example query_counts_graph_abc (other : DuckDB.engine) :
  NetworkGraph.query (count_engine other) graph_abc (count_star_sql "edges")
  = Ok (DuckDB.count_table 3)
  /\ NetworkGraph.query (count_engine other) graph_abc (count_star_sql "nodes")
     = Ok (DuckDB.count_table 3).
Proof. split; reflexivity. Qed.

(** ** Edge attributes named like the end-point columns *)

Definition uuid_1 : string := "0b0f4e9c-6d1c-4f7e-9a57-2f4f8a3f6b11".
Definition uuid_2 : string := "c3a1d2e4-5b6f-4a7b-8c9d-0e1f2a3b4c5d".

(** [G = nx.DiGraph(); G.add_edge(1, 2, **attr)] *)
Definition one_edge_digraph (attr : attrs) : Nx.graph :=
  {| Nx.g_class := Nx.DiGraph;
     Nx.g_node := [(VInt 1, []); (VInt 2, [])];
     Nx.g_adj := [(VInt 1, [(VInt 2, [(VInt 0, attr)])]); (VInt 2, [])] |}.

Example one_edge_digraph_built (attr : attrs) :
  bind_kwargs "DiGraph.add_edge" ["self"; "u_of_edge"; "v_of_edge"] attr
  = Ok attr ->
  Nx.add_edge (Nx.empty Nx.DiGraph) (VInt 1) (VInt 2) attr
  = Ok (one_edge_digraph (attrs_update [] attr)).
Proof.
  intros H. unfold Nx.add_edge. simpl Nx.is_multigraph.
  change (Nx.add_edge_qualname (Nx.g_class (Nx.empty Nx.DiGraph)))
    with "DiGraph.add_edge".
  now rewrite H.
Qed.

(** The function on three graphs with the one edge [1 -> 2].  When the edge
    carries an attribute [source] and an attribute [target], both are dropped and
    the end points take their names.  When it carries [source] but not
    [target], or neither of them, the column of the other end point keeps
    its temporary name, and [create_from_tables] rejects the edges table:
    no graph is returned. *)
Example one_edge_digraph_tables :
  NetworkGraph.create_from_networkx_graph
    uuid_1 uuid_2
    (NxObject (one_edge_digraph
                 [("source", VInt 7); ("target", VInt 8); ("w", VInt 5)]))
    "source" "target" "id"
  = Ok {| NetworkGraph.graph_type := DIRECTED;
          NetworkGraph.source_column_name := "source";
          NetworkGraph.target_column_name := "target";
          NetworkGraph.node_id_column_name := "id";
          NetworkGraph.edges :=
            {| column_names := ["source"; "target"; "w"];
               rows := [[VInt 1; VInt 2; VInt 5]] |};
          NetworkGraph.nodes :=
            {| column_names := ["id"]; rows := [[VInt 1]; [VInt 2]] |} |}
  /\ NetworkGraph.create_from_networkx_graph
       uuid_1 uuid_2
       (NxObject (one_edge_digraph [("source", VInt 7)]))
       "source" "target" "id"
     = Raise (PyException
                "Invalid 'network_data' value: 'edges' table does not contain a 'target' column. Available columns: source, c3a1d2e4-5b6f-4a7b-8c9d-0e1f2a3b4c5d.")
  /\ NetworkGraph.create_from_networkx_graph
       uuid_1 uuid_2
       (NxObject (one_edge_digraph [("w", VInt 5)]))
       "source" "target" "id"
     = Raise (PyException
                "Invalid 'network_data' value: 'edges' table does not contain a 'source' column. Available columns: 0b0f4e9c-6d1c-4f7e-9a57-2f4f8a3f6b11, c3a1d2e4-5b6f-4a7b-8c9d-0e1f2a3b4c5d, w.").
Proof. repeat split; vm_compute; reflexivity. Qed.

(** ** Rows of well-formed tables *)

Lemma distinct_names_NoDup (l : list string) :
  distinct_names l = true <-> NoDup l.
Proof.
  induction l as [|x l IH]; simpl.
  - split; [constructor | reflexivity].
  - rewrite andb_true_iff, negb_true_iff, str_in_false, IH.
    split; [intros [H1 H2]; now constructor | intros H; now inversion H].
Qed.

Lemma wf_table_NoDup (t : table) :
  wf_table t = true -> NoDup (column_names t).
Proof.
  unfold wf_table. rewrite andb_true_iff. intros [H _].
  now apply distinct_names_NoDup.
Qed.

Lemma wf_table_row_length (t : table) (r : list value) :
  wf_table t = true -> In r (rows t) ->
  List.length r = List.length (column_names t).
Proof.
  unfold wf_table. rewrite andb_true_iff, forallb_forall. intros [_ H] Hin.
  now apply Nat.eqb_eq, H.
Qed.

Lemma combine_keys {A B : Type} (ks : list A) (vs : list B) :
  List.length vs = List.length ks -> map fst (combine ks vs) = ks.
Proof.
  revert vs. induction ks as [|k ks IH]; intros [|v vs]; simpl;
    try discriminate; [reflexivity|].
  intros [= H]. now rewrite IH.
Qed.

(** A row of a well-formed table, as a Series: its labels are the columns. *)
Lemma iterrows_keys (t : table) (row : series) :
  wf_table t = true -> In row (iterrows t) -> dict_keys row = column_names t.
Proof.
  intros Hwf Hin. unfold iterrows in Hin. apply in_map_iff in Hin as [r [<- Hr]].
  apply combine_keys. now apply wf_table_row_length.
Qed.

Lemma str_dict_mem_spec (k : string) (d : attrs) :
  attrs_mem k d = true <-> In k (dict_keys d).
Proof. apply dict_mem_spec, String.eqb_spec. Qed.

Lemma str_dict_mem_false (k : string) (d : attrs) :
  attrs_mem k d = false <-> ~ In k (dict_keys d).
Proof. apply dict_mem_false, String.eqb_spec. Qed.

Lemma series_getitem_Ok (row : series) (name : string) :
  In name (dict_keys row) -> exists v, series_getitem row name = Ok v.
Proof.
  intros H. unfold series_getitem.
  destruct (dict_get String.eqb name row) eqn:E; [now eexists|].
  apply (dict_get_None String.eqb_spec) in E. contradiction.
Qed.

(** Updating a dict whose keys are disjoint from the new ones appends them. *)
Lemma dict_update_append {V : Type} (d l : list (string * V)) :
  NoDup (dict_keys d ++ dict_keys l) ->
  dict_update String.eqb d l = d ++ l.
Proof.
  revert d. induction l as [|[k v] l IH]; intros d Hnd; simpl.
  - now rewrite app_nil_r.
  - unfold dict_update in *. simpl.
    assert (Hk : ~ In k (dict_keys d)).
    { intros Hin. apply NoDup_remove_2 in Hnd. apply Hnd.
      apply in_or_app. now left. }
    rewrite (dict_set_keys_absent String.eqb_spec) by exact Hk.
    rewrite IH.
    + now rewrite <- app_assoc.
    + unfold dict_keys in *. rewrite map_app, <- app_assoc. exact Hnd.
Qed.

Lemma dict_of_items_NoDup {V : Type} (l : list (string * V)) :
  NoDup (dict_keys l) -> dict_of_items String.eqb l = l.
Proof. intros H. unfold dict_of_items. now rewrite dict_update_append. Qed.

Lemma dict_update_cons_other {V : Type} (k : string) (v : V)
      (d l : list (string * V)) :
  ~ In k (dict_keys l) ->
  dict_update String.eqb ((k, v) :: d) l = (k, v) :: dict_update String.eqb d l.
Proof.
  revert d v. induction l as [|[k' v'] l IH]; intros d v Hni; [reflexivity|].
  unfold dict_update in *. simpl in *.
  destruct (String.eqb_spec k' k) as [->|Hne]; [tauto|].
  apply IH. tauto.
Qed.

(** Updating a dict with one of the same keys, in the same order, gives the
    new one. *)
Lemma dict_update_same_keys {V : Type} (d l : list (string * V)) :
  dict_keys d = dict_keys l -> NoDup (dict_keys l) ->
  dict_update String.eqb d l = l.
Proof.
  revert d. induction l as [|[k v] l IH]; intros [|[k' v'] d]; simpl;
    try discriminate; [reflexivity|].
  intros [= -> Hk] Hnd. inversion Hnd as [|? ? Hni Hnd']; subst.
  unfold dict_update. simpl. rewrite String.eqb_refl.
  fold (dict_update String.eqb ((k, v) :: d) l).
  rewrite dict_update_cons_other by exact Hni.
  now rewrite IH.
Qed.

(** The dict of a row of a well-formed table is the row. *)
Lemma series_to_dict_id (t : table) (row : series) :
  wf_table t = true -> In row (iterrows t) -> series_to_dict row = row.
Proof.
  intros Hwf Hin. apply dict_of_items_NoDup.
  rewrite (iterrows_keys _ _ Hwf Hin). now apply wf_table_NoDup.
Qed.

Lemma bind_kwargs_Ok (fname : string) (params : list string) (kw : attrs) :
  (forall p, In p params -> ~ In p (dict_keys kw)) ->
  bind_kwargs fname params kw = Ok kw.
Proof.
  intros H. unfold bind_kwargs.
  destruct (find (fun kv : string * value => str_in (fst kv) params) kw)
    as [kv|] eqn:E; [|reflexivity].
  apply find_some in E. destruct E as [Hin Hp].
  apply str_in_spec in Hp. exfalso. apply (H _ Hp).
  unfold dict_keys. now apply in_map.
Qed.

Lemma dict_del_absent {V : Type} (k : string) (d : list (string * V)) :
  ~ In k (dict_keys d) -> dict_del String.eqb k d = d.
Proof.
  induction d as [|[k' v'] d IH]; simpl; [reflexivity|].
  intros H. destruct (String.eqb_spec k k') as [->|Hne]; [tauto|].
  rewrite IH; tauto.
Qed.

(** ** Building the graph object *)

Definition graph_class_of (gt : GraphType) : Nx.graph_class :=
  match gt with
  | DIRECTED => Nx.DiGraph
  | UNDIRECTED => Nx.Graph
  | DIRECTED_MULTI => Nx.MultiDiGraph
  | UNDIRECTED_MULTI => Nx.MultiGraph
  end.

(** The names [add_node] and [add_edge] bind themselves; a column of such a
    name cannot be passed as a keyword attribute. *)
Definition node_keywords : list string := ["self"; "node_for_adding"].

Definition edge_keywords (c : Nx.graph_class) : list string :=
  if Nx.is_multigraph c
  then ["self"; "u_for_edge"; "v_for_edge"; "key"]
  else ["self"; "u_of_edge"; "v_of_edge"].

(** The keys of the graph object: the cells of the node-id column and of
    the two end-point columns. *)
Definition key_cells (T : NetworkGraph.t) : list value :=
  column_values (NetworkGraph.nodes T) (NetworkGraph.node_id_column_name T)
  ++ column_values (NetworkGraph.edges T) (NetworkGraph.source_column_name T)
  ++ column_values (NetworkGraph.edges T) (NetworkGraph.target_column_name T).

(** The graphs that [as_networkx_graph] can turn into a graph object: both
    tables are well formed and have their key columns (as [create_from_tables]
    checks), no column has the name of a parameter of [add_node] or
    [add_edge], the columns are typed, and no node identifier and no end
    point is a null. *)
Definition materializable (T : NetworkGraph.t) : bool :=
  wf_table (NetworkGraph.nodes T)
  && wf_table (NetworkGraph.edges T)
  && str_in (NetworkGraph.node_id_column_name T)
            (column_names (NetworkGraph.nodes T))
  && str_in (NetworkGraph.source_column_name T)
            (column_names (NetworkGraph.edges T))
  && str_in (NetworkGraph.target_column_name T)
            (column_names (NetworkGraph.edges T))
  && forallb (fun k => negb (str_in k (column_names (NetworkGraph.nodes T))))
             node_keywords
  && forallb (fun k => negb (str_in k (column_names (NetworkGraph.edges T))))
             (edge_keywords (graph_class_of (NetworkGraph.graph_type T)))
  && typed_table (NetworkGraph.nodes T)
  && typed_table (NetworkGraph.edges T)
  && no_null (key_cells T).

(** The cell of a row under a label. *)
Definition cell (row : series) (name : string) : value := attr_or_nan row name.

Definition add_node_row (nid : string) (g : Nx.graph) (row : series) : Nx.graph :=
  Nx.add_node_body g (cell row nid) row.

Definition add_edge_row (src tgt : string) (g : Nx.graph) (row : series)
  : Nx.graph :=
  if Nx.is_multigraph (Nx.g_class g)
  then Nx.add_edge_multi g (cell row src) (cell row tgt) None row
  else Nx.add_edge_simple g (cell row src) (cell row tgt) row.

Definition build_nodes (c : Nx.graph_class) (nid : string) (node_rows : list series)
  : Nx.graph :=
  fold_left (add_node_row nid) node_rows (Nx.empty c).

Definition build_graph (T : NetworkGraph.t) : Nx.graph :=
  fold_left (add_edge_row (NetworkGraph.source_column_name T)
                          (NetworkGraph.target_column_name T))
            (iterrows (NetworkGraph.edges T))
            (build_nodes (graph_class_of (NetworkGraph.graph_type T))
                         (NetworkGraph.node_id_column_name T)
                         (iterrows (NetworkGraph.nodes T))).

Lemma for_each_fold {A S : Type} (P : S -> Prop) (body : S -> A -> result S)
      (f : S -> A -> S) (l : list A) (s : S) :
  P s ->
  (forall s x, P s -> In x l -> body s x = Ok (f s x) /\ P (f s x)) ->
  for_each body l s = Ok (fold_left f l s) /\ P (fold_left f l s).
Proof.
  revert s. induction l as [|x l IH]; intros s Hs Hstep; simpl; [auto|].
  destruct (Hstep s x Hs (or_introl eq_refl)) as [-> Hs'].
  apply IH; [exact Hs'|]. intros s' y Ps' Hy. apply Hstep; [exact Ps' | now right].
Qed.

Lemma series_getitem_cell (row : series) (name : string) :
  In name (dict_keys row) -> series_getitem row name = Ok (cell row name).
Proof.
  intros H. unfold series_getitem, cell, attr_or_nan, attrs_get.
  destruct (dict_get String.eqb name row) eqn:E; [reflexivity|].
  apply (dict_get_None String.eqb_spec) in E. contradiction.
Qed.

Lemma ensure_node_class (g : Nx.graph) (n : value) :
  Nx.g_class (Nx.ensure_node g n) = Nx.g_class g.
Proof. unfold Nx.ensure_node. now destruct (Nx.has_node g n). Qed.

Lemma add_node_row_class (nid : string) (g : Nx.graph) (row : series) :
  Nx.g_class (add_node_row nid g row) = Nx.g_class g.
Proof. unfold add_node_row, Nx.add_node_body. simpl. apply ensure_node_class. Qed.

Lemma add_edge_row_class (src tgt : string) (g : Nx.graph) (row : series) :
  Nx.g_class (add_edge_row src tgt g row) = Nx.g_class g.
Proof.
  unfold add_edge_row, Nx.add_edge_multi, Nx.add_edge_simple, Nx.set_edge.
  destruct (Nx.is_multigraph (Nx.g_class g)); simpl;
    now rewrite !ensure_node_class.
Qed.

Lemma build_nodes_class (c : Nx.graph_class) (nid : string) (l : list series) :
  Nx.g_class (build_nodes c nid l) = c.
Proof.
  unfold build_nodes.
  assert (H : forall g, Nx.g_class (fold_left (add_node_row nid) l g)
                        = Nx.g_class g).
  { induction l as [|r l IH]; intros g; simpl; [reflexivity|].
    now rewrite IH, add_node_row_class. }
  now rewrite H.
Qed.

Lemma materializable_spec (T : NetworkGraph.t) :
  materializable T = true ->
  wf_table (NetworkGraph.nodes T) = true
  /\ wf_table (NetworkGraph.edges T) = true
  /\ In (NetworkGraph.node_id_column_name T) (column_names (NetworkGraph.nodes T))
  /\ In (NetworkGraph.source_column_name T) (column_names (NetworkGraph.edges T))
  /\ In (NetworkGraph.target_column_name T) (column_names (NetworkGraph.edges T))
  /\ (forall k, In k node_keywords ->
                ~ In k (column_names (NetworkGraph.nodes T)))
  /\ (forall k, In k (edge_keywords (graph_class_of (NetworkGraph.graph_type T))) ->
                ~ In k (column_names (NetworkGraph.edges T))).
Proof.
  unfold materializable. rewrite !andb_true_iff, !str_in_spec.
  intros [[[[[[[[[H1 H2] H3] H4] H5] H6] H7] _] _] _].
  rewrite forallb_forall in H6, H7.
  repeat split; try assumption.
  - intros k Hk. apply str_in_false, negb_true_iff, H6, Hk.
  - intros k Hk. apply str_in_false, negb_true_iff, H7, Hk.
Qed.

Lemma no_null_cells (t : table) (name : string) (row : series) :
  no_null (column_values t name) = true ->
  In row (iterrows t) -> is_none (cell row name) = false.
Proof.
  unfold no_null, column_values. rewrite forallb_forall. intros H Hin.
  apply negb_true_iff. apply (H (cell row name)).
  apply (in_map (fun row => match dict_get String.eqb name row with
                            | Some v => v
                            | None => VNaN
                            end) _ _ Hin).
Qed.

Lemma no_null_app (l1 l2 : list value) :
  no_null (l1 ++ l2) = no_null l1 && no_null l2.
Proof. unfold no_null. apply forallb_app. Qed.

(** The identifiers and the end points of a materializable graph are not
    null, and every column of its tables has one type. *)
Lemma materializable_keys (T : NetworkGraph.t) :
  materializable T = true ->
  (forall row, In row (iterrows (NetworkGraph.nodes T)) ->
               is_none (cell row (NetworkGraph.node_id_column_name T)) = false)
  /\ (forall row, In row (iterrows (NetworkGraph.edges T)) ->
                  is_none (cell row (NetworkGraph.source_column_name T)) = false
                  /\ is_none (cell row (NetworkGraph.target_column_name T))
                     = false)
  /\ typed_table (NetworkGraph.nodes T) = true
  /\ typed_table (NetworkGraph.edges T) = true.
Proof.
  unfold materializable, key_cells. rewrite !andb_true_iff, !no_null_app.
  rewrite !andb_true_iff.
  intros [[[_ Htn] Hte] [Hn [Hs Ht]]].
  split; [|split; [|split; assumption]].
  - intros row Hin. eapply no_null_cells; eassumption.
  - intros row Hin. split; eapply no_null_cells; eassumption.
Qed.

(** On a materializable graph, [as_networkx_graph] returns the graph that
    the rows build, node rows first. *)
Lemma as_networkx_graph_build (T : NetworkGraph.t) :
  materializable T = true ->
  NetworkGraph.as_networkx_graph T = Ok (build_graph T).
Proof.
  intros HM. destruct (materializable_spec T HM)
    as (Hwn & Hwe & Hnid & Hsrc & Htgt & Hkn & Hke).
  destruct (materializable_keys T HM) as (Hnn & Hne & _ & _).
  unfold NetworkGraph.as_networkx_graph, build_graph, to_pandas, arrow_table.
  set (c := graph_class_of (NetworkGraph.graph_type T)) in *.
  assert (Hc : (if String.eqb (GraphType_value (NetworkGraph.graph_type T))
                              (GraphType_value DIRECTED)
                then Ok Nx.DiGraph
                else if String.eqb (GraphType_value (NetworkGraph.graph_type T))
                                   (GraphType_value UNDIRECTED)
                then Ok Nx.Graph
                else if String.eqb (GraphType_value (NetworkGraph.graph_type T))
                                   (GraphType_value DIRECTED_MULTI)
                then Ok Nx.MultiDiGraph
                else if String.eqb (GraphType_value (NetworkGraph.graph_type T))
                                   (GraphType_value UNDIRECTED_MULTI)
                then Ok Nx.MultiGraph
                else Raise (KiaraException "Invalid graph type: {self.graph_type}"))
               = Ok c).
  { subst c. now destruct (NetworkGraph.graph_type T). }
  rewrite Hc. cbn [bind].
  destruct (for_each_fold
              (fun g => Nx.g_class g = c)
              (fun graph row =>
                 n <- series_getitem row (NetworkGraph.node_id_column_name T) ;;
                 Nx.add_node graph n (series_to_dict row))
              (add_node_row (NetworkGraph.node_id_column_name T))
              (iterrows (NetworkGraph.nodes T)) (Nx.empty c) eq_refl)
    as [-> Hcl].
  { intros g row Hg Hrow.
    pose proof (iterrows_keys _ _ Hwn Hrow) as Hkeys.
    rewrite series_getitem_cell by (now rewrite Hkeys). cbn [bind].
    rewrite (series_to_dict_id _ _ Hwn Hrow).
    unfold Nx.add_node.
    rewrite bind_kwargs_Ok by (intros p Hp; rewrite Hkeys; now apply Hkn).
    cbn [bind]. rewrite (Hnn _ Hrow).
    split; [reflexivity | now rewrite add_node_row_class]. }
  cbn [bind]. fold (build_nodes c (NetworkGraph.node_id_column_name T)
                                (iterrows (NetworkGraph.nodes T))) in *.
  destruct (for_each_fold
              (fun g => Nx.g_class g = c)
              (fun graph row =>
                 u <- series_getitem row (NetworkGraph.source_column_name T) ;;
                 v <- series_getitem row (NetworkGraph.target_column_name T) ;;
                 Nx.add_edge graph u v (series_to_dict row))
              (add_edge_row (NetworkGraph.source_column_name T)
                            (NetworkGraph.target_column_name T))
              (iterrows (NetworkGraph.edges T))
              (build_nodes c (NetworkGraph.node_id_column_name T)
                           (iterrows (NetworkGraph.nodes T))) Hcl)
    as [-> _]; [|reflexivity].
  intros g row Hg Hrow.
  pose proof (iterrows_keys _ _ Hwe Hrow) as Hkeys.
  rewrite !series_getitem_cell by (now rewrite Hkeys). cbn [bind].
  rewrite (series_to_dict_id _ _ Hwe Hrow).
  split; [|now rewrite add_edge_row_class].
  destruct (Hne _ Hrow) as [Hu Hv].
  unfold Nx.add_edge, add_edge_row, edge_keywords in *. rewrite Hg.
  destruct (Nx.is_multigraph c) eqn:Hm.
  - rewrite bind_kwargs_Ok
      by (intros p Hp; rewrite Hkeys; apply Hke; simpl in *; tauto).
    cbn [bind]. rewrite Hu, Hv. cbn [orb].
    assert (Hkey : ~ In "key" (dict_keys row))
      by (rewrite Hkeys; apply Hke; simpl; tauto).
    rewrite dict_del_absent by exact Hkey.
    unfold attrs_get.
    now apply (dict_get_None String.eqb_spec) in Hkey as ->.
  - rewrite bind_kwargs_Ok by (intros p Hp; rewrite Hkeys; now apply Hke).
    cbn [bind]. rewrite Hu, Hv. reflexivity.
Qed.

(** *** Dictionaries built by repeated assignment *)

Section DictUpdateFacts.
Context {K V : Type} (keq : K -> K -> bool).
Hypothesis keq_spec : forall a b, reflect (a = b) (keq a b).

Lemma dict_update_snoc (d : list (K * V)) (l : list (K * V)) (k : K) (v : V) :
  dict_update keq d (l ++ [(k, v)]) = dict_set keq k v (dict_update keq d l).
Proof. unfold dict_update. now rewrite fold_left_app. Qed.

Lemma dict_update_keys_In (d l : list (K * V)) (k : K) :
  In k (dict_keys (dict_update keq d l))
  <-> In k (dict_keys d) \/ In k (dict_keys l).
Proof.
  revert d. induction l as [|[k' v'] l IH]; intros d.
  - simpl. tauto.
  - change (dict_update keq d ((k', v') :: l))
      with (dict_update keq (dict_set keq k' v' d) l).
    rewrite IH, (dict_set_keys_In keq_spec). simpl. intuition congruence.
Qed.

Lemma dict_update_NoDup (d l : list (K * V)) :
  NoDup (dict_keys d) -> NoDup (dict_keys (dict_update keq d l)).
Proof.
  revert d. induction l as [|[k' v'] l IH]; intros d Hd; [exact Hd|].
  change (dict_update keq d ((k', v') :: l))
    with (dict_update keq (dict_set keq k' v' d) l).
  apply IH. now apply (dict_set_NoDup keq_spec).
Qed.

Lemma dict_update_get_absent (d l : list (K * V)) (k : K) :
  ~ In k (dict_keys l) ->
  dict_get keq k (dict_update keq d l) = dict_get keq k d.
Proof.
  revert d. induction l as [|[k' v'] l IH]; intros d Hni; [reflexivity|].
  change (dict_update keq d ((k', v') :: l))
    with (dict_update keq (dict_set keq k' v' d) l).
  simpl in Hni. rewrite IH by tauto.
  apply (dict_get_set_other keq_spec). intros ->. tauto.
Qed.

(** The last assignment to a key is the one that counts. *)
Lemma dict_update_get_last (d pre post : list (K * V)) (k : K) (v : V) :
  ~ In k (dict_keys post) ->
  dict_get keq k (dict_update keq d (pre ++ (k, v) :: post)) = Some v.
Proof.
  intros Hni. unfold dict_update. rewrite fold_left_app. simpl.
  fold (dict_update keq d pre).
  fold (dict_update keq (dict_set keq k v (dict_update keq d pre)) post).
  rewrite dict_update_get_absent by exact Hni.
  apply (dict_get_set_same keq_spec).
Qed.

Lemma dict_update_get_In (d l : list (K * V)) (k : K) (v : V) :
  dict_get keq k (dict_update keq d l) = Some v ->
  In (k, v) l \/ dict_get keq k d = Some v.
Proof.
  revert d. induction l as [|[k' v'] l IH]; intros d H; [now right|].
  change (dict_update keq d ((k', v') :: l))
    with (dict_update keq (dict_set keq k' v' d) l) in H.
  apply IH in H as [H|H]; [left; now right|].
  destruct (keq_spec k k') as [->|Hne].
  - rewrite (dict_get_set_same keq_spec) in H. injection H as ->.
    left. now left.
  - rewrite (dict_get_set_other keq_spec) in H by exact Hne. now right.
Qed.

Lemma dict_set_map_key {B : Type} (h : K -> B) (k : K) (v : V)
      (d : list (K * V)) :
  In k (dict_keys d) ->
  map (fun kv => h (fst kv)) (dict_set keq k v d)
  = map (fun kv => h (fst kv)) d.
Proof.
  intros H. apply (dict_set_keys_present keq_spec k v) in H.
  unfold dict_keys in H.
  rewrite <- (map_map fst h), H. apply map_map.
Qed.

Lemma dict_set_twice (k : K) (v1 v2 : V) (d : list (K * V)) :
  dict_set keq k v2 (dict_set keq k v1 d) = dict_set keq k v2 d.
Proof.
  induction d as [|[k' v'] d IH]; simpl.
  - now rewrite (keq_refl keq_spec).
  - destruct (keq_spec k k') as [->|Hne]; simpl.
    + now rewrite (keq_refl keq_spec).
    + destruct (keq_spec k k'); [congruence|]. now rewrite IH.
Qed.
End DictUpdateFacts.

Arguments dict_update_snoc {K V} keq.
Arguments dict_update_keys_In {K V keq} keq_spec.
Arguments dict_update_NoDup {K V keq} keq_spec.
Arguments dict_update_get_absent {K V keq} keq_spec.
Arguments dict_update_get_last {K V keq} keq_spec.
Arguments dict_update_get_In {K V keq} keq_spec.
Arguments dict_set_map_key {K V keq} keq_spec {B}.
Arguments dict_set_twice {K V keq} keq_spec.

(** *** The nodes of the graph object *)

(** The node dict that the node rows build: the rows keyed by their
    identifier, a later row of the same identifier replacing an earlier. *)
Definition node_dict_of_rows (nid : string) (node_rows : list series)
  : list (value * attrs) :=
  dict_of_items value_eqb (map (fun r => (cell r nid, r)) node_rows).

Definition isolated (node : list (value * attrs)) : Nx.adjdict :=
  map (fun kv => (fst kv, [])) node.

Lemma isolated_keys (node : list (value * attrs)) :
  dict_keys (isolated node) = dict_keys node.
Proof. unfold isolated, dict_keys. rewrite map_map. reflexivity. Qed.

Lemma has_node_spec (g : Nx.graph) (n : value) :
  Nx.has_node g n = true <-> In n (dict_keys (Nx.g_node g)).
Proof. apply (dict_mem_spec value_eqb_spec). Qed.

Lemma has_node_false (g : Nx.graph) (n : value) :
  Nx.has_node g n = false <-> ~ In n (dict_keys (Nx.g_node g)).
Proof. apply (dict_mem_false value_eqb_spec). Qed.

Lemma add_node_row_node (cols : list string) (nid : string) (g : Nx.graph)
      (r : series) :
  NoDup cols -> dict_keys r = cols ->
  (forall n a, In (n, a) (Nx.g_node g) -> dict_keys a = cols) ->
  Nx.g_node (add_node_row nid g r)
  = dict_set value_eqb (cell r nid) r (Nx.g_node g).
Proof.
  intros Hnd Hr Hg. unfold add_node_row, Nx.add_node_body, Nx.ensure_node.
  destruct (Nx.has_node g (cell r nid)) eqn:Hn; simpl.
  - f_equal. unfold Nx.node_attrs.
    apply has_node_spec in Hn.
    destruct (dict_get value_eqb (cell r nid) (Nx.g_node g)) eqn:E.
    + apply (dict_get_In value_eqb_spec) in E. apply Hg in E.
      apply dict_update_same_keys; congruence.
    + apply (dict_get_None value_eqb_spec) in E. contradiction.
  - unfold Nx.node_attrs. simpl.
    rewrite (dict_get_set_same value_eqb_spec).
    rewrite (dict_set_twice value_eqb_spec). f_equal.
    apply dict_update_append. simpl. congruence.
Qed.

Lemma add_node_row_adj (nid : string) (g : Nx.graph) (r : series) :
  Nx.g_adj g = isolated (Nx.g_node g) ->
  Nx.g_adj (add_node_row nid g r) = isolated (Nx.g_node (add_node_row nid g r)).
Proof.
  intros Hg. unfold add_node_row, Nx.add_node_body, Nx.ensure_node.
  destruct (Nx.has_node g (cell r nid)) eqn:Hn; simpl.
  - apply has_node_spec in Hn. rewrite Hg. unfold isolated.
    symmetry.
    now apply (dict_set_map_key value_eqb_spec
                 (fun k : value => (k, @nil (value * Nx.keydict)))).
  - apply has_node_false in Hn.
    rewrite (dict_set_twice value_eqb_spec).
    rewrite (dict_set_keys_absent value_eqb_spec _ _ (Nx.g_node g))
      by exact Hn.
    rewrite (dict_set_keys_absent value_eqb_spec _ _ (Nx.g_adj g))
      by (rewrite Hg, isolated_keys; exact Hn).
    rewrite Hg. unfold isolated. now rewrite map_app.
Qed.

Lemma dict_set_In_value {K V : Type} (keq : K -> K -> bool) (k k0 : K)
      (v v0 : V) (d : list (K * V)) :
  In (k0, v0) (dict_set keq k v d) -> v0 = v \/ In (k0, v0) d.
Proof.
  induction d as [|[k' v'] d IH]; simpl.
  - intros [[= _ <-]|[]]. now left.
  - destruct (keq k k'); simpl.
    + intros [[= _ <-]|H]; [now left | right; now right].
    + intros [E|H]; [right; now left|].
      apply IH in H as [H|H]; [now left | right; now right].
Qed.

Lemma fold_add_node_rows (cols : list string) (nid : string)
      (node_rows : list series) (g : Nx.graph) :
  NoDup cols -> (forall r, In r node_rows -> dict_keys r = cols) ->
  (forall n a, In (n, a) (Nx.g_node g) -> dict_keys a = cols) ->
  Nx.g_adj g = isolated (Nx.g_node g) ->
  Nx.g_node (fold_left (add_node_row nid) node_rows g)
  = dict_update value_eqb (Nx.g_node g)
                (map (fun r => (cell r nid, r)) node_rows)
  /\ Nx.g_adj (fold_left (add_node_row nid) node_rows g)
     = isolated (Nx.g_node (fold_left (add_node_row nid) node_rows g)).
Proof.
  intros Hnd. revert g.
  induction node_rows as [|r l IH]; intros g Hrows Hg Ha; [now split|].
  simpl fold_left.
  assert (Hr : dict_keys r = cols) by (apply Hrows; now left).
  pose proof (add_node_row_node cols nid g r Hnd Hr Hg) as Hstep.
  destruct (IH (add_node_row nid g r)) as [IH1 IH2].
  - intros r' Hr'. apply Hrows. now right.
  - intros n a Hin. rewrite Hstep in Hin.
    apply dict_set_In_value in Hin as [->|Hin]; [exact Hr | now apply (Hg n a)].
  - now apply add_node_row_adj.
  - split; [|exact IH2]. rewrite IH1, Hstep. reflexivity.
Qed.

Lemma build_nodes_spec (c : Nx.graph_class) (cols : list string) (nid : string)
      (node_rows : list series) :
  NoDup cols -> (forall r, In r node_rows -> dict_keys r = cols) ->
  Nx.g_node (build_nodes c nid node_rows) = node_dict_of_rows nid node_rows
  /\ Nx.g_adj (build_nodes c nid node_rows)
     = isolated (node_dict_of_rows nid node_rows).
Proof.
  intros Hnd Hrows. unfold build_nodes.
  destruct (fold_add_node_rows cols nid node_rows (Nx.empty c) Hnd Hrows)
    as [H1 H2]; [intros n a [] | reflexivity |].
  split; [exact H1 | now rewrite H2, H1].
Qed.

(** *** The adjacency of the graph object *)

Lemma nbrs_of_dict_set (adj : Nx.adjdict) (u x : value) (m : Nx.nbrdict) :
  Nx.nbrs_of (dict_set value_eqb u m adj) x
  = if value_eqb x u then m else Nx.nbrs_of adj x.
Proof.
  unfold Nx.nbrs_of. destruct (value_eqb_spec x u) as [->|Hne].
  - now rewrite (dict_get_set_same value_eqb_spec).
  - now rewrite (dict_get_set_other value_eqb_spec) by exact Hne.
Qed.

Lemma keys_of_adj_set (adj : Nx.adjdict) (u v x y : value) (kd : Nx.keydict) :
  Nx.keys_of (Nx.adj_set adj u v kd) x y
  = if value_eqb x u && value_eqb y v then kd else Nx.keys_of adj x y.
Proof.
  unfold Nx.keys_of, Nx.adj_set. rewrite nbrs_of_dict_set.
  destruct (value_eqb_spec x u) as [->|Hne]; simpl; [|reflexivity].
  destruct (value_eqb_spec y v) as [->|Hne].
  - now rewrite (dict_get_set_same value_eqb_spec).
  - now rewrite (dict_get_set_other value_eqb_spec) by exact Hne.
Qed.

Lemma adj_set_keys (adj : Nx.adjdict) (u v : value) (kd : Nx.keydict) :
  In u (dict_keys adj) -> dict_keys (Nx.adj_set adj u v kd) = dict_keys adj.
Proof. apply (dict_set_keys_present value_eqb_spec). Qed.

(** The edge keys [0, 1, ..., n-1]. *)
Definition int_keys (n : nat) : list value :=
  map (fun i => VInt (Z.of_nat i)) (seq 0 n).

(** What holds of every graph object that [add_node] and [add_edge] build:
    [_node] and [_adj] have the same keys, each once; the adjacency of an
    undirected graph is symmetric; the keys of the edges of a pair count up
    from 0, and a simple graph has at most one edge for a pair. *)
Record graph_inv (g : Nx.graph) : Prop := mkInv {
  inv_keys : dict_keys (Nx.g_adj g) = dict_keys (Nx.g_node g);
  inv_nodup : NoDup (dict_keys (Nx.g_node g));
  inv_sym : Nx.is_directed (Nx.g_class g) = false ->
            forall u v, Nx.keys_of (Nx.g_adj g) u v = Nx.keys_of (Nx.g_adj g) v u;
  inv_int_keys : forall u v,
      dict_keys (Nx.keys_of (Nx.g_adj g) u v)
      = int_keys (List.length (Nx.keys_of (Nx.g_adj g) u v));
  inv_simple : Nx.is_multigraph (Nx.g_class g) = false ->
               forall u v, List.length (Nx.keys_of (Nx.g_adj g) u v) <= 1
}.

Lemma keys_of_isolated (node : list (value * attrs)) (u v : value) :
  Nx.keys_of (isolated node) u v = [].
Proof.
  unfold Nx.keys_of, Nx.nbrs_of.
  destruct (dict_get value_eqb u (isolated node)) eqn:E; [|reflexivity].
  apply (dict_get_In value_eqb_spec) in E. unfold isolated in E.
  apply in_map_iff in E as [[k a] [[= _ <-] _]]. reflexivity.
Qed.

Lemma keys_of_absent (adj : Nx.adjdict) (u v : value) :
  ~ In u (dict_keys adj) -> Nx.keys_of adj u v = [].
Proof.
  intros H. unfold Nx.keys_of, Nx.nbrs_of.
  now apply (dict_get_None value_eqb_spec) in H as ->.
Qed.

Lemma ensure_node_keys_of (g : Nx.graph) (n u v : value) :
  dict_keys (Nx.g_adj g) = dict_keys (Nx.g_node g) ->
  Nx.keys_of (Nx.g_adj (Nx.ensure_node g n)) u v = Nx.keys_of (Nx.g_adj g) u v.
Proof.
  intros Hk. unfold Nx.ensure_node.
  destruct (Nx.has_node g n) eqn:Hn; [reflexivity|]. simpl.
  apply has_node_false in Hn. rewrite <- Hk in Hn.
  unfold Nx.keys_of at 1. rewrite nbrs_of_dict_set.
  destruct (value_eqb_spec u n) as [->|Hne]; [|reflexivity].
  simpl. now rewrite keys_of_absent.
Qed.

Lemma ensure_node_has (g : Nx.graph) (n : value) :
  In n (dict_keys (Nx.g_node (Nx.ensure_node g n))).
Proof.
  unfold Nx.ensure_node. destruct (Nx.has_node g n) eqn:Hn.
  - now apply has_node_spec.
  - simpl. apply (dict_set_keys_In value_eqb_spec). now left.
Qed.

Lemma ensure_node_keeps (g : Nx.graph) (n m : value) :
  In m (dict_keys (Nx.g_node g)) ->
  In m (dict_keys (Nx.g_node (Nx.ensure_node g n))).
Proof.
  intros H. unfold Nx.ensure_node. destruct (Nx.has_node g n); [exact H|].
  simpl. apply (dict_set_keys_In value_eqb_spec). now right.
Qed.

Lemma ensure_node_inv (g : Nx.graph) (n : value) :
  graph_inv g -> graph_inv (Nx.ensure_node g n).
Proof.
  intros [Hk Hnd Hsym Hint Hsim].
  assert (Hko : forall u v,
             Nx.keys_of (Nx.g_adj (Nx.ensure_node g n)) u v
             = Nx.keys_of (Nx.g_adj g) u v)
    by (intros; now apply ensure_node_keys_of).
  constructor.
  - unfold Nx.ensure_node. destruct (Nx.has_node g n) eqn:Hn; [exact Hk|].
    simpl. apply has_node_false in Hn.
    rewrite (dict_set_keys_absent value_eqb_spec _ _ (Nx.g_adj g))
      by (rewrite Hk; exact Hn).
    rewrite (dict_set_keys_absent value_eqb_spec _ _ (Nx.g_node g))
      by exact Hn.
    unfold dict_keys in *. rewrite !map_app. simpl. congruence.
  - unfold Nx.ensure_node. destruct (Nx.has_node g n) eqn:Hn; [exact Hnd|].
    simpl. now apply (dict_set_NoDup value_eqb_spec).
  - rewrite ensure_node_class. intros Hd u v. rewrite !Hko. now apply Hsym.
  - intros u v. rewrite !Hko. apply Hint.
  - rewrite ensure_node_class. intros Hm u v. rewrite Hko. now apply Hsim.
Qed.

(** A node that is there keeps its attributes when another is ensured. *)
Lemma ensure_node_get (g : Nx.graph) (n m : value) (a : attrs) :
  dict_get value_eqb m (Nx.g_node g) = Some a ->
  dict_get value_eqb m (Nx.g_node (Nx.ensure_node g n)) = Some a.
Proof.
  intros H. unfold Nx.ensure_node. destruct (Nx.has_node g n) eqn:Hn; [exact H|].
  simpl. rewrite (dict_get_set_other value_eqb_spec); [exact H|].
  intros ->. apply has_node_false in Hn. apply Hn.
  apply (dict_mem_spec value_eqb_spec). unfold dict_mem. now rewrite H.
Qed.

(** [(x, y)] is the pair [(u, v)], or, in an undirected graph, [(v, u)]. *)
Definition same_pair (directed : bool) (x y u v : value) : bool :=
  (value_eqb x u && value_eqb y v)
  || (negb directed && (value_eqb x v && value_eqb y u)).

Lemma same_pair_refl (directed : bool) (u v : value) :
  same_pair directed u v u v = true.
Proof. unfold same_pair. now rewrite !value_eqb_refl. Qed.

Lemma same_pair_swap (x y u v : value) :
  same_pair false y x u v = same_pair false x y u v.
Proof.
  unfold same_pair. simpl.
  destruct (value_eqb x u), (value_eqb y v), (value_eqb x v), (value_eqb y u);
    reflexivity.
Qed.

Lemma keys_of_set_edge (g : Nx.graph) (u v k : value) (a : attrs) (x y : value) :
  Nx.keys_of (Nx.g_adj (Nx.set_edge g u v k a)) x y
  = if same_pair (Nx.is_directed (Nx.g_class g)) x y u v
    then dict_set value_eqb k
                  (attrs_update
                     (match dict_get value_eqb k (Nx.keys_of (Nx.g_adj g) u v) with
                      | Some d => d
                      | None => []
                      end) a)
                  (Nx.keys_of (Nx.g_adj g) u v)
    else Nx.keys_of (Nx.g_adj g) x y.
Proof.
  unfold Nx.set_edge, same_pair. simpl.
  destruct (Nx.is_directed (Nx.g_class g)); simpl.
  - rewrite keys_of_adj_set, orb_false_r. reflexivity.
  - rewrite !keys_of_adj_set.
    destruct (value_eqb x u && value_eqb y v), (value_eqb x v && value_eqb y u);
      reflexivity.
Qed.

Lemma int_keys_fresh (n : nat) : ~ In (VInt (Z.of_nat n)) (int_keys n).
Proof.
  unfold int_keys. rewrite in_map_iff. intros [i [[= E] Hi]].
  apply in_seq in Hi. lia.
Qed.

Lemma int_keys_S (n : nat) : int_keys (S n) = int_keys n ++ [VInt (Z.of_nat n)].
Proof. unfold int_keys. now rewrite seq_S, map_app. Qed.

Lemma new_edge_key_fresh (g : Nx.graph) (u v : value) :
  dict_keys (Nx.keys_of (Nx.g_adj g) u v)
  = int_keys (List.length (Nx.keys_of (Nx.g_adj g) u v)) ->
  Nx.new_edge_key g u v
  = VInt (Z.of_nat (List.length (Nx.keys_of (Nx.g_adj g) u v))).
Proof.
  intros H. unfold Nx.new_edge_key. simpl.
  assert (E : dict_mem value_eqb
                (VInt (Z.of_nat (List.length (Nx.keys_of (Nx.g_adj g) u v))))
                (Nx.keys_of (Nx.g_adj g) u v) = false).
  { apply (dict_mem_false value_eqb_spec). rewrite H. apply int_keys_fresh. }
  now rewrite E.
Qed.

(** Every attribute dict stored on an edge has the keys [cols]. *)
Definition edge_attrs_inv (cols : list string) (g : Nx.graph) : Prop :=
  forall u v k a, In (k, a) (Nx.keys_of (Nx.g_adj g) u v) -> dict_keys a = cols.

(** The edges of a pair once a row [r] has been added between [u] and [v],
    given the edges [kd] that were there. *)
Definition keys_after_row (multi : bool) (kd : Nx.keydict) (r : attrs)
  : Nx.keydict :=
  if multi then kd ++ [(VInt (Z.of_nat (List.length kd)), r)]
  else [(VInt 0, r)].

Lemma add_edge_row_keys_of (cols : list string) (src tgt : string)
      (g : Nx.graph) (r : series) (x y : value) :
  graph_inv g -> edge_attrs_inv cols g -> NoDup cols -> dict_keys r = cols ->
  Nx.keys_of (Nx.g_adj (add_edge_row src tgt g r)) x y
  = if same_pair (Nx.is_directed (Nx.g_class g)) x y (cell r src) (cell r tgt)
    then keys_after_row (Nx.is_multigraph (Nx.g_class g))
                        (Nx.keys_of (Nx.g_adj g) (cell r src) (cell r tgt)) r
    else Nx.keys_of (Nx.g_adj g) x y.
Proof.
  intros Hinv Hattrs Hnd Hr.
  set (u := cell r src). set (v := cell r tgt).
  set (g1 := Nx.ensure_node (Nx.ensure_node g u) v).
  assert (Hinv1 : graph_inv g1) by (subst g1; now do 2 apply ensure_node_inv).
  assert (Hcl : Nx.g_class g1 = Nx.g_class g)
    by (subst g1; now rewrite !ensure_node_class).
  assert (Hko : forall p q, Nx.keys_of (Nx.g_adj g1) p q
                            = Nx.keys_of (Nx.g_adj g) p q).
  { intros p q. subst g1. rewrite ensure_node_keys_of.
    - apply ensure_node_keys_of, Hinv.
    - apply ensure_node_inv, Hinv. }
  assert (Hupd : attrs_update [] r = r).
  { apply dict_update_append. simpl. congruence. }
  unfold add_edge_row, Nx.add_edge_multi, Nx.add_edge_simple, keys_after_row.
  fold u v g1.
  destruct (Nx.is_multigraph (Nx.g_class g)) eqn:Hm;
    rewrite keys_of_set_edge, Hcl, !Hko;
    destruct (same_pair (Nx.is_directed (Nx.g_class g)) x y u v); try reflexivity.
  - rewrite new_edge_key_fresh by (rewrite !Hko; apply Hinv).
    rewrite Hko.
    assert (Hf : ~ In (VInt (Z.of_nat (List.length (Nx.keys_of (Nx.g_adj g) u v))))
                   (dict_keys (Nx.keys_of (Nx.g_adj g) u v))).
    { rewrite (inv_int_keys g Hinv). apply int_keys_fresh. }
    pose proof Hf as Hf'. apply (dict_get_None value_eqb_spec) in Hf' as ->.
    rewrite Hupd. now apply (dict_set_keys_absent value_eqb_spec).
  - pose proof (inv_simple g Hinv Hm u v) as Hle.
    pose proof (inv_int_keys g Hinv u v) as Hik.
    destruct (Nx.keys_of (Nx.g_adj g) u v) as [|[k0 a0] [|? ?]] eqn:E;
      simpl in Hle; try lia.
    + simpl. now rewrite Hupd.
    + simpl in Hik. injection Hik as ->. simpl. f_equal. f_equal.
      apply dict_update_same_keys; [|congruence].
      rewrite Hr. apply (Hattrs u v (VInt 0) a0). rewrite E. now left.
Qed.

Lemma set_edge_node (g : Nx.graph) (u v k : value) (a : attrs) :
  Nx.g_node (Nx.set_edge g u v k a) = Nx.g_node g.
Proof. reflexivity. Qed.

Lemma set_edge_adj_keys (g : Nx.graph) (u v k : value) (a : attrs) :
  In u (dict_keys (Nx.g_adj g)) -> In v (dict_keys (Nx.g_adj g)) ->
  dict_keys (Nx.g_adj (Nx.set_edge g u v k a)) = dict_keys (Nx.g_adj g).
Proof.
  intros Hu Hv. unfold Nx.set_edge. simpl.
  destruct (Nx.is_directed (Nx.g_class g)).
  - now apply adj_set_keys.
  - rewrite adj_set_keys; rewrite adj_set_keys; auto.
Qed.

Lemma add_edge_row_node (src tgt : string) (g : Nx.graph) (r : series) :
  Nx.g_node (add_edge_row src tgt g r)
  = Nx.g_node (Nx.ensure_node (Nx.ensure_node g (cell r src)) (cell r tgt)).
Proof.
  unfold add_edge_row, Nx.add_edge_multi, Nx.add_edge_simple.
  now destruct (Nx.is_multigraph (Nx.g_class g)).
Qed.

Lemma add_edge_row_adj_keys (src tgt : string) (g : Nx.graph) (r : series) :
  graph_inv g ->
  dict_keys (Nx.g_adj (add_edge_row src tgt g r))
  = dict_keys (Nx.g_node (add_edge_row src tgt g r)).
Proof.
  intros Hinv. rewrite add_edge_row_node.
  set (g1 := Nx.ensure_node (Nx.ensure_node g (cell r src)) (cell r tgt)).
  assert (Hinv1 : graph_inv g1) by (subst g1; now do 2 apply ensure_node_inv).
  assert (Hu : In (cell r src) (dict_keys (Nx.g_adj g1))).
  { rewrite (inv_keys g1 Hinv1). subst g1.
    apply ensure_node_keeps, ensure_node_has. }
  assert (Hv : In (cell r tgt) (dict_keys (Nx.g_adj g1))).
  { rewrite (inv_keys g1 Hinv1). subst g1. apply ensure_node_has. }
  rewrite <- (inv_keys g1 Hinv1).
  unfold add_edge_row, Nx.add_edge_multi, Nx.add_edge_simple. fold g1.
  destruct (Nx.is_multigraph (Nx.g_class g)); now apply set_edge_adj_keys.
Qed.

Lemma add_edge_row_inv (cols : list string) (src tgt : string)
      (g : Nx.graph) (r : series) :
  graph_inv g -> edge_attrs_inv cols g -> NoDup cols -> dict_keys r = cols ->
  graph_inv (add_edge_row src tgt g r)
  /\ edge_attrs_inv cols (add_edge_row src tgt g r).
Proof.
  intros Hinv Hattrs Hnd Hr.
  pose proof (fun x y => add_edge_row_keys_of cols src tgt g r x y
                                              Hinv Hattrs Hnd Hr) as Hko.
  split; [constructor|].
  - now apply add_edge_row_adj_keys.
  - rewrite add_edge_row_node. apply ensure_node_inv, ensure_node_inv, Hinv.
  - rewrite add_edge_row_class. intros Hd x y. rewrite !Hko, Hd.
    rewrite (same_pair_swap x y). rewrite (inv_sym g Hinv Hd x y). reflexivity.
  - intros x y. rewrite Hko.
    destruct (same_pair _ x y _ _); [|apply Hinv].
    unfold keys_after_row. destruct (Nx.is_multigraph (Nx.g_class g)).
    + unfold dict_keys. rewrite map_app, length_app. simpl.
      rewrite Nat.add_1_r, int_keys_S. f_equal. apply Hinv.
    + reflexivity.
  - rewrite add_edge_row_class. intros Hm x y. rewrite Hko, Hm.
    destruct (same_pair _ x y _ _); [simpl; lia | now apply Hinv].
  - intros x y k a. rewrite Hko.
    destruct (same_pair _ x y _ _); [|apply Hattrs].
    unfold keys_after_row. destruct (Nx.is_multigraph (Nx.g_class g)).
    + intros Hin. apply in_app_or in Hin as [Hin|[[= _ <-]|[]]];
        [now apply Hattrs in Hin | exact Hr].
    + intros [[= _ <-]|[]]. exact Hr.
Qed.

Lemma build_nodes_inv (c : Nx.graph_class) (cols : list string) (nid : string)
      (node_rows : list series) :
  NoDup cols -> (forall r, In r node_rows -> dict_keys r = cols) ->
  graph_inv (build_nodes c nid node_rows)
  /\ forall u v, Nx.keys_of (Nx.g_adj (build_nodes c nid node_rows)) u v = [].
Proof.
  intros Hnd Hrows.
  destruct (build_nodes_spec c cols nid node_rows Hnd Hrows) as [Hn Ha].
  assert (Hko : forall u v,
             Nx.keys_of (Nx.g_adj (build_nodes c nid node_rows)) u v = [])
    by (intros; rewrite Ha; apply keys_of_isolated).
  split; [constructor | exact Hko].
  - rewrite Ha, Hn. apply isolated_keys.
  - rewrite Hn. unfold node_dict_of_rows, dict_of_items.
    apply (dict_update_NoDup value_eqb_spec). constructor.
  - intros _ u v. now rewrite !Hko.
  - intros u v. now rewrite Hko.
  - intros _ u v. rewrite Hko. simpl. lia.
Qed.

(** *** Counting the edges *)

(** The number of edges that the iteration reports for one neighbour. *)
Definition kd_weight (directed : bool) (seen : list value)
           (nk : value * Nx.keydict) : nat :=
  if directed || negb (val_in (fst nk) seen) then List.length (snd nk) else 0.

Definition inner_count (directed : bool) (seen : list value) (nbrs : Nx.nbrdict)
  : nat :=
  list_sum (map (kd_weight directed seen) nbrs).

Fixpoint adj_count (directed : bool) (seen : list value) (adj : Nx.adjdict)
  : nat :=
  match adj with
  | [] => 0
  | (n, nbrs) :: rest =>
      inner_count directed seen nbrs + adj_count directed (n :: seen) rest
  end.

Lemma edges_from_length (directed : bool) (seen : list value) (adj : Nx.adjdict) :
  List.length (Nx.edges_from directed seen adj) = adj_count directed seen adj.
Proof.
  revert seen. induction adj as [|[n nbrs] rest IH]; intros seen; [reflexivity|].
  simpl. rewrite length_app, IH. f_equal.
  rewrite length_flat_map. unfold inner_count. f_equal.
  apply map_ext. intros [nbr kd]. unfold kd_weight. simpl.
  destruct (directed || negb (val_in nbr seen)); [apply length_map | reflexivity].
Qed.

(** The nodes whose turn has come when the iteration reaches [u]. *)
Fixpoint seen_before (seen : list value) (keys : list value) (u : value)
  : list value :=
  match keys with
  | [] => seen
  | n :: rest => if value_eqb u n then seen else seen_before (n :: seen) rest u
  end.

Lemma seen_before_mono (seen keys : list value) (u x : value) :
  In x seen -> In x (seen_before seen keys u).
Proof.
  revert seen. induction keys as [|n rest IH]; intros seen H; [exact H|].
  simpl. destruct (value_eqb u n); [exact H|]. apply IH. now right.
Qed.

Lemma seen_before_In (seen keys : list value) (u x : value) :
  In x (seen_before seen keys u) -> In x seen \/ x <> u.
Proof.
  revert seen. induction keys as [|n rest IH]; intros seen H; [now left|].
  simpl in H. destruct (value_eqb_spec u n) as [->|Hne]; [now left|].
  apply IH in H as [[<-|H]|H]; [right; congruence | now left | now right].
Qed.

Lemma seen_before_self (keys : list value) (u : value) :
  val_in u (seen_before [] keys u) = false.
Proof.
  apply val_in_false. intros H. apply seen_before_In in H as [[]|H]. congruence.
Qed.

Lemma seen_before_xor (keys : list value) (u v : value) :
  In u keys -> In v keys -> u <> v ->
  forall seen, ~ In u seen -> ~ In v seen ->
  (val_in v (seen_before seen keys u) = true
   /\ val_in u (seen_before seen keys v) = false)
  \/ (val_in v (seen_before seen keys u) = false
      /\ val_in u (seen_before seen keys v) = true).
Proof.
  intros Hu Hv Hne. induction keys as [|n rest IH]; [destruct Hu|].
  intros seen Hus Hvs. simpl.
  destruct (value_eqb_spec u n) as [->|Hun].
  - destruct (value_eqb_spec v n) as [->|Hvn]; [congruence|].
    right. split; [now apply val_in_false|].
    apply val_in_spec, seen_before_mono. now left.
  - destruct (value_eqb_spec v n) as [->|Hvn].
    + left. split; [|now apply val_in_false].
      apply val_in_spec, seen_before_mono. now left.
    + destruct Hu as [Hu|Hu]; [congruence|].
      destruct Hv as [Hv|Hv]; [congruence|].
      apply IH; try assumption; intros [E|H]; congruence.
Qed.

Lemma inner_count_set (directed : bool) (seen : list value) (v : value)
      (kd' : Nx.keydict) (nbrs : Nx.nbrdict) :
  inner_count directed seen (dict_set value_eqb v kd' nbrs)
  + kd_weight directed seen
              (v, match dict_get value_eqb v nbrs with
                  | Some kd => kd
                  | None => []
                  end)
  = inner_count directed seen nbrs + kd_weight directed seen (v, kd').
Proof.
  unfold inner_count. induction nbrs as [|[k x] nbrs IH]; simpl.
  - unfold kd_weight. simpl.
    destruct (directed || negb (val_in v seen)); simpl; lia.
  - destruct (value_eqb_spec v k) as [->|Hne]; simpl.
    + unfold kd_weight. simpl. lia.
    + lia.
Qed.

Lemma adj_count_set (directed : bool) (adj : Nx.adjdict) (u v : value)
      (kd' : Nx.keydict) :
  In u (dict_keys adj) ->
  forall seen,
    adj_count directed seen (Nx.adj_set adj u v kd')
    + kd_weight directed (seen_before seen (dict_keys adj) u)
                (v, Nx.keys_of adj u v)
    = adj_count directed seen adj
      + kd_weight directed (seen_before seen (dict_keys adj) u) (v, kd').
Proof.
  induction adj as [|[n nbrs] rest IH]; intros Hu seen; [destruct Hu|].
  unfold Nx.adj_set, Nx.keys_of, Nx.nbrs_of. simpl.
  destruct (value_eqb_spec u n) as [->|Hne]; simpl.
  - pose proof (inner_count_set directed seen v kd' nbrs). lia.
  - destruct Hu as [Hu|Hu]; [simpl in Hu; congruence|].
    specialize (IH Hu (n :: seen)).
    unfold Nx.adj_set, Nx.keys_of, Nx.nbrs_of in IH. lia.
Qed.

Lemma kd_weight_directed (seen : list value) (v : value) (kd : Nx.keydict) :
  kd_weight true seen (v, kd) = List.length kd.
Proof. reflexivity. Qed.

Lemma kd_weight_undirected (seen : list value) (v : value) (kd : Nx.keydict) :
  kd_weight false seen (v, kd)
  = if val_in v seen then 0 else List.length kd.
Proof. unfold kd_weight. simpl. now destruct (val_in v seen). Qed.

(** Setting the edges of a pair changes the number of reported edges by
    the change in the number of the edges of the pair, in an undirected
    graph as well, where the pair is stored twice and reported once. *)
Lemma edges_data_set_edge (g : Nx.graph) (u v k : value) (a : attrs) :
  graph_inv g ->
  In u (dict_keys (Nx.g_adj g)) -> In v (dict_keys (Nx.g_adj g)) ->
  List.length (Nx.edges_data (Nx.set_edge g u v k a))
  + List.length (Nx.keys_of (Nx.g_adj g) u v)
  = List.length (Nx.edges_data g)
    + List.length (Nx.keys_of (Nx.g_adj (Nx.set_edge g u v k a)) u v).
Proof.
  intros Hinv Hu Hv.
  rewrite keys_of_set_edge, same_pair_refl.
  unfold Nx.edges_data. rewrite !edges_from_length.
  unfold Nx.set_edge. simpl.
  set (kd' := dict_set value_eqb k _ _).
  destruct (Nx.is_directed (Nx.g_class g)) eqn:Hd.
  - pose proof (adj_count_set true (Nx.g_adj g) u v kd' Hu []) as H.
    rewrite !kd_weight_directed in H. exact H.
  - pose proof (adj_count_set false (Nx.g_adj g) u v kd' Hu []) as H1.
    assert (Hv1 : In v (dict_keys (Nx.adj_set (Nx.g_adj g) u v kd')))
      by (now rewrite adj_set_keys).
    pose proof (adj_count_set false (Nx.adj_set (Nx.g_adj g) u v kd')
                              v u kd' Hv1 []) as H2.
    rewrite adj_set_keys in H2 by exact Hu.
    rewrite keys_of_adj_set in H2.
    rewrite !kd_weight_undirected in H1, H2.
    destruct (value_eqb_spec v u) as [->|Hne].
    + rewrite value_eqb_refl in H2. simpl in H2.
      rewrite seen_before_self in H1, H2. lia.
    + simpl in H2. rewrite <- (inv_sym g Hinv Hd u v) in H2.
      destruct (seen_before_xor (dict_keys (Nx.g_adj g)) u v Hu Hv
                                (fun E => Hne (eq_sym E)) [])
        as [[E1 E2]|[E1 E2]]; try (intros []);
        rewrite E1 in H1; rewrite E2 in H2; lia.
Qed.

Lemma edges_from_snoc_empty (directed : bool) (adj : Nx.adjdict) (n : value) :
  forall seen,
    Nx.edges_from directed seen (adj ++ [(n, [])])
    = Nx.edges_from directed seen adj.
Proof.
  induction adj as [|[m nbrs] rest IH]; intros seen; simpl; [reflexivity|].
  now rewrite IH.
Qed.

Lemma ensure_node_edges_data (g : Nx.graph) (n : value) :
  dict_keys (Nx.g_adj g) = dict_keys (Nx.g_node g) ->
  Nx.edges_data (Nx.ensure_node g n) = Nx.edges_data g.
Proof.
  intros Hk. unfold Nx.edges_data. rewrite ensure_node_class.
  unfold Nx.ensure_node. destruct (Nx.has_node g n) eqn:Hn; [reflexivity|].
  simpl. apply has_node_false in Hn. rewrite <- Hk in Hn.
  rewrite (dict_set_keys_absent value_eqb_spec) by exact Hn.
  apply edges_from_snoc_empty.
Qed.

(** The pair fold: the edges of the pair [(x, y)] after [rows], starting
    from the edges [kd]. *)
Definition pair_edges (directed multi : bool) (src tgt : string)
           (x y : value) (rows : list series) (kd : Nx.keydict) : Nx.keydict :=
  fold_left (fun kd r =>
               if same_pair directed x y (cell r src) (cell r tgt)
               then keys_after_row multi kd r
               else kd)
            rows kd.

Definition build_edges (src tgt : string) (rows : list series) (g : Nx.graph)
  : Nx.graph :=
  fold_left (add_edge_row src tgt) rows g.

Lemma same_pair_keys_of (g : Nx.graph) (x y u v : value) :
  graph_inv g ->
  same_pair (Nx.is_directed (Nx.g_class g)) x y u v = true ->
  Nx.keys_of (Nx.g_adj g) u v = Nx.keys_of (Nx.g_adj g) x y.
Proof.
  intros Hinv. unfold same_pair.
  rewrite orb_true_iff, !andb_true_iff, !value_eqb_eq, negb_true_iff.
  intros [[-> ->]|[Hd [-> ->]]]; [reflexivity|]. now apply (inv_sym g Hinv).
Qed.

Lemma build_edges_spec (cols : list string) (src tgt : string)
      (rows : list series) (g : Nx.graph) :
  NoDup cols -> (forall r, In r rows -> dict_keys r = cols) ->
  graph_inv g -> edge_attrs_inv cols g ->
  graph_inv (build_edges src tgt rows g)
  /\ edge_attrs_inv cols (build_edges src tgt rows g)
  /\ Nx.g_class (build_edges src tgt rows g) = Nx.g_class g
  /\ forall x y,
      Nx.keys_of (Nx.g_adj (build_edges src tgt rows g)) x y
      = pair_edges (Nx.is_directed (Nx.g_class g))
                   (Nx.is_multigraph (Nx.g_class g)) src tgt x y rows
                   (Nx.keys_of (Nx.g_adj g) x y).
Proof.
  intros Hnd. revert g. unfold build_edges, pair_edges.
  induction rows as [|r rows IH]; intros g Hrows Hinv Hattrs; [now auto|].
  simpl fold_left.
  assert (Hr : dict_keys r = cols) by (apply Hrows; now left).
  destruct (add_edge_row_inv cols src tgt g r Hinv Hattrs Hnd Hr) as [Hinv' Hattrs'].
  destruct (IH (add_edge_row src tgt g r)) as (I1 & I2 & I3 & I4);
    try assumption; [intros r' Hr'; apply Hrows; now right|].
  rewrite add_edge_row_class in I3, I4.
  split; [exact I1 | split; [exact I2 | split; [exact I3|]]].
  intros x y. rewrite I4. f_equal.
  rewrite (add_edge_row_keys_of cols src tgt g r x y Hinv Hattrs Hnd Hr).
  destruct (same_pair _ x y _ _) eqn:E; [|reflexivity].
  now rewrite (same_pair_keys_of g x y _ _ Hinv E).
Qed.

Lemma add_edge_row_count (cols : list string) (src tgt : string)
      (g : Nx.graph) (r : series) :
  graph_inv g -> edge_attrs_inv cols g -> NoDup cols -> dict_keys r = cols ->
  List.length (Nx.edges_data (add_edge_row src tgt g r))
  + List.length (Nx.keys_of (Nx.g_adj g) (cell r src) (cell r tgt))
  = List.length (Nx.edges_data g)
    + List.length
        (keys_after_row (Nx.is_multigraph (Nx.g_class g))
                        (Nx.keys_of (Nx.g_adj g) (cell r src) (cell r tgt)) r).
Proof.
  intros Hinv Hattrs Hnd Hr.
  pose proof (add_edge_row_keys_of cols src tgt g r (cell r src) (cell r tgt)
                                   Hinv Hattrs Hnd Hr) as Hko.
  rewrite same_pair_refl in Hko. rewrite <- Hko. clear Hko.
  set (u := cell r src). set (v := cell r tgt).
  set (g1 := Nx.ensure_node (Nx.ensure_node g u) v).
  assert (Hinv0 : graph_inv (Nx.ensure_node g u)) by now apply ensure_node_inv.
  assert (Hinv1 : graph_inv g1) by (subst g1; now apply ensure_node_inv).
  assert (Hu : In u (dict_keys (Nx.g_adj g1))).
  { rewrite (inv_keys g1 Hinv1). subst g1.
    apply ensure_node_keeps, ensure_node_has. }
  assert (Hv : In v (dict_keys (Nx.g_adj g1))).
  { rewrite (inv_keys g1 Hinv1). subst g1. apply ensure_node_has. }
  assert (Hed : Nx.edges_data g1 = Nx.edges_data g).
  { subst g1. rewrite ensure_node_edges_data by apply Hinv0.
    apply ensure_node_edges_data, Hinv. }
  assert (Hko : Nx.keys_of (Nx.g_adj g1) u v = Nx.keys_of (Nx.g_adj g) u v).
  { subst g1. rewrite ensure_node_keys_of by apply Hinv0.
    apply ensure_node_keys_of, Hinv. }
  rewrite <- Hed, <- Hko.
  unfold add_edge_row, Nx.add_edge_multi, Nx.add_edge_simple. fold u v g1.
  destruct (Nx.is_multigraph (Nx.g_class g));
    now apply edges_data_set_edge.
Qed.

(** Row [r] and row [r'] join the same pair of nodes. *)
Definition matches (directed : bool) (src tgt : string) (r r' : series) : bool :=
  same_pair directed (cell r src) (cell r tgt) (cell r' src) (cell r' tgt).

(** The number of rows that join a pair that no earlier row joins: the
    number of distinct end-point pairs. *)
Fixpoint merged_count (directed : bool) (src tgt : string)
         (earlier rows : list series) : nat :=
  match rows with
  | [] => 0
  | r :: rest =>
      (if existsb (matches directed src tgt r) earlier then 0 else 1)
      + merged_count directed src tgt (r :: earlier) rest
  end.

(** No two rows join the same pair. *)
Fixpoint no_repeated_pair (directed : bool) (src tgt : string)
         (rows : list series) : bool :=
  match rows with
  | [] => true
  | r :: rest =>
      negb (existsb (matches directed src tgt r) rest)
      && no_repeated_pair directed src tgt rest
  end.

Lemma keys_after_row_nonempty (multi : bool) (kd : Nx.keydict) (r : attrs) :
  keys_after_row multi kd r <> [].
Proof.
  unfold keys_after_row. destruct multi; [|discriminate].
  destruct kd; discriminate.
Qed.

Lemma build_edges_count (cols : list string) (src tgt : string)
      (rows : list series) :
  NoDup cols -> (forall r, In r rows -> dict_keys r = cols) ->
  forall (earlier : list series) (g : Nx.graph),
    graph_inv g -> edge_attrs_inv cols g ->
    (forall x y,
        Nx.keys_of (Nx.g_adj g) x y = []
        <-> existsb (fun r' => same_pair (Nx.is_directed (Nx.g_class g)) x y
                                         (cell r' src) (cell r' tgt))
                    earlier = false) ->
    List.length (Nx.edges_data (build_edges src tgt rows g))
    = List.length (Nx.edges_data g)
      + (if Nx.is_multigraph (Nx.g_class g) then List.length rows
         else merged_count (Nx.is_directed (Nx.g_class g)) src tgt earlier rows).
Proof.
  intros Hnd. unfold build_edges.
  induction rows as [|r rows IH]; intros Hrows earlier g Hinv Hattrs Hnil.
  - simpl. destruct (Nx.is_multigraph (Nx.g_class g)); lia.
  - simpl fold_left.
    assert (Hr : dict_keys r = cols) by (apply Hrows; now left).
    destruct (add_edge_row_inv cols src tgt g r Hinv Hattrs Hnd Hr)
      as [Hinv' Hattrs'].
    pose proof (add_edge_row_count cols src tgt g r Hinv Hattrs Hnd Hr) as Hc.
    rewrite (IH (fun r' H => Hrows r' (or_intror H)) (r :: earlier)
                (add_edge_row src tgt g r) Hinv' Hattrs').
    + rewrite add_edge_row_class. simpl merged_count. simpl List.length.
      unfold keys_after_row in Hc.
      destruct (Nx.is_multigraph (Nx.g_class g)) eqn:Hm.
      * rewrite length_app in Hc. simpl in Hc. lia.
      * simpl in Hc. unfold matches.
        pose proof (inv_simple g Hinv Hm (cell r src) (cell r tgt)) as Hle.
        specialize (Hnil (cell r src) (cell r tgt)).
        destruct (existsb _ earlier).
        -- destruct (Nx.keys_of (Nx.g_adj g) (cell r src) (cell r tgt)) eqn:E.
           ++ destruct Hnil as [Hn _]. specialize (Hn eq_refl). discriminate.
           ++ simpl in *. lia.
        -- destruct Hnil as [_ Hn]. rewrite (Hn eq_refl) in Hc. simpl in Hc. lia.
    + intros x y. rewrite add_edge_row_class.
      rewrite (add_edge_row_keys_of cols src tgt g r x y Hinv Hattrs Hnd Hr).
      simpl existsb.
      destruct (same_pair _ x y (cell r src) (cell r tgt)); simpl.
      * split; [intros H; now apply keys_after_row_nonempty in H | discriminate].
      * apply Hnil.
Qed.

Lemma same_pair_sym (directed : bool) (x y u v : value) :
  same_pair directed x y u v = same_pair directed u v x y.
Proof.
  unfold same_pair.
  rewrite (value_eqb_sym x u), (value_eqb_sym y v),
          (value_eqb_sym x v), (value_eqb_sym y u).
  destruct directed, (value_eqb u x), (value_eqb v y),
           (value_eqb v x), (value_eqb u y); reflexivity.
Qed.

Lemma merged_count_le (directed : bool) (src tgt : string)
      (rows earlier : list series) :
  merged_count directed src tgt earlier rows <= List.length rows.
Proof.
  revert earlier. induction rows as [|r rows IH]; intros earlier; simpl; [lia|].
  specialize (IH (r :: earlier)).
  destruct (existsb _ earlier); lia.
Qed.

Lemma existsb_false {A : Type} (f : A -> bool) (l : list A) :
  existsb f l = false <-> forall x, In x l -> f x = false.
Proof.
  induction l as [|a l IH]; simpl.
  - split; [intros _ x [] | reflexivity].
  - rewrite orb_false_iff, IH. split.
    + intros [Ha Hl] x [<-|Hx]; [exact Ha | now apply Hl].
    + intros H. split; [apply H; now left | intros x Hx; apply H; now right].
Qed.

Lemma matches_sym (directed : bool) (src tgt : string) (r r' : series) :
  matches directed src tgt r r' = matches directed src tgt r' r.
Proof. unfold matches. apply same_pair_sym. Qed.

(** Without a repeated pair every row counts. *)
Lemma merged_count_distinct (directed : bool) (src tgt : string)
      (rows earlier : list series) :
  no_repeated_pair directed src tgt rows = true ->
  (forall r, In r rows -> existsb (matches directed src tgt r) earlier = false) ->
  merged_count directed src tgt earlier rows = List.length rows.
Proof.
  revert earlier. induction rows as [|r rows IH]; intros earlier Hd He;
    simpl; [reflexivity|].
  simpl in Hd. apply andb_true_iff in Hd as [Hr Hd].
  apply negb_true_iff in Hr.
  rewrite (He r (or_introl eq_refl)). rewrite IH; [reflexivity | exact Hd |].
  intros r' Hr'. simpl. rewrite (He r' (or_intror Hr')), orb_false_r.
  rewrite matches_sym. revert r' Hr'. now apply existsb_false.
Qed.

Lemma merged_count_hit (directed : bool) (src tgt : string)
      (rows earlier : list series) :
  (exists r, In r rows /\ existsb (matches directed src tgt r) earlier = true) ->
  merged_count directed src tgt earlier rows < List.length rows.
Proof.
  revert earlier. induction rows as [|a rows IH]; intros earlier [r [Hin Hr]];
    [destruct Hin|].
  simpl. destruct Hin as [->|Hin].
  - rewrite Hr.
    pose proof (merged_count_le directed src tgt rows (r :: earlier)). lia.
  - assert (H : merged_count directed src tgt (a :: earlier) rows
                < List.length rows).
    { apply IH. exists r. split; [exact Hin|]. simpl. now rewrite Hr, orb_true_r. }
    destruct (existsb (matches directed src tgt a) earlier); lia.
Qed.

(** With a repeated pair some row does not count. *)
Lemma merged_count_repeated (directed : bool) (src tgt : string)
      (rows earlier : list series) :
  no_repeated_pair directed src tgt rows = false ->
  merged_count directed src tgt earlier rows < List.length rows.
Proof.
  revert earlier. induction rows as [|r rows IH]; intros earlier Hd;
    simpl in *; [discriminate|].
  apply andb_false_iff in Hd as [Hr|Hd].
  - apply negb_false_iff, existsb_exists in Hr as [r' [Hin Hm]].
    assert (H : merged_count directed src tgt (r :: earlier) rows
                < List.length rows).
    { apply merged_count_hit. exists r'. split; [exact Hin|].
      simpl. now rewrite matches_sym, Hm. }
    destruct (existsb _ earlier); lia.
  - specialize (IH (r :: earlier) Hd). destruct (existsb _ earlier); lia.
Qed.

(** *** The graph object of a materializable graph *)

Lemma build_edges_node_get (src tgt : string) (rows : list series)
      (g : Nx.graph) (n : value) (a : attrs) :
  dict_get value_eqb n (Nx.g_node g) = Some a ->
  dict_get value_eqb n (Nx.g_node (build_edges src tgt rows g)) = Some a.
Proof.
  revert g. unfold build_edges.
  induction rows as [|r rows IH]; intros g H; [exact H|].
  simpl. apply IH. rewrite add_edge_row_node. now do 2 apply ensure_node_get.
Qed.

Lemma ensure_node_present (g : Nx.graph) (n : value) :
  In n (dict_keys (Nx.g_node g)) -> Nx.ensure_node g n = g.
Proof.
  intros H. unfold Nx.ensure_node. now apply has_node_spec in H as ->.
Qed.

(** When every end point is a node already, adding the edges adds no node. *)
Lemma build_edges_node_covered (src tgt : string) (rows : list series)
      (g : Nx.graph) :
  (forall r, In r rows ->
             In (cell r src) (dict_keys (Nx.g_node g))
             /\ In (cell r tgt) (dict_keys (Nx.g_node g))) ->
  Nx.g_node (build_edges src tgt rows g) = Nx.g_node g.
Proof.
  revert g. unfold build_edges.
  induction rows as [|r rows IH]; intros g H; [reflexivity|].
  simpl.
  assert (E : Nx.g_node (add_edge_row src tgt g r) = Nx.g_node g).
  { rewrite add_edge_row_node.
    destruct (H r (or_introl eq_refl)) as [Hu Hv].
    rewrite (ensure_node_present g _ Hu). now rewrite (ensure_node_present g _ Hv). }
  rewrite IH; [exact E|].
  intros r' Hr'. rewrite E. apply H. now right.
Qed.

Lemma int_keys_NoDup (n : nat) : NoDup (int_keys n).
Proof.
  induction n as [|n IH]; [constructor|].
  rewrite int_keys_S.
  apply NoDup_app; [exact IH | repeat constructor; intros [] |].
  intros x Hx [E|[]]. subst x. exact (int_keys_fresh n Hx).
Qed.

Lemma pair_edges_app (directed multi : bool) (src tgt : string) (x y : value)
      (l1 l2 : list series) (kd : Nx.keydict) :
  pair_edges directed multi src tgt x y (l1 ++ l2) kd
  = pair_edges directed multi src tgt x y l2
               (pair_edges directed multi src tgt x y l1 kd).
Proof. unfold pair_edges. apply fold_left_app. Qed.

Lemma pair_edges_multi_prefix (directed : bool) (src tgt : string) (x y : value)
      (rows : list series) (kd : Nx.keydict) :
  exists extra, pair_edges directed true src tgt x y rows kd = kd ++ extra.
Proof.
  revert kd. unfold pair_edges.
  induction rows as [|r rows IH]; intros kd; [exists []; now rewrite app_nil_r|].
  cbn [fold_left]. destruct (same_pair directed x y _ _).
  - destruct (IH (keys_after_row true kd r)) as [extra ->].
    unfold keys_after_row. rewrite <- app_assoc. now eexists.
  - apply IH.
Qed.

Lemma pair_edges_no_match (directed multi : bool) (src tgt : string) (x y : value)
      (rows : list series) (kd : Nx.keydict) :
  (forall r, In r rows ->
             same_pair directed x y (cell r src) (cell r tgt) = false) ->
  pair_edges directed multi src tgt x y rows kd = kd.
Proof.
  revert kd. unfold pair_edges.
  induction rows as [|r rows IH]; intros kd H; [reflexivity|].
  cbn [fold_left]. rewrite (H r (or_introl eq_refl)). apply IH.
  intros r' Hr'. apply H. now right.
Qed.

Lemma pair_edges_nonempty (directed multi : bool) (src tgt : string) (x y : value)
      (rows : list series) (kd : Nx.keydict) :
  kd <> [] -> pair_edges directed multi src tgt x y rows kd <> [].
Proof.
  revert kd. unfold pair_edges.
  induction rows as [|r rows IH]; intros kd H; [exact H|].
  cbn [fold_left]. destruct (same_pair directed x y _ _); apply IH; [|exact H].
  apply keys_after_row_nonempty.
Qed.

Lemma edges_from_isolated (directed : bool) (node : list (value * attrs)) :
  forall seen, Nx.edges_from directed seen (isolated node) = [].
Proof.
  induction node as [|[n a] l IH]; intros seen; [reflexivity|].
  simpl. apply IH.
Qed.

(** The graph that a materializable graph is turned into. *)
Lemma build_graph_spec (T : NetworkGraph.t) :
  materializable T = true ->
  let c := graph_class_of (NetworkGraph.graph_type T) in
  let g := build_graph T in
  graph_inv g
  /\ edge_attrs_inv (column_names (NetworkGraph.edges T)) g
  /\ Nx.g_class g = c
  /\ (forall n a,
         dict_get value_eqb n
                  (node_dict_of_rows (NetworkGraph.node_id_column_name T)
                                     (iterrows (NetworkGraph.nodes T))) = Some a ->
         dict_get value_eqb n (Nx.g_node g) = Some a)
  /\ (forall x y,
         Nx.keys_of (Nx.g_adj g) x y
         = pair_edges (Nx.is_directed c) (Nx.is_multigraph c)
                      (NetworkGraph.source_column_name T)
                      (NetworkGraph.target_column_name T) x y
                      (iterrows (NetworkGraph.edges T)) [])
  /\ List.length (Nx.edges_data g)
     = if Nx.is_multigraph c then NetworkGraph.num_edges T
       else merged_count (Nx.is_directed c)
                         (NetworkGraph.source_column_name T)
                         (NetworkGraph.target_column_name T)
                         [] (iterrows (NetworkGraph.edges T)).
Proof.
  intros HM c g. destruct (materializable_spec T HM)
    as (Hwn & Hwe & Hnid & Hsrc & Htgt & Hkn & Hke).
  pose proof (wf_table_NoDup _ Hwn) as Hndn.
  pose proof (wf_table_NoDup _ Hwe) as Hnde.
  pose proof (fun r => iterrows_keys (NetworkGraph.nodes T) r Hwn) as Hrn.
  pose proof (fun r => iterrows_keys (NetworkGraph.edges T) r Hwe) as Hre.
  set (g0 := build_nodes c (NetworkGraph.node_id_column_name T)
                         (iterrows (NetworkGraph.nodes T))).
  destruct (build_nodes_spec c _ (NetworkGraph.node_id_column_name T) _ Hndn Hrn)
    as [Hn0 Ha0].
  destruct (build_nodes_inv c _ (NetworkGraph.node_id_column_name T) _ Hndn Hrn)
    as [Hinv0 Hko0].
  fold g0 in Hn0, Ha0, Hinv0, Hko0.
  assert (Hc0 : Nx.g_class g0 = c) by apply build_nodes_class.
  assert (Hat0 : edge_attrs_inv (column_names (NetworkGraph.edges T)) g0).
  { intros u v k a. rewrite Hko0. intros []. }
  destruct (build_edges_spec _ (NetworkGraph.source_column_name T)
                             (NetworkGraph.target_column_name T)
                             (iterrows (NetworkGraph.edges T)) g0
                             Hnde Hre Hinv0 Hat0) as (I1 & I2 & I3 & I4).
  change (build_edges (NetworkGraph.source_column_name T)
                      (NetworkGraph.target_column_name T)
                      (iterrows (NetworkGraph.edges T)) g0) with g in *.
  rewrite Hc0 in I3, I4.
  split; [exact I1 | split; [exact I2 | split; [exact I3 | split; [|split]]]].
  - intros n a H. rewrite <- Hn0 in H.
    exact (build_edges_node_get _ _ _ g0 n a H).
  - intros x y. now rewrite I4, Hko0.
  - pose proof (build_edges_count _ (NetworkGraph.source_column_name T)
                                  (NetworkGraph.target_column_name T)
                                  (iterrows (NetworkGraph.edges T))
                                  Hnde Hre [] g0 Hinv0 Hat0) as Hcnt.
    change (build_edges (NetworkGraph.source_column_name T)
                        (NetworkGraph.target_column_name T)
                        (iterrows (NetworkGraph.edges T)) g0) with g in Hcnt.
    rewrite Hc0 in Hcnt. rewrite Hcnt.
    + assert (E0 : Nx.edges_data g0 = []).
      { unfold Nx.edges_data. rewrite Ha0. apply edges_from_isolated. }
      rewrite E0. simpl. unfold NetworkGraph.num_edges, num_rows, iterrows.
      now rewrite length_map.
    + intros x y. rewrite Hko0. simpl. tauto.
Qed.

(** ** The attributes of the graph object *)

(** C4 as the specification words it: every node row has its node, whose
    attributes are the other cells of the row and do not include the
    identifier; every edge row has an edge between its end points, whose
    attributes are the other cells of the row and include neither end
    point. *)
Definition attributes_exclude_keys (T : NetworkGraph.t) : Prop :=
  exists g,
    NetworkGraph.as_networkx_graph T = Ok g
    /\ (forall row,
           In row (iterrows (NetworkGraph.nodes T)) ->
           let n := cell row (NetworkGraph.node_id_column_name T) in
           Nx.has_node g n = true
           /\ attrs_mem (NetworkGraph.node_id_column_name T) (Nx.node_attrs g n)
              = false
           /\ forall c v,
               c <> NetworkGraph.node_id_column_name T ->
               attrs_get c row = Some v ->
               attrs_get c (Nx.node_attrs g n) = Some v)
    /\ (forall row,
           In row (iterrows (NetworkGraph.edges T)) ->
           let u := cell row (NetworkGraph.source_column_name T) in
           let v := cell row (NetworkGraph.target_column_name T) in
           exists k a,
             dict_get value_eqb k (Nx.keys_of (Nx.g_adj g) u v) = Some a
             /\ attrs_mem (NetworkGraph.source_column_name T) a = false
             /\ attrs_mem (NetworkGraph.target_column_name T) a = false
             /\ forall c w,
                 c <> NetworkGraph.source_column_name T ->
                 c <> NetworkGraph.target_column_name T ->
                 attrs_get c row = Some w -> attrs_get c a = Some w).

(** Three nodes with a label, three weighted edges. *)
Definition labelled_triangle : NetworkGraph.t :=
  {| NetworkGraph.graph_type := DIRECTED;
     NetworkGraph.source_column_name := "source";
     NetworkGraph.target_column_name := "target";
     NetworkGraph.node_id_column_name := "id";
     NetworkGraph.edges :=
       {| column_names := ["source"; "target"; "weight"];
          rows := [[VStr "A"; VStr "B"; VInt 1];
                   [VStr "B"; VStr "C"; VInt 2];
                   [VStr "A"; VStr "C"; VInt 3]] |};
     NetworkGraph.nodes :=
       {| column_names := ["id"; "label"];
          rows := [[VStr "A"; VStr "first"];
                   [VStr "B"; VStr "second"];
                   [VStr "C"; VStr "third"]] |} |}.

(** The graph object of [labelled_triangle]: the identifier is among the
    attributes of each node, and the end points are among the attributes
    of each edge. *)
Example labelled_triangle_graph :
  NetworkGraph.as_networkx_graph labelled_triangle
  = Ok {| Nx.g_class := Nx.DiGraph;
          Nx.g_node :=
            [(VStr "A", [("id", VStr "A"); ("label", VStr "first")]);
             (VStr "B", [("id", VStr "B"); ("label", VStr "second")]);
             (VStr "C", [("id", VStr "C"); ("label", VStr "third")])];
          Nx.g_adj :=
            [(VStr "A",
              [(VStr "B", [(VInt 0, [("source", VStr "A"); ("target", VStr "B");
                                     ("weight", VInt 1)])]);
               (VStr "C", [(VInt 0, [("source", VStr "A"); ("target", VStr "C");
                                     ("weight", VInt 3)])])]);
             (VStr "B",
              [(VStr "C", [(VInt 0, [("source", VStr "B"); ("target", VStr "C");
                                     ("weight", VInt 2)])])]);
             (VStr "C", [])] |}.
Proof. reflexivity. Qed.


Lemma node_dict_of_rows_get (cols : list string) (nid : string)
      (pre post : list series) (row : series) :
  (forall r, In r (pre ++ row :: post) -> dict_keys r = cols) ->
  exists a,
    dict_get value_eqb (cell row nid)
             (node_dict_of_rows nid (pre ++ row :: post)) = Some a
    /\ dict_keys a = cols
    /\ ((forall r', In r' post -> cell r' nid <> cell row nid) -> a = row).
Proof.
  intros Hrows. unfold node_dict_of_rows, dict_of_items.
  set (items := map (fun r => (cell r nid, r)) (pre ++ row :: post)).
  destruct (dict_get value_eqb (cell row nid) (dict_update value_eqb [] items))
    as [a|] eqn:E.
  - exists a. split; [reflexivity|]. split.
    + apply (dict_update_get_In value_eqb_spec) in E as [E|E]; [|discriminate].
      apply in_map_iff in E as [r [[= _ <-] Hr]]. now apply Hrows.
    + intros Hlast. subst items. rewrite map_app in E. simpl in E.
      rewrite (dict_update_get_last value_eqb_spec) in E; [congruence|].
      unfold dict_keys. rewrite map_map. simpl.
      intros Hin. apply in_map_iff in Hin as [r' [Hr' Hin]].
      exact (Hlast r' Hin Hr').
  - exfalso. apply (dict_get_None value_eqb_spec) in E. apply E.
    apply (dict_update_keys_In value_eqb_spec). right.
    subst items. unfold dict_keys. rewrite map_map. simpl.
    apply in_map_iff. exists row. split; [reflexivity|].
    apply in_or_app. right. now left.
Qed.



(** *** The length of the edge views *)

(** In a simple graph every neighbour entry holds exactly one edge. *)
Definition stored_singletons (adj : Nx.adjdict) : Prop :=
  forall n nbrs, In (n, nbrs) adj ->
  forall nbr kd, In (nbr, kd) nbrs -> List.length kd = 1.

Lemma nbrs_of_In (adj : Nx.adjdict) (u nbr : value) (kd : Nx.keydict) :
  In (nbr, kd) (Nx.nbrs_of adj u) -> exists nbrs, In (u, nbrs) adj /\ In (nbr, kd) nbrs.
Proof.
  unfold Nx.nbrs_of. destruct (dict_get value_eqb u adj) as [m|] eqn:E; [|intros []].
  intros H. exists m. split; [|exact H]. now apply (dict_get_In value_eqb_spec).
Qed.

Lemma singleton_mem (adj : Nx.adjdict) (u v : value) :
  stored_singletons adj ->
  List.length (Nx.keys_of adj u v)
  = if dict_mem value_eqb v (Nx.nbrs_of adj u) then 1 else 0.
Proof.
  intros Hs. unfold Nx.keys_of, dict_mem.
  destruct (dict_get value_eqb v (Nx.nbrs_of adj u)) as [kd|] eqn:E; [|reflexivity].
  apply (dict_get_In value_eqb_spec) in E.
  apply nbrs_of_In in E as [nbrs [H1 H2]]. exact (Hs _ _ H1 _ _ H2).
Qed.

Lemma adj_set_singletons (adj : Nx.adjdict) (u v : value) (kd' : Nx.keydict) :
  stored_singletons adj -> List.length kd' = 1 ->
  stored_singletons (Nx.adj_set adj u v kd').
Proof.
  intros Hs Hk n nbrs Hin nbr kd Hnbr. unfold Nx.adj_set in Hin.
  apply dict_set_In_value in Hin as [->|Hin]; [|exact (Hs _ _ Hin _ _ Hnbr)].
  apply dict_set_In_value in Hnbr as [->|Hnbr]; [exact Hk|].
  apply nbrs_of_In in Hnbr as [nbrs [H1 H2]]. exact (Hs _ _ H1 _ _ H2).
Qed.

Lemma ensure_node_singletons (g : Nx.graph) (n : value) :
  dict_keys (Nx.g_adj g) = dict_keys (Nx.g_node g) ->
  stored_singletons (Nx.g_adj g) ->
  stored_singletons (Nx.g_adj (Nx.ensure_node g n)).
Proof.
  intros Hk Hs. unfold Nx.ensure_node.
  destruct (Nx.has_node g n) eqn:Hn; [exact Hs|]. simpl.
  apply has_node_false in Hn. rewrite <- Hk in Hn.
  rewrite (dict_set_keys_absent value_eqb_spec) by exact Hn.
  intros m nbrs Hin nbr kd Hnbr.
  apply in_app_or in Hin as [Hin|[[= _ <-]|[]]]; [|destruct Hnbr].
  exact (Hs _ _ Hin _ _ Hnbr).
Qed.

Lemma list_sum_dict_set {V : Type} (f : value * V -> nat) (k : value)
      (v old : V) (d : list (value * V)) :
  dict_get value_eqb k d = Some old ->
  list_sum (map f (dict_set value_eqb k v d)) + f (k, old)
  = list_sum (map f d) + f (k, v).
Proof.
  induction d as [|[k' v'] d IH]; simpl; [discriminate|].
  destruct (value_eqb_spec k k') as [->|Hne]; simpl.
  - intros [= ->]. lia.
  - intros H. specialize (IH H). lia.
Qed.

Lemma list_sum_snoc (l : list nat) (x : nat) : list_sum (l ++ [x]) = list_sum l + x.
Proof. rewrite list_sum_app. simpl. lia. Qed.

Lemma dict_set_length (v : value) (kd' : Nx.keydict) (nbrs : Nx.nbrdict) :
  List.length (dict_set value_eqb v kd' nbrs)
  = List.length nbrs + (if dict_mem value_eqb v nbrs then 0 else 1).
Proof.
  destruct (dict_mem value_eqb v nbrs) eqn:E.
  - apply (dict_mem_spec value_eqb_spec) in E.
    rewrite (dict_set_length_present value_eqb_spec) by exact E. lia.
  - apply (dict_mem_false value_eqb_spec) in E.
    rewrite (dict_set_length_absent value_eqb_spec) by exact E. lia.
Qed.

Lemma dict_mem_set (u v : value) (kd' : Nx.keydict) (nbrs : Nx.nbrdict) :
  dict_mem value_eqb u (dict_set value_eqb v kd' nbrs)
  = value_eqb u v || dict_mem value_eqb u nbrs.
Proof.
  unfold dict_mem. destruct (value_eqb_spec u v) as [->|Hne].
  - now rewrite (dict_get_set_same value_eqb_spec).
  - now rewrite (dict_get_set_other value_eqb_spec) by exact Hne.
Qed.

(** [len] of the edge view of a [DiGraph] and twice that of a [Graph]. *)
Definition out_degree_sum (adj : Nx.adjdict) : nat :=
  list_sum (map (fun nn : value * Nx.nbrdict => List.length (snd nn)) adj).

Definition degree_sum (adj : Nx.adjdict) : nat :=
  list_sum (map (fun nn : value * Nx.nbrdict =>
                   List.length (snd nn)
                   + (if dict_mem value_eqb (fst nn) (snd nn) then 1 else 0))
                adj).

Lemma nbrs_of_present (adj : Nx.adjdict) (u : value) :
  In u (dict_keys adj) -> dict_get value_eqb u adj = Some (Nx.nbrs_of adj u).
Proof.
  intros H. unfold Nx.nbrs_of.
  destruct (dict_get value_eqb u adj) eqn:E; [reflexivity|].
  apply (dict_get_None value_eqb_spec) in E. contradiction.
Qed.

Lemma out_degree_sum_adj_set (adj : Nx.adjdict) (u v : value) (kd' : Nx.keydict) :
  In u (dict_keys adj) -> stored_singletons adj ->
  out_degree_sum (Nx.adj_set adj u v kd') + List.length (Nx.keys_of adj u v)
  = out_degree_sum adj + 1.
Proof.
  intros Hu Hs. unfold out_degree_sum, Nx.adj_set.
  pose proof (list_sum_dict_set
                (fun nn : value * Nx.nbrdict => List.length (snd nn))
                u (dict_set value_eqb v kd' (Nx.nbrs_of adj u))
                (Nx.nbrs_of adj u) adj (nbrs_of_present adj u Hu)) as H.
  simpl in H. rewrite dict_set_length in H.
  rewrite (singleton_mem adj u v Hs).
  unfold Nx.adjdict, Nx.nbrdict, Nx.keydict, dict in *. revert H.
  match goal with |- context [if ?b then 0 else 1] => destruct b end; lia.
Qed.

Lemma degree_sum_adj_set (adj : Nx.adjdict) (u v : value) (kd' : Nx.keydict) :
  In u (dict_keys adj) -> stored_singletons adj ->
  degree_sum (Nx.adj_set adj u v kd')
  + (if value_eqb u v then 2 else 1) * List.length (Nx.keys_of adj u v)
  = degree_sum adj + (if value_eqb u v then 2 else 1).
Proof.
  intros Hu Hs. unfold degree_sum, Nx.adj_set.
  pose proof (list_sum_dict_set
                (fun nn : value * Nx.nbrdict =>
                   List.length (snd nn)
                   + (if dict_mem value_eqb (fst nn) (snd nn) then 1 else 0))
                u (dict_set value_eqb v kd' (Nx.nbrs_of adj u))
                (Nx.nbrs_of adj u) adj (nbrs_of_present adj u Hu)) as H.
  simpl in H. rewrite dict_set_length, dict_mem_set in H.
  rewrite (singleton_mem adj u v Hs).
  unfold Nx.adjdict, Nx.nbrdict, Nx.keydict, dict in *. revert H.
  destruct (value_eqb_spec u v) as [->|Hne]; simpl;
    repeat match goal with
           | |- context [if ?b then _ else _] => destruct b
           end; lia.
Qed.

(** What the edge view of a simple graph sums, against the edges that the
    iteration reports. *)
Definition view_inv (g : Nx.graph) : Prop :=
  Nx.is_multigraph (Nx.g_class g) = false ->
  stored_singletons (Nx.g_adj g)
  /\ if Nx.is_directed (Nx.g_class g)
     then out_degree_sum (Nx.g_adj g) = List.length (Nx.edges_data g)
     else degree_sum (Nx.g_adj g) = 2 * List.length (Nx.edges_data g).

Lemma ensure_node_sums (g : Nx.graph) (n : value) :
  dict_keys (Nx.g_adj g) = dict_keys (Nx.g_node g) ->
  out_degree_sum (Nx.g_adj (Nx.ensure_node g n)) = out_degree_sum (Nx.g_adj g)
  /\ degree_sum (Nx.g_adj (Nx.ensure_node g n)) = degree_sum (Nx.g_adj g).
Proof.
  intros Hk. unfold Nx.ensure_node.
  destruct (Nx.has_node g n) eqn:Hn; [now split|]. simpl.
  apply has_node_false in Hn. rewrite <- Hk in Hn.
  rewrite (dict_set_keys_absent value_eqb_spec) by exact Hn.
  unfold out_degree_sum, degree_sum. rewrite !map_app, !list_sum_app.
  simpl. unfold Nx.adjdict, Nx.nbrdict, Nx.keydict, dict in *. split; lia.
Qed.

Lemma ensure_node_view_inv (g : Nx.graph) (n : value) :
  graph_inv g -> view_inv g -> view_inv (Nx.ensure_node g n).
Proof.
  intros Hinv Hv. unfold view_inv. rewrite ensure_node_class. intros Hm.
  destruct (Hv Hm) as [Hs Hsum].
  destruct (ensure_node_sums g n (inv_keys g Hinv)) as [E1 E2].
  rewrite E1, E2, (ensure_node_edges_data g n (inv_keys g Hinv)).
  split; [|exact Hsum]. apply ensure_node_singletons; [apply Hinv | exact Hs].
Qed.

Lemma simple_keys_after_set (kd : Nx.keydict) (dd : attrs) :
  List.length kd <= 1 -> dict_keys kd = int_keys (List.length kd) ->
  dict_set value_eqb (VInt 0) dd kd = [(VInt 0, dd)].
Proof.
  destruct kd as [|[k a] [|? ?]]; simpl; intros Hle Hk; try lia; [reflexivity|].
  injection Hk as ->. reflexivity.
Qed.

Lemma set_edge_simple_view_inv (g : Nx.graph) (u v : value) (a : attrs) :
  Nx.is_multigraph (Nx.g_class g) = false ->
  graph_inv g -> view_inv g ->
  In u (dict_keys (Nx.g_adj g)) -> In v (dict_keys (Nx.g_adj g)) ->
  view_inv (Nx.set_edge g u v (VInt 0) a).
Proof.
  intros Hm Hinv Hv Hu Hvv _. destruct (Hv Hm) as [Hs Hsum].
  pose proof (edges_data_set_edge g u v (VInt 0) a Hinv Hu Hvv) as Hcnt.
  rewrite keys_of_set_edge, same_pair_refl in Hcnt.
  pose proof (inv_simple g Hinv Hm u v) as Hle.
  pose proof (inv_int_keys g Hinv u v) as Hik.
  rewrite (simple_keys_after_set _ _ Hle Hik) in Hcnt. simpl in Hcnt.
  revert Hcnt. unfold Nx.set_edge. simpl.
  rewrite (simple_keys_after_set _ _ Hle Hik).
  set (kd' := [(VInt 0, _)]).
  assert (Hk' : List.length kd' = 1) by reflexivity.
  generalize (Nx.edges_data
                {| Nx.g_class := Nx.g_class g; Nx.g_node := Nx.g_node g;
                   Nx.g_adj := if Nx.is_directed (Nx.g_class g)
                               then Nx.adj_set (Nx.g_adj g) u v kd'
                               else Nx.adj_set (Nx.adj_set (Nx.g_adj g) u v kd')
                                               v u kd' |}) as E'.
  intros E' Hcnt.
  destruct (Nx.is_directed (Nx.g_class g)) eqn:Hd.
  - split; [now apply adj_set_singletons|].
    pose proof (out_degree_sum_adj_set (Nx.g_adj g) u v kd' Hu Hs). lia.
  - split;
      [apply adj_set_singletons; [apply adj_set_singletons|]; assumption|].
    pose proof (degree_sum_adj_set (Nx.g_adj g) u v kd' Hu Hs) as H1.
    assert (Hv1 : In v (dict_keys (Nx.adj_set (Nx.g_adj g) u v kd')))
      by (now rewrite adj_set_keys).
    pose proof (degree_sum_adj_set (Nx.adj_set (Nx.g_adj g) u v kd') v u kd' Hv1
                                   (adj_set_singletons _ u v kd' Hs Hk')) as H2.
    rewrite keys_of_adj_set in H2. rewrite (value_eqb_sym v u) in H2.
    destruct (value_eqb u v) eqn:Euv; simpl in H2.
    + lia.
    + rewrite <- (inv_sym g Hinv Hd u v) in H2. lia.
Qed.

Lemma add_edge_row_view_inv (src tgt : string) (g : Nx.graph) (r : series) :
  graph_inv g -> view_inv g -> view_inv (add_edge_row src tgt g r).
Proof.
  intros Hinv Hv Hm'.
  assert (Hm : Nx.is_multigraph (Nx.g_class g) = false)
    by (now rewrite add_edge_row_class in Hm').
  set (u := cell r src). set (v := cell r tgt).
  set (g1 := Nx.ensure_node (Nx.ensure_node g u) v).
  assert (Hinv0 : graph_inv (Nx.ensure_node g u)) by now apply ensure_node_inv.
  assert (Hinv1 : graph_inv g1) by (subst g1; now apply ensure_node_inv).
  assert (Hv1 : view_inv g1).
  { subst g1. apply ensure_node_view_inv; [exact Hinv0|].
    now apply ensure_node_view_inv. }
  assert (Hu : In u (dict_keys (Nx.g_adj g1))).
  { rewrite (inv_keys g1 Hinv1). subst g1.
    apply ensure_node_keeps, ensure_node_has. }
  assert (Hvv : In v (dict_keys (Nx.g_adj g1))).
  { rewrite (inv_keys g1 Hinv1). subst g1. apply ensure_node_has. }
  assert (Hm1 : Nx.is_multigraph (Nx.g_class g1) = false)
    by (subst g1; now rewrite !ensure_node_class).
  assert (E : add_edge_row src tgt g r = Nx.set_edge g1 u v (VInt 0) r).
  { unfold add_edge_row, Nx.add_edge_simple. now rewrite Hm. }
  rewrite E.
  exact (set_edge_simple_view_inv g1 u v r Hm1 Hinv1 Hv1 Hu Hvv Hm1).
Qed.

Lemma multidigraph_len (adj : Nx.adjdict) (seen : list value) :
  list_sum (map (fun nn : value * Nx.nbrdict =>
                   list_sum (map (fun nk : value * Nx.keydict =>
                                    List.length (snd nk)) (snd nn)))
                adj)
  = adj_count true seen adj.
Proof.
  revert seen. induction adj as [|[n nbrs] rest IH]; intros seen; [reflexivity|].
  simpl. now rewrite (IH (n :: seen)).
Qed.

Lemma sums_isolated (node : list (value * attrs)) :
  out_degree_sum (isolated node) = 0 /\ degree_sum (isolated node) = 0.
Proof.
  induction node as [|[n a] l [I1 I2]]; [now split|].
  unfold out_degree_sum, degree_sum in *. simpl. now rewrite I1, I2.
Qed.

(** The length of the edge view is the number of edges that iterating over
    it reports. *)
Lemma edges_len_build_graph (T : NetworkGraph.t) :
  materializable T = true ->
  Nx.edges_len (build_graph T) = List.length (Nx.edges_data (build_graph T)).
Proof.
  intros HM. destruct (materializable_spec T HM)
    as (Hwn & Hwe & Hnid & Hsrc & Htgt & Hkn & Hke).
  pose proof (wf_table_NoDup _ Hwn) as Hndn.
  pose proof (wf_table_NoDup _ Hwe) as Hnde.
  pose proof (fun r => iterrows_keys (NetworkGraph.nodes T) r Hwn) as Hrn.
  pose proof (fun r => iterrows_keys (NetworkGraph.edges T) r Hwe) as Hre.
  set (c := graph_class_of (NetworkGraph.graph_type T)).
  set (g0 := build_nodes c (NetworkGraph.node_id_column_name T)
                         (iterrows (NetworkGraph.nodes T))).
  destruct (build_nodes_spec c _ (NetworkGraph.node_id_column_name T) _ Hndn Hrn)
    as [Hn0 Ha0].
  destruct (build_nodes_inv c _ (NetworkGraph.node_id_column_name T) _ Hndn Hrn)
    as [Hinv0 Hko0].
  fold g0 in Hn0, Ha0, Hinv0, Hko0.
  assert (Hat0 : edge_attrs_inv (column_names (NetworkGraph.edges T)) g0).
  { intros u v k a. rewrite Hko0. intros []. }
  assert (Hv0 : view_inv g0).
  { intros _. unfold Nx.edges_data. rewrite Ha0, edges_from_isolated.
    split.
    - intros n nbrs Hin nbr kd Hnbr. unfold isolated in Hin.
      apply in_map_iff in Hin as [[k a] [[= _ <-] _]]. destruct Hnbr.
    - destruct (sums_isolated (node_dict_of_rows
                                 (NetworkGraph.node_id_column_name T)
                                 (iterrows (NetworkGraph.nodes T)))) as [-> ->].
      now destruct (Nx.is_directed (Nx.g_class g0)). }
  assert (H : graph_inv (build_graph T)
              /\ edge_attrs_inv (column_names (NetworkGraph.edges T))
                                (build_graph T)
              /\ view_inv (build_graph T)).
  { unfold build_graph. fold c g0.
    revert Hinv0 Hat0 Hv0. generalize g0 as g.
    induction (iterrows (NetworkGraph.edges T)) as [|r rows IH];
      intros g Hinv Hat Hv; [now auto|].
    simpl fold_left.
    destruct (add_edge_row_inv _ (NetworkGraph.source_column_name T)
                               (NetworkGraph.target_column_name T) g r
                               Hinv Hat Hnde (Hre r (or_introl eq_refl)))
      as [Hinv' Hat'].
    apply IH; try assumption.
    - intros r' Hr'. apply Hre. now right.
    - now apply add_edge_row_view_inv. }
  destruct H as (Hinv & _ & Hv).
  revert Hv. unfold view_inv, Nx.edges_len, Nx.edges_data.
  destruct (Nx.g_class (build_graph T)); cbn [Nx.is_multigraph Nx.is_directed];
    intros Hv.
  - destruct (Hv eq_refl) as [_ Hs]. unfold degree_sum in Hs. rewrite Hs.
    symmetry. apply Nat.div_unique_exact; [discriminate | lia].
  - destruct (Hv eq_refl) as [_ Hs]. exact Hs.
  - reflexivity.
  - rewrite edges_from_length. apply multidigraph_len.
Qed.

(** ** Graph statistics *)

(** An undirected graph whose edges table joins [A] and [B] three times. *)
Definition repeated_pair_graph : NetworkGraph.t :=
  {| NetworkGraph.graph_type := UNDIRECTED;
     NetworkGraph.source_column_name := "source";
     NetworkGraph.target_column_name := "target";
     NetworkGraph.node_id_column_name := "id";
     NetworkGraph.edges :=
       {| column_names := ["source"; "target"; "weight"];
          rows := [[VStr "A"; VStr "B"; VInt 1];
                   [VStr "B"; VStr "A"; VInt 2];
                   [VStr "A"; VStr "C"; VInt 3];
                   [VStr "A"; VStr "B"; VInt 4]] |};
     NetworkGraph.nodes :=
       {| column_names := ["id"];
          rows := [[VStr "A"]; [VStr "B"]; [VStr "C"]] |} |}.



(** ** Frames *)

Definition keeps (name : string) (cv : string * value) : bool :=
  negb (String.eqb (fst cv) name).

Definition renames (old new : string) (cv : string * value) : string * value :=
  (if String.eqb (fst cv) old then new else fst cv, snd cv).

Lemma combine_keep_cells (keep : string -> bool) (cols : list string)
      (row : list value) :
  combine (filter keep cols) (keep_cells keep cols row)
  = filter (fun cv => keep (fst cv)) (combine cols row).
Proof.
  unfold keep_cells. revert row.
  induction cols as [|c cols IH]; intros [|v row]; simpl; try reflexivity.
  - apply combine_nil.
  - destruct (keep c); simpl; now rewrite IH.
Qed.

Lemma df_drop_Ok (name : string) (df : table) :
  In name (column_names df) ->
  exists df',
    df_drop name df = Ok df'
    /\ column_names df'
       = filter (fun c => negb (String.eqb c name)) (column_names df)
    /\ iterrows df' = map (filter (keeps name)) (iterrows df)
    /\ num_rows df' = num_rows df.
Proof.
  intros H. unfold df_drop. apply str_in_spec in H. rewrite H.
  eexists. split; [reflexivity|]. split; [reflexivity|]. split.
  - unfold iterrows. simpl. rewrite !map_map. apply map_ext. intros r.
    apply combine_keep_cells.
  - unfold num_rows. simpl. apply length_map.
Qed.

Lemma df_rename_spec (old new : string) (df : table) :
  column_names (df_rename old new df)
  = map (fun c => if String.eqb c old then new else c) (column_names df)
  /\ iterrows (df_rename old new df) = map (map (renames old new)) (iterrows df)
  /\ num_rows (df_rename old new df) = num_rows df.
Proof.
  split; [reflexivity|]. split; [|reflexivity].
  unfold iterrows, df_rename. simpl. rewrite map_map. apply map_ext. intros r.
  generalize (column_names df) as cols. intros cols. revert r.
  induction cols as [|c cols IH]; intros [|v r]; simpl; try reflexivity.
  now rewrite IH.
Qed.

Lemma dict_get_filter_keeps (name c : string) (s : series) :
  dict_get String.eqb c (filter (keeps name) s)
  = if String.eqb c name then None else dict_get String.eqb c s.
Proof.
  induction s as [|[k v] s IH]; simpl; [now destruct (String.eqb c name)|].
  unfold keeps at 1. simpl.
  destruct (String.eqb_spec k name) as [->|Hk]; simpl.
  - rewrite IH. destruct (String.eqb_spec c name); reflexivity.
  - rewrite IH. destruct (String.eqb_spec c k) as [->|Hc]; [|reflexivity].
    destruct (String.eqb_spec k name); [contradiction | reflexivity].
Qed.

Lemma filter_keeps_absent (name : string) (s : series) :
  ~ In name (dict_keys s) -> filter (keeps name) s = s.
Proof.
  induction s as [|[k v] s IH]; simpl; [reflexivity|]. intros H.
  unfold keeps at 1. simpl.
  destruct (String.eqb_spec k name) as [->|Hk]; [tauto|]. simpl.
  rewrite IH; tauto.
Qed.

Lemma map_renames_absent (old new : string) (s : series) :
  ~ In old (dict_keys s) -> map (renames old new) s = s.
Proof.
  induction s as [|[k v] s IH]; simpl; [reflexivity|]. intros H.
  unfold renames at 1. simpl.
  destruct (String.eqb_spec k old) as [->|Hk]; [tauto|].
  rewrite IH; tauto.
Qed.

Lemma filter_keeps_keys (name : string) (s : series) :
  dict_keys (filter (keeps name) s)
  = filter (fun c => negb (String.eqb c name)) (dict_keys s).
Proof.
  induction s as [|[k v] s IH]; simpl; [reflexivity|].
  unfold keeps at 1. simpl. destruct (negb (String.eqb k name)); simpl;
    now rewrite IH.
Qed.

(** The keys of a sequence of dicts. *)
Lemma add_names_In (seen names : list string) (c : string) :
  In c (add_names seen names) <-> In c seen \/ In c names.
Proof.
  revert seen. induction names as [|n names IH]; intros seen; simpl; [tauto|].
  rewrite IH. destruct (str_in n seen) eqn:E.
  - apply str_in_spec in E. intuition (subst; auto).
  - rewrite in_app_iff. simpl. intuition (subst; auto).
Qed.

Lemma key_union_In_from (ds : list attrs) (seen : list string) (c : string) :
  In c (fold_left (fun seen d => add_names seen (dict_keys d)) ds seen)
  <-> In c seen \/ exists d, In d ds /\ In c (dict_keys d).
Proof.
  revert seen. induction ds as [|d ds IH]; intros seen; simpl.
  - split; [now left | intros [H|[d [[] _]]]; exact H].
  - rewrite IH, add_names_In. split.
    + intros [[H|H]|[d' [H1 H2]]];
        [now left | right; exists d; auto | right; exists d'; auto].
    + intros [H|[d' [[<-|H1] H2]]];
        [left; now left | left; now right | right; exists d'; auto].
Qed.

Lemma key_union_In (ds : list attrs) (c : string) :
  In c (key_union ds) <-> exists d, In d ds /\ In c (dict_keys d).
Proof.
  unfold key_union. rewrite key_union_In_from. simpl. tauto.
Qed.

Lemma add_names_fresh (seen names : list string) :
  NoDup (seen ++ names) -> add_names seen names = seen ++ names.
Proof.
  revert seen. induction names as [|n names IH]; intros seen H; simpl.
  - now rewrite app_nil_r.
  - assert (E : str_in n seen = false).
    { apply str_in_false. intros Hin. apply NoDup_remove_2 in H. apply H.
      apply in_or_app. now left. }
    rewrite E, IH; rewrite <- app_assoc; [reflexivity | exact H].
Qed.

Lemma add_names_known (seen names : list string) :
  (forall n, In n names -> In n seen) -> add_names seen names = seen.
Proof.
  revert seen. induction names as [|n names IH]; intros seen H; simpl;
    [reflexivity|].
  assert (E : str_in n seen = true) by (apply str_in_spec, H; now left).
  rewrite E. apply IH. intros m Hm. apply H. now right.
Qed.

(** Dicts that all have the keys [cols] have the key union [cols]. *)
Lemma key_union_same (ds : list attrs) (cols : list string) :
  ds <> [] -> NoDup cols -> (forall d, In d ds -> dict_keys d = cols) ->
  key_union ds = cols.
Proof.
  intros Hne Hnd Hk. unfold key_union. destruct ds as [|d ds]; [congruence|].
  simpl. rewrite (Hk d (or_introl eq_refl)).
  rewrite (add_names_fresh [] cols Hnd). simpl.
  assert (H : forall ds' : list attrs,
             (forall d', In d' ds' -> dict_keys d' = cols) ->
             fold_left (fun seen (d' : attrs) => add_names seen (dict_keys d'))
                       ds' cols = cols).
  { induction ds' as [|d' ds' IH]; intros H'; [reflexivity|]. simpl.
    rewrite (H' d' (or_introl eq_refl)), add_names_known by auto.
    apply IH. intros d'' Hd''. apply H'. now right. }
  apply H. intros d' Hd'. apply Hk. now right.
Qed.

Lemma dict_get_combine_map (f : string -> value) (cols : list string) (c : string) :
  In c cols -> dict_get String.eqb c (combine cols (map f cols)) = Some (f c).
Proof.
  induction cols as [|k cols IH]; simpl; [intros []|].
  destruct (String.eqb_spec c k) as [->|Hne]; [reflexivity|].
  intros [E|H]; [congruence | now apply IH].
Qed.

(** Reading a dict under each of its own keys gives its values back. *)
Lemma combine_attr_or_nan (a : attrs) :
  NoDup (dict_keys a) ->
  combine (dict_keys a) (map (attr_or_nan a) (dict_keys a)) = a.
Proof.
  unfold attr_or_nan, attrs_get.
  induction a as [|[k v] a IH]; simpl; [reflexivity|]. intros H.
  inversion H as [|? ? Hni Hnd]; subst.
  rewrite String.eqb_refl. f_equal.
  rewrite <- (IH Hnd) at 3. f_equal. apply map_ext_in. intros c Hc.
  destruct (String.eqb_spec c k) as [->|Hne]; [contradiction | reflexivity].
Qed.

(** ** The nodes table of a graph object *)

Lemma combine_map_self {A B : Type} (f : A -> B) (l : list A) :
  combine l (map f l) = map (fun x => (x, f x)) l.
Proof. induction l as [|x l IH]; simpl; [reflexivity | now rewrite IH]. Qed.

Definition label_attrs (d : list (value * attrs)) (i : value) : attrs :=
  match dict_get value_eqb i d with Some a => a | None => [] end.

Lemma from_dict_index_spec (d : list (value * attrs)) :
  column_names (data (from_dict_index d)) = key_union (map snd d)
  /\ iterrows (data (from_dict_index d))
     = map (fun i => combine (key_union (map snd d))
                             (map (attr_or_nan (label_attrs d i))
                                  (key_union (map snd d))))
           (index (from_dict_index d))
  /\ List.length (rows (data (from_dict_index d)))
     = List.length (index (from_dict_index d)).
Proof.
  unfold from_dict_index, iterrows. simpl.
  split; [reflexivity|]. split; [now rewrite map_map | apply length_map].
Qed.

Lemma reset_index_Ok (f : frame) :
  ~ In "index" (column_names (data f)) ->
  List.length (rows (data f)) = List.length (index f) ->
  exists t,
    reset_index f = Ok t
    /\ column_names t = "index" :: column_names (data f)
    /\ iterrows t
       = map (fun ir => ("index", fst ir) :: snd ir)
             (combine (index f) (iterrows (data f)))
    /\ num_rows t = List.length (index f).
Proof.
  intros H Hlen. unfold reset_index.
  apply str_in_false in H. rewrite H. cbv zeta. rewrite H.
  eexists. split; [reflexivity|]. split; [reflexivity|]. split.
  - unfold iterrows. simpl. rewrite map_map.
    generalize (index f) as idx. generalize (rows (data f)) as rs.
    intros rs. induction rs as [|r rs IH]; intros [|i idx]; simpl;
      try reflexivity. now rewrite IH.
  - unfold num_rows. simpl. rewrite length_map, length_combine. lia.
Qed.

Lemma node_dict_attrs (g : Nx.graph) (i : value) (c : string) :
  c <> NetworkGraph.placeholder ->
  attr_or_nan (label_attrs (NetworkGraph.node_dict g) i) c
  = attr_or_nan (Nx.node_attrs g i) c.
Proof.
  intros Hc. unfold label_attrs, Nx.node_attrs, NetworkGraph.node_dict,
             Nx.nodes_data.
  induction (Nx.g_node g) as [|[k a] l IH]; simpl; [reflexivity|].
  destruct (value_eqb i k); [|exact IH].
  destruct a; [|reflexivity]. unfold attr_or_nan, attrs_get. simpl.
  destruct (String.eqb_spec c NetworkGraph.placeholder); [contradiction|].
  reflexivity.
Qed.

Lemma node_dict_columns (g : Nx.graph) (c : string) :
  c <> NetworkGraph.placeholder ->
  (In c (key_union (map snd (NetworkGraph.node_dict g)))
   <-> exists n a, In (n, a) (Nx.g_node g) /\ attrs_mem c a = true).
Proof.
  intros Hc. rewrite key_union_In.
  unfold NetworkGraph.node_dict, Nx.nodes_data. rewrite map_map. simpl. split.
  - intros [d [Hd Hin]]. apply in_map_iff in Hd as [[n a] [<- Hna]].
    exists n, a. split; [exact Hna|]. apply str_dict_mem_spec.
    simpl in Hin. destruct a; [|exact Hin].
    simpl in Hin. destruct Hin as [E|[]]. congruence.
  - intros [n [a [Hna Hmem]]]. apply str_dict_mem_spec in Hmem.
    exists (match a with [] => [(NetworkGraph.placeholder, VStr "__dummy__")]
                    | _ :: _ => a end).
    split; [|destruct a; [destruct Hmem | exact Hmem]].
    apply in_map_iff. exists (n, a). now split.
Qed.

(** C10 as the code comment and the specification have it: whenever a node
    carries an attribute named like the node-id column, the function
    returns a graph whose nodes table holds, in that column, attribute
    values of the nodes. *)
Definition node_id_from_attribute (ts tt : string) (g : Nx.graph)
           (src tgt nid : string) : Prop :=
  (exists n a, In (n, a) (Nx.g_node g) /\ attrs_mem nid a = true) ->
  exists T,
    NetworkGraph.create_from_networkx_graph ts tt (NxObject g) src tgt nid = Ok T
    /\ forall row, In row (iterrows (NetworkGraph.nodes T)) ->
                   exists n a, In (n, a) (Nx.g_node g)
                               /\ cell row nid = attr_or_nan a nid.

(** Two nodes that carry an attribute with the name of the placeholder, and
    an edge whose attributes have the names of the end-point columns. *)
Definition placeholder_named_graph : Nx.graph :=
  {| Nx.g_class := Nx.DiGraph;
     Nx.g_node := [(VInt 1, [("_x_placeholder_x_", VStr "a")]);
                   (VInt 2, [("_x_placeholder_x_", VStr "b")])];
     Nx.g_adj := [(VInt 1, [(VInt 2, [(VInt 0, [("source", VInt 1);
                                                ("target", VInt 2)])])]);
                  (VInt 2, [])] |}.

Example placeholder_named_graph_table :
  NetworkGraph.create_from_networkx_graph
    uuid_1 uuid_2 (NxObject placeholder_named_graph)
    "source" "target" "_x_placeholder_x_"
  = Ok {| NetworkGraph.graph_type := DIRECTED;
          NetworkGraph.source_column_name := "source";
          NetworkGraph.target_column_name := "target";
          NetworkGraph.node_id_column_name := "_x_placeholder_x_";
          NetworkGraph.edges :=
            {| column_names := ["source"; "target"];
               rows := [[VInt 1; VInt 2]] |};
          NetworkGraph.nodes :=
            {| column_names := ["_x_placeholder_x_"];
               rows := [[VInt 1]; [VInt 2]] |} |}.
Proof. vm_compute. reflexivity. Qed.


Lemma first_seen_In (seen l : list value) (x : value) :
  In x (first_seen seen l) <-> In x l /\ ~ In x seen.
Proof.
  revert seen. induction l as [|y l IH]; intros seen; simpl; [tauto|].
  destruct (val_in y seen) eqn:E.
  - apply val_in_spec in E. rewrite IH. split; [tauto|].
    intros [[->|H] Hs]; [contradiction | tauto].
  - apply val_in_false in E. simpl. rewrite IH. simpl. split.
    + intros [->|[H Hs]]; [tauto | tauto].
    + intros [[->|H] Hs]; [now left|].
      destruct (value_eqb_spec y x) as [->|Hne]; [now left | right; tauto].
Qed.

Lemma first_seen_NoDup (seen l : list value) : NoDup (first_seen seen l).
Proof.
  revert seen. induction l as [|y l IH]; intros seen; simpl; [constructor|].
  destruct (val_in y seen); [apply IH|].
  constructor; [|apply IH]. rewrite first_seen_In. simpl. tauto.
Qed.

Lemma labels_In (d : list (value * attrs)) (cols : list string) (x : value) :
  In x (flat_map (labels_having d) cols)
  <-> exists c a, In c cols /\ In (x, a) d /\ attrs_mem c a = true.
Proof.
  rewrite in_flat_map. unfold labels_having. split.
  - intros [c [Hc Hx]]. apply in_map_iff in Hx as [[k a] [<- Hin]].
    apply filter_In in Hin as [Hin Hm]. now exists c, a.
  - intros [c [a [Hc [Hin Hm]]]]. exists c. split; [exact Hc|].
    apply in_map_iff. exists (x, a). split; [reflexivity|].
    apply filter_In. now split.
Qed.

(** The frame of the node dict has one label per node. *)
Lemma node_dict_index (g : Nx.graph) :
  NoDup (dict_keys (Nx.g_node g)) ->
  Permutation (index (from_dict_index (NetworkGraph.node_dict g)))
              (dict_keys (Nx.g_node g)).
Proof.
  intros Hnd. apply NoDup_Permutation; [apply first_seen_NoDup | exact Hnd|].
  intros x. unfold from_dict_index. simpl.
  rewrite first_seen_In, labels_In. split.
  - intros [[c [a [_ [Hin _]]]] _].
    unfold NetworkGraph.node_dict, Nx.nodes_data in Hin.
    apply in_map_iff in Hin as [[k b] [[= E _] Hin]]. simpl in E. subst k.
    unfold dict_keys. change x with (fst (x, b)). now apply in_map.
  - intros Hx. split; [|intros []].
    unfold dict_keys in Hx. apply in_map_iff in Hx as [[k b] [<- Hin]]. simpl.
    set (a := match b with
              | [] => [(NetworkGraph.placeholder, VStr "__dummy__")]
              | _ :: _ => b
              end).
    assert (Ha : In (k, a) (NetworkGraph.node_dict g)).
    { unfold NetworkGraph.node_dict, Nx.nodes_data.
      apply in_map_iff. exists (k, b). now split. }
    assert (Hne : exists c v, In (c, v) a).
    { subst a. destruct b as [|[c v] b]; eexists; eexists; now left. }
    destruct Hne as [c [v Hcv]].
    assert (Hc : In c (dict_keys a)).
    { unfold dict_keys. change c with (fst (c, v)). now apply in_map. }
    exists c, a. split; [|split; [exact Ha | now apply str_dict_mem_spec]].
    apply key_union_In. exists a. split; [|exact Hc].
    apply in_map_iff. exists (k, a). now split.
Qed.

Lemma create_from_tables_truthy (gt : GraphType) (E : table)
      (x : table_object) (src tgt nid : string) :
  truth x = true ->
  str_in src (column_names E) = true ->
  str_in tgt (column_names E) = true ->
  str_in nid (column_names (table_of x)) = true ->
  NetworkGraph.create_from_tables gt E (Some x) src tgt nid
  = Ok {| NetworkGraph.graph_type := gt;
          NetworkGraph.source_column_name := src;
          NetworkGraph.target_column_name := tgt;
          NetworkGraph.node_id_column_name := nid;
          NetworkGraph.edges := E;
          NetworkGraph.nodes := table_of x |}.
Proof.
  intros Hx Hs Ht Hn. unfold NetworkGraph.create_from_tables, create_table.
  rewrite Hx. simpl. now rewrite Hs, Ht, Hn.
Qed.

Lemma create_from_tables_supplied (gt : GraphType) (E N : table)
      (src tgt nid : string) :
  str_in src (column_names E) = true ->
  str_in tgt (column_names E) = true ->
  str_in nid (column_names N) = true ->
  NetworkGraph.create_from_tables gt E (Some (Kiara N)) src tgt nid
  = Ok {| NetworkGraph.graph_type := gt;
          NetworkGraph.source_column_name := src;
          NetworkGraph.target_column_name := tgt;
          NetworkGraph.node_id_column_name := nid;
          NetworkGraph.edges := E;
          NetworkGraph.nodes := N |}.
Proof.
  intros Hs Ht Hn.
  now apply (create_from_tables_truthy gt E (Kiara N)).
Qed.

Definition graph_type_of_class (c : Nx.graph_class) : GraphType :=
  match c with
  | Nx.MultiDiGraph => DIRECTED_MULTI
  | Nx.MultiGraph => UNDIRECTED_MULTI
  | Nx.DiGraph => DIRECTED
  | Nx.Graph => UNDIRECTED
  end.

Lemma graph_type_of_object_class (g : Nx.graph) :
  NetworkGraph.graph_type_of_object (NxObject g)
  = Ok (graph_type_of_class (Nx.g_class g)).
Proof.
  unfold NetworkGraph.graph_type_of_object. simpl. now destruct (Nx.g_class g).
Qed.

(** The nodes step when a node carries the node-id attribute. *)
Lemma nodes_table_of_graph_attribute (g : Nx.graph) (nid : string) :
  (exists n a, In (n, a) (Nx.g_node g) /\ attrs_mem nid a = true) ->
  nid <> NetworkGraph.placeholder ->
  (forall n a, In (n, a) (Nx.g_node g) -> attrs_mem "index" a = false) ->
  exists N,
    NetworkGraph.nodes_table_of_graph g nid = Ok N
    /\ In nid (column_names N)
    /\ ~ In "index" (column_names N)
    /\ column_values N nid
       = map (fun n => attr_or_nan (Nx.node_attrs g n) nid)
             (index (from_dict_index (NetworkGraph.node_dict g))).
Proof.
  intros Hsome Hnp Hnoidx.
  set (nd := NetworkGraph.node_dict g).
  set (cols0 := key_union (map snd nd)).
  destruct (from_dict_index_spec nd) as (Hc0 & Hr0 & Hl0).
  fold cols0 in Hc0, Hr0.
  assert (Hnid0 : In nid cols0) by (now apply node_dict_columns).
  assert (Hidx0 : ~ In "index" cols0).
  { intros H. apply node_dict_columns in H; [|discriminate].
    destruct H as [n [a [Hin Hm]]]. rewrite (Hnoidx n a Hin) in Hm. discriminate. }
  destruct (reset_index_Ok (from_dict_index nd)) as (t1 & Ht1 & Hc1 & Hr1 & _);
    [now rewrite Hc0 | exact Hl0 |].
  rewrite Hc0 in Hc1. rewrite Hr0, combine_map_self, map_map in Hr1.
  simpl in Hr1.
  unfold NetworkGraph.nodes_table_of_graph. fold nd. rewrite Ht1. cbn [bind].
  assert (Hpl : exists t2,
             (if str_in NetworkGraph.placeholder (column_names t1)
              then df_drop NetworkGraph.placeholder t1 else Ok t1) = Ok t2
             /\ In nid (column_names t2)
             /\ In "index" (column_names t2)
             /\ (forall c, c <> "index" -> In c (column_names t2) -> In c cols0)
             /\ forall c, c <> NetworkGraph.placeholder ->
                          map (dict_get String.eqb c) (iterrows t2)
                          = map (dict_get String.eqb c) (iterrows t1)).
  { destruct (str_in NetworkGraph.placeholder (column_names t1)) eqn:Ep.
    - apply str_in_spec in Ep.
      destruct (df_drop_Ok NetworkGraph.placeholder t1 Ep)
        as (t2 & Ht2 & Hc2 & Hr2 & _).
      exists t2. split; [exact Ht2|]. rewrite Hc2, Hc1.
      split; [|split; [|split]].
      + apply filter_In. split; [now right|].
        apply negb_true_iff, String.eqb_neq, Hnp.
      + apply filter_In. split; [now left | reflexivity].
      + intros c Hc Hin. apply filter_In in Hin as [[E|Hin] _];
          [congruence | exact Hin].
      + intros c Hc. rewrite Hr2, map_map. apply map_ext. intros s.
        rewrite dict_get_filter_keeps.
        now destruct (String.eqb_spec c NetworkGraph.placeholder).
    - exists t1. split; [reflexivity|]. rewrite Hc1.
      split; [now right | split; [now left | split; [|reflexivity]]].
      intros c Hc [E|Hin]; [congruence | exact Hin]. }
  destruct Hpl as (t2 & -> & Hn2 & Hi2 & Hsub2 & Hr2). cbn [bind].
  apply str_in_spec in Hn2 as Hn2'. rewrite Hn2'.
  destruct (df_drop_Ok "index" t2 Hi2) as (t3 & -> & Hc3 & Hr3 & _).
  cbn [bind]. unfold create_table. exists t3.
  assert (Hne : nid <> "index") by (intros ->; contradiction).
  split; [reflexivity|]. split; [|split].
  - rewrite Hc3. apply filter_In. split; [exact Hn2|].
    now apply negb_true_iff, String.eqb_neq.
  - rewrite Hc3. intros H. apply filter_In in H as [_ H].
    now rewrite String.eqb_refl in H.
  - unfold column_values.
    set (h := fun o : option value =>
                match o with Some v => v | None => VNaN end).
    change (map (fun row => h (dict_get String.eqb nid row)) (iterrows t3)
            = map (fun n => attr_or_nan (Nx.node_attrs g n) nid)
                  (index (from_dict_index nd))).
    rewrite Hr3, map_map.
    transitivity (map (fun row => h (dict_get String.eqb nid row)) (iterrows t2)).
    { apply map_ext. intros s. rewrite dict_get_filter_keeps.
      now destruct (String.eqb_spec nid "index"). }
    rewrite <- (map_map (dict_get String.eqb nid) h), (Hr2 nid Hnp), Hr1, !map_map.
    apply map_ext. intros i. simpl.
    destruct (String.eqb_spec nid "index"); [contradiction|].
    rewrite (dict_get_combine_map _ _ _ Hnid0). unfold h.
    now apply node_dict_attrs.
Qed.

(** The graph objects whose node frame converts to an Arrow table, column
    by column: the node identifiers are of one type, and so are the values
    that the nodes carry under each attribute name. *)
Definition node_frame_typed (g : Nx.graph) : bool :=
  cells_typed (dict_keys (Nx.g_node g))
  && forallb (fun c =>
                cells_typed (map (fun na : value * attrs =>
                                    attr_or_nan (snd na) c) (Nx.g_node g)))
             (key_union (map snd (Nx.g_node g))).


(** Node [1] carries [id], node [2] does not. *)
Definition id_attribute_graph : Nx.graph :=
  {| Nx.g_class := Nx.DiGraph;
     Nx.g_node := [(VInt 1, [("id", VStr "a")]);
                   (VInt 2, [("label", VStr "b")])];
     Nx.g_adj := [(VInt 1, [(VInt 2, [(VInt 0, [("source", VInt 1);
                                                ("target", VInt 2)])])]);
                  (VInt 2, [])] |}.


(** ** The round trip through the graph object *)

Lemma dict_of_items_values_NoDup (l : list (value * attrs)) :
  NoDup (dict_keys l) -> dict_of_items value_eqb l = l.
Proof.
  unfold dict_of_items.
  assert (H : forall d, NoDup (dict_keys d ++ dict_keys l) ->
                        dict_update value_eqb d l = d ++ l).
  { induction l as [|[k v] l IH]; intros d Hnd; simpl.
    - now rewrite app_nil_r.
    - unfold dict_update in *. simpl.
      assert (Hk : ~ In k (dict_keys d)).
      { intros Hin. apply NoDup_remove_2 in Hnd. apply Hnd.
        apply in_or_app. now left. }
      rewrite (dict_set_keys_absent value_eqb_spec) by exact Hk.
      rewrite IH.
      + now rewrite <- app_assoc.
      + unfold dict_keys in *. rewrite map_app, <- app_assoc. exact Hnd. }
  intros Hnd. now rewrite H.
Qed.

Lemma column_values_cells (t : table) (name : string) :
  column_values t name = map (fun row => cell row name) (iterrows t).
Proof. reflexivity. Qed.

Lemma first_seen_all_seen (seen l : list value) :
  (forall x, In x l -> In x seen) -> first_seen seen l = [].
Proof.
  induction l as [|y l IH]; intros H; simpl; [reflexivity|].
  assert (E : val_in y seen = true) by (apply val_in_spec, H; now left).
  rewrite E. apply IH. intros x Hx. apply H. now right.
Qed.

Lemma first_seen_prefix (l1 l2 : list value) :
  NoDup l1 ->
  forall seen,
    (forall x, In x l1 -> ~ In x seen) ->
    (forall x, In x l2 -> In x l1 \/ In x seen) ->
    first_seen seen (l1 ++ l2) = l1.
Proof.
  induction 1 as [|a l1 Hni Hnd IH]; intros seen Hd Hl2; simpl.
  - apply first_seen_all_seen. intros x Hx. destruct (Hl2 x Hx) as [[]|H]; exact H.
  - assert (E : val_in a seen = false)
      by (apply val_in_false, Hd; now left).
    rewrite E. f_equal. apply IH.
    + intros x Hx [<-|Hs]; [contradiction|]. apply (Hd x); [now right | exact Hs].
    + intros x Hx. destruct (Hl2 x Hx) as [[<-|H]|H];
        [right; now left | now left | right; now right].
Qed.

Lemma map_attr_or_nan_keys (a : attrs) :
  NoDup (dict_keys a) -> map (attr_or_nan a) (dict_keys a) = map snd a.
Proof.
  unfold attr_or_nan, attrs_get.
  induction a as [|[k v] a IH]; simpl; [reflexivity|]. intros H.
  inversion H as [|? ? Hni Hnd]; subst.
  rewrite String.eqb_refl. f_equal.
  rewrite <- (IH Hnd). apply map_ext_in. intros c Hc.
  destruct (String.eqb_spec c k) as [->|Hne]; [contradiction | reflexivity].
Qed.

Lemma map_snd_combine {A B : Type} (ks : list A) (vs : list B) :
  List.length vs = List.length ks -> map snd (combine ks vs) = vs.
Proof.
  revert vs. induction ks as [|k ks IH]; intros [|v vs]; simpl;
    try discriminate; [reflexivity|].
  intros [= H]. now rewrite IH.
Qed.

Fixpoint distinct_vals (l : list value) : bool :=
  match l with
  | [] => true
  | x :: rest => negb (val_in x rest) && distinct_vals rest
  end.

Lemma distinct_vals_NoDup (l : list value) : distinct_vals l = true <-> NoDup l.
Proof.
  induction l as [|x l IH]; simpl.
  - split; [constructor | reflexivity].
  - rewrite andb_true_iff, negb_true_iff, val_in_false, IH.
    split; [intros [H1 H2]; now constructor | intros H; now inversion H].
Qed.

Lemma filter_all {A : Type} (f : A -> bool) (l : list A) :
  (forall x, In x l -> f x = true) -> filter f l = l.
Proof.
  induction l as [|x l IH]; intros H; simpl; [reflexivity|].
  rewrite (H x (or_introl eq_refl)), IH; [reflexivity|].
  intros y Hy. apply H. now right.
Qed.

Lemma labels_having_all (items : list (value * attrs)) (c : string) :
  (forall kv, In kv items -> attrs_mem c (snd kv) = true) ->
  labels_having items c = map fst items.
Proof. intros H. unfold labels_having. now rewrite filter_all. Qed.

(** The frame of the node dict of rows with distinct identifiers: the
    labels are the identifiers, the data are the rows. *)
Lemma from_dict_index_rows (N : table) (nid : string) :
  wf_table N = true -> In nid (column_names N) -> rows N <> [] ->
  NoDup (column_values N nid) ->
  from_dict_index (map (fun r => (cell r nid, r)) (iterrows N))
  = {| index := column_values N nid; data := N |}.
Proof.
  intros Hwf Hnid Hne Hnd.
  pose proof (wf_table_NoDup N Hwf) as Hcols.
  pose proof (fun r => iterrows_keys N r Hwf) as Hkeys.
  set (items := map (fun r => (cell r nid, r)) (iterrows N)).
  assert (Hsnd : map snd items = iterrows N).
  { subst items. rewrite map_map. simpl. apply map_id. }
  assert (Hfst : map fst items = column_values N nid).
  { subst items. rewrite map_map. reflexivity. }
  assert (Hitems : NoDup (dict_keys items))
    by (unfold dict_keys; rewrite Hfst; exact Hnd).
  assert (Hcols0 : key_union (map snd items) = column_names N).
  { rewrite Hsnd. apply key_union_same; [|exact Hcols | exact Hkeys].
    unfold iterrows. destruct (rows N); [congruence | discriminate]. }
  assert (Hhas : forall c, In c (column_names N) ->
                           labels_having items c = column_values N nid).
  { intros c Hc. rewrite labels_having_all; [exact Hfst|].
    intros [k r] Hin. subst items. apply in_map_iff in Hin as [r' [[= _ <-] Hr']].
    apply str_dict_mem_spec. simpl. now rewrite (Hkeys _ Hr'). }
  assert (Hidx : first_seen [] (flat_map (labels_having items) (column_names N))
                 = column_values N nid).
  { destruct (column_names N) as [|c cols] eqn:Ec; [destruct Hnid|].
    simpl. rewrite (Hhas c (or_introl eq_refl)).
    apply first_seen_prefix; [exact Hnd | intros x _ [] |].
    intros x Hx. left. apply in_flat_map in Hx as [c' [Hc' Hx]].
    now rewrite (Hhas c' (or_intror Hc')) in Hx. }
  unfold from_dict_index. cbv zeta.
  repeat match goal with
         | |- context [key_union ?m] =>
             replace (key_union m) with (column_names N)
               by (symmetry; exact Hcols0)
         end.
  repeat match goal with
         | |- context [first_seen [] ?l] =>
             replace (first_seen [] l) with (column_values N nid)
               by (symmetry; exact Hidx)
         end.
  f_equal.
  destruct N as [cols rws]. simpl in *. f_equal.
  rewrite column_values_cells, map_map.
  unfold iterrows. simpl. rewrite map_map.
  rewrite <- (map_id rws) at 2. apply map_ext_in. intros vals Hvals.
  assert (Hr : In (combine cols vals) (iterrows {| column_names := cols;
                                                    rows := rws |}))
    by (unfold iterrows; simpl; now apply in_map).
  assert (Hlab : label_attrs items (cell (combine cols vals) nid)
                 = combine cols vals).
  { unfold label_attrs.
    rewrite (dict_get_NoDup_In value_eqb_spec _ (combine cols vals));
      [reflexivity | exact Hitems |].
    subst items. apply in_map_iff. now exists (combine cols vals). }
  fold (label_attrs items (cell (combine cols vals) nid)). rewrite Hlab.
  pose proof (Hkeys _ Hr) as Hk. simpl in Hk.
  rewrite <- Hk at 2. rewrite map_attr_or_nan_keys by (rewrite Hk; exact Hcols).
  apply map_snd_combine.
  apply (wf_table_row_length {| column_names := cols; rows := rws |} vals Hwf Hvals).
Qed.

Lemma keep_cells_index (cols : list string) (i : value) (vals : list value) :
  ~ In "index" cols -> List.length vals = List.length cols ->
  keep_cells (fun c => negb (String.eqb c "index")) ("index" :: cols) (i :: vals)
  = vals.
Proof.
  intros Hni Hlen. unfold keep_cells. simpl.
  rewrite filter_all; [now apply map_snd_combine|].
  intros [c v] Hin. simpl. apply negb_true_iff, String.eqb_neq. intros ->.
  apply Hni. apply in_combine_l in Hin. exact Hin.
Qed.

(** The nodes of the graph object of a graph whose node identifiers are
    distinct and cover the end points, and the nodes table read back from
    them. *)
Lemma nodes_table_round_trip (T : NetworkGraph.t) :
  materializable T = true ->
  let nid := NetworkGraph.node_id_column_name T in
  let ids := column_values (NetworkGraph.nodes T) nid in
  NoDup ids ->
  (forall r, In r (iterrows (NetworkGraph.edges T)) ->
             In (cell r (NetworkGraph.source_column_name T)) ids
             /\ In (cell r (NetworkGraph.target_column_name T)) ids) ->
  rows (NetworkGraph.nodes T) <> [] ->
  ~ In NetworkGraph.placeholder (column_names (NetworkGraph.nodes T)) ->
  ~ In "index" (column_names (NetworkGraph.nodes T)) ->
  Nx.g_node (build_graph T)
  = map (fun r => (cell r nid, r)) (iterrows (NetworkGraph.nodes T))
  /\ NetworkGraph.nodes_table_of_graph (build_graph T) nid
     = Ok (NetworkGraph.nodes T).
Proof.
  intros HM nid ids Hnd Hcov Hne Hpl Hidx.
  destruct (materializable_spec T HM)
    as (Hwn & Hwe & Hnid & Hsrc & Htgt & Hkn & Hke).
  pose proof (wf_table_NoDup _ Hwn) as Hcols.
  pose proof (fun r => iterrows_keys (NetworkGraph.nodes T) r Hwn) as Hkeys.
  set (items := map (fun r => (cell r nid, r)) (iterrows (NetworkGraph.nodes T))).
  assert (Hik : dict_keys items = ids).
  { subst items. unfold dict_keys. rewrite map_map. reflexivity. }
  set (c := graph_class_of (NetworkGraph.graph_type T)).
  destruct (build_nodes_spec c _ nid _ Hcols Hkeys) as [Hn0 _].
  unfold node_dict_of_rows in Hn0. fold items in Hn0.
  rewrite dict_of_items_values_NoDup in Hn0 by (now rewrite Hik).
  assert (Hnode : Nx.g_node (build_graph T) = items).
  { unfold build_graph. fold c nid.
    rewrite <- Hn0.
    apply (build_edges_node_covered (NetworkGraph.source_column_name T)
                                    (NetworkGraph.target_column_name T)).
    intros r Hr. rewrite Hn0, Hik. now apply Hcov. }
  split; [exact Hnode|].
  unfold NetworkGraph.nodes_table_of_graph.
  assert (Hndict : NetworkGraph.node_dict (build_graph T) = items).
  { unfold NetworkGraph.node_dict, Nx.nodes_data. rewrite Hnode.
    rewrite <- (map_id items) at 2. apply map_ext_in. intros [k r] Hin.
    subst items. apply in_map_iff in Hin as [r' [[= _ <-] Hr']].
    simpl. pose proof (Hkeys _ Hr') as Hk.
    destruct r'; [|reflexivity]. simpl in Hk. rewrite <- Hk in Hnid.
    destruct Hnid. }
  rewrite Hndict. subst items.
  rewrite (from_dict_index_rows _ nid Hwn Hnid Hne Hnd).
  unfold reset_index. cbn [data index].
  assert (E1 : str_in "index" (column_names (NetworkGraph.nodes T)) = false)
    by now apply str_in_false.
  rewrite E1. cbv zeta. rewrite E1. cbn [bind column_names].
  assert (E2 : str_in NetworkGraph.placeholder
                      ("index" :: column_names (NetworkGraph.nodes T)) = false).
  { apply str_in_false. intros [E|H]; [discriminate E | contradiction]. }
  rewrite E2. cbn [bind column_names].
  assert (E3 : str_in nid ("index" :: column_names (NetworkGraph.nodes T)) = true)
    by (apply str_in_spec; now right).
  rewrite E3. unfold df_drop. cbn [column_names rows].
  assert (E4 : str_in "index" ("index" :: column_names (NetworkGraph.nodes T))
               = true) by reflexivity.
  rewrite E4. cbn [bind]. unfold create_table. f_equal.
  destruct (NetworkGraph.nodes T) as [cols rws] eqn:EN. simpl in *. f_equal.
  - rewrite filter_all; [reflexivity|].
    intros x Hx. apply negb_true_iff, String.eqb_neq. intros ->. contradiction.
  - rewrite map_map.
    assert (Hlen : forall vals, In vals rws ->
                                List.length vals = List.length cols).
    { intros vals Hv.
      apply (wf_table_row_length {| column_names := cols; rows := rws |}
                                 vals Hwn Hv). }
    unfold ids, column_values, iterrows. simpl. rewrite !map_map.
    clear - Hlen Hidx. induction rws as [|vals rws IH]; [reflexivity|].
    simpl. rewrite keep_cells_index; [|exact Hidx | apply Hlen; now left].
    f_equal. apply IH. intros v Hv. apply Hlen. now right.
Qed.

(** *** The edges of the graph object, as stored *)

Definition stored (P : Nx.keydict -> Prop) (adj : Nx.adjdict) : Prop :=
  forall n nbrs, In (n, nbrs) adj -> forall nbr kd, In (nbr, kd) nbrs -> P kd.

Lemma adj_set_stored (P : Nx.keydict -> Prop) (adj : Nx.adjdict) (u v : value)
      (kd' : Nx.keydict) :
  stored P adj -> P kd' -> stored P (Nx.adj_set adj u v kd').
Proof.
  intros Hs Hk n nbrs Hin nbr kd Hnbr. unfold Nx.adj_set in Hin.
  apply dict_set_In_value in Hin as [->|Hin]; [|exact (Hs _ _ Hin _ _ Hnbr)].
  apply dict_set_In_value in Hnbr as [->|Hnbr]; [exact Hk|].
  apply nbrs_of_In in Hnbr as [nbrs [H1 H2]]. exact (Hs _ _ H1 _ _ H2).
Qed.

Lemma ensure_node_stored (P : Nx.keydict -> Prop) (g : Nx.graph) (n : value) :
  dict_keys (Nx.g_adj g) = dict_keys (Nx.g_node g) ->
  stored P (Nx.g_adj g) -> stored P (Nx.g_adj (Nx.ensure_node g n)).
Proof.
  intros Hk Hs. unfold Nx.ensure_node.
  destruct (Nx.has_node g n) eqn:Hn; [exact Hs|]. simpl.
  apply has_node_false in Hn. rewrite <- Hk in Hn.
  rewrite (dict_set_keys_absent value_eqb_spec) by exact Hn.
  intros m nbrs Hin nbr kd Hnbr.
  apply in_app_or in Hin as [Hin|[[= _ <-]|[]]]; [|destruct Hnbr].
  exact (Hs _ _ Hin _ _ Hnbr).
Qed.

Lemma set_edge_stored (P : Nx.keydict -> Prop) (g : Nx.graph) (u v k : value)
      (a : attrs) :
  stored P (Nx.g_adj g) ->
  P (Nx.keys_of (Nx.g_adj (Nx.set_edge g u v k a)) u v) ->
  stored P (Nx.g_adj (Nx.set_edge g u v k a)).
Proof.
  intros Hs HP. rewrite keys_of_set_edge, same_pair_refl in HP.
  unfold Nx.set_edge. simpl. destruct (Nx.is_directed (Nx.g_class g)).
  - now apply adj_set_stored.
  - apply adj_set_stored; [now apply adj_set_stored | exact HP].
Qed.

Definition attrs_have (cols : list string) (kd : Nx.keydict) : Prop :=
  forall k a, In (k, a) kd -> dict_keys a = cols.

Lemma add_edge_row_stored (cols : list string) (src tgt : string)
      (g : Nx.graph) (r : series) :
  graph_inv g -> edge_attrs_inv cols g -> NoDup cols -> dict_keys r = cols ->
  stored (attrs_have cols) (Nx.g_adj g) ->
  stored (attrs_have cols) (Nx.g_adj (add_edge_row src tgt g r)).
Proof.
  intros Hinv Hattrs Hnd Hr Hs.
  destruct (add_edge_row_inv cols src tgt g r Hinv Hattrs Hnd Hr) as [_ Hattrs'].
  set (u := cell r src) in *. set (v := cell r tgt) in *.
  assert (Hinv0 : graph_inv (Nx.ensure_node g u)) by now apply ensure_node_inv.
  assert (Hs1 : stored (attrs_have cols)
                       (Nx.g_adj (Nx.ensure_node (Nx.ensure_node g u) v))).
  { apply ensure_node_stored; [apply Hinv0|].
    apply ensure_node_stored; [apply Hinv | exact Hs]. }
  specialize (Hattrs' u v). revert Hattrs'.
  unfold add_edge_row, Nx.add_edge_multi, Nx.add_edge_simple. fold u v.
  destruct (Nx.is_multigraph (Nx.g_class g)); intros Hattrs';
    apply set_edge_stored; assumption.
Qed.

Lemma edges_from_In (directed : bool) (adj : Nx.adjdict) (u v : value) (a : attrs) :
  forall seen,
    In (u, v, a) (Nx.edges_from directed seen adj) ->
    exists nbrs kd k, In (u, nbrs) adj /\ In (v, kd) nbrs /\ In (k, a) kd.
Proof.
  induction adj as [|[n nbrs] rest IH]; intros seen H; [destruct H|].
  simpl in H. apply in_app_or in H as [H|H].
  - apply in_flat_map in H as [[nbr kd] [Hnbr H]]. simpl in H.
    destruct (directed || negb (val_in nbr seen)); [|destruct H].
    apply in_map_iff in H as [[k a'] [[= <- <- <-] Hk]].
    exists nbrs, kd, k. split; [now left | now split].
  - destruct (IH _ H) as (nbrs' & kd & k & H1 & H2 & H3).
    exists nbrs', kd, k. split; [now right | now split].
Qed.

(** Every edge that the graph object of a materializable graph reports
    carries all the columns of the edges table. *)
Lemma edges_data_attrs (T : NetworkGraph.t) :
  materializable T = true ->
  forall u v a, In (u, v, a) (Nx.edges_data (build_graph T)) ->
                dict_keys a = column_names (NetworkGraph.edges T).
Proof.
  intros HM. destruct (materializable_spec T HM)
    as (Hwn & Hwe & Hnid & Hsrc & Htgt & Hkn & Hke).
  pose proof (wf_table_NoDup _ Hwn) as Hndn.
  pose proof (wf_table_NoDup _ Hwe) as Hnde.
  pose proof (fun r => iterrows_keys (NetworkGraph.nodes T) r Hwn) as Hrn.
  pose proof (fun r => iterrows_keys (NetworkGraph.edges T) r Hwe) as Hre.
  set (c := graph_class_of (NetworkGraph.graph_type T)).
  set (g0 := build_nodes c (NetworkGraph.node_id_column_name T)
                         (iterrows (NetworkGraph.nodes T))).
  destruct (build_nodes_spec c _ (NetworkGraph.node_id_column_name T) _ Hndn Hrn)
    as [Hn0 Ha0].
  destruct (build_nodes_inv c _ (NetworkGraph.node_id_column_name T) _ Hndn Hrn)
    as [Hinv0 Hko0].
  fold g0 in Hn0, Ha0, Hinv0, Hko0.
  assert (Hat0 : edge_attrs_inv (column_names (NetworkGraph.edges T)) g0).
  { intros u v k a. rewrite Hko0. intros []. }
  assert (Hs0 : stored (attrs_have (column_names (NetworkGraph.edges T)))
                       (Nx.g_adj g0)).
  { rewrite Ha0. intros n nbrs Hin nbr kd Hnbr. unfold isolated in Hin.
    apply in_map_iff in Hin as [[k a] [[= _ <-] _]]. destruct Hnbr. }
  assert (H : stored (attrs_have (column_names (NetworkGraph.edges T)))
                     (Nx.g_adj (build_graph T))).
  { unfold build_graph. fold c g0.
    revert Hinv0 Hat0 Hs0. generalize g0 as g.
    induction (iterrows (NetworkGraph.edges T)) as [|r rows IH];
      intros g Hinv Hat Hs; [exact Hs|].
    simpl fold_left.
    destruct (add_edge_row_inv _ (NetworkGraph.source_column_name T)
                               (NetworkGraph.target_column_name T) g r
                               Hinv Hat Hnde (Hre r (or_introl eq_refl)))
      as [Hinv' Hat'].
    apply IH; try assumption.
    - intros r' Hr'. apply Hre. now right.
    - apply add_edge_row_stored; try assumption. apply Hre. now left. }
  intros u v a Hin. unfold Nx.edges_data in Hin.
  apply edges_from_In in Hin as (nbrs & kd & k & H1 & H2 & H3).
  exact (H _ _ H1 _ _ H2 _ _ H3).
Qed.

Lemma keys_of_cons (n : value) (nbrs : Nx.nbrdict) (rest : Nx.adjdict)
      (u v : value) :
  Nx.keys_of ((n, nbrs) :: rest) u v
  = if value_eqb u n
    then match dict_get value_eqb v nbrs with Some kd => kd | None => [] end
    else Nx.keys_of rest u v.
Proof.
  unfold Nx.keys_of, Nx.nbrs_of. simpl. now destruct (value_eqb u n).
Qed.

(** An edge that is stored under [u] and [v] is reported when the
    iteration reaches [u], unless, in an undirected graph, the turn of [v]
    has come before. *)
Lemma edges_from_intro (directed : bool) (adj : Nx.adjdict) (u v k : value)
      (a : attrs) :
  forall seen,
    In (k, a) (Nx.keys_of adj u v) ->
    directed || negb (val_in v (seen_before seen (dict_keys adj) u)) = true ->
    In (u, v, a) (Nx.edges_from directed seen adj).
Proof.
  induction adj as [|[n nbrs] rest IH]; intros seen Hin Hturn; [destruct Hin|].
  rewrite keys_of_cons in Hin. simpl in Hturn. simpl.
  apply in_or_app. destruct (value_eqb_spec u n) as [->|Hne].
  - left. destruct (dict_get value_eqb v nbrs) as [kd|] eqn:E; [|destruct Hin].
    apply (dict_get_In value_eqb_spec) in E.
    apply in_flat_map. exists (v, kd). split; [exact E|]. simpl.
    rewrite Hturn. apply in_map_iff. exists (k, a). now split.
  - right. now apply IH.
Qed.

Lemma edges_data_In_entry (g : Nx.graph) (u v k : value) (a : attrs) :
  graph_inv g ->
  In (k, a) (Nx.keys_of (Nx.g_adj g) u v) ->
  In (u, v, a) (Nx.edges_data g)
  \/ (Nx.is_directed (Nx.g_class g) = false /\ In (v, u, a) (Nx.edges_data g)).
Proof.
  intros Hinv Hin. unfold Nx.edges_data.
  destruct (Nx.is_directed (Nx.g_class g)) eqn:Hd.
  - left. now apply (edges_from_intro true _ u v k).
  - assert (Hin' : In (k, a) (Nx.keys_of (Nx.g_adj g) v u))
      by (now rewrite <- (inv_sym g Hinv Hd u v)).
    assert (Hu : In u (dict_keys (Nx.g_adj g))).
    { destruct (val_in u (dict_keys (Nx.g_adj g))) eqn:E;
        [now apply val_in_spec|].
      apply val_in_false in E.
      rewrite (keys_of_absent _ u v E) in Hin. destruct Hin. }
    assert (Hv : In v (dict_keys (Nx.g_adj g))).
    { destruct (val_in v (dict_keys (Nx.g_adj g))) eqn:E;
        [now apply val_in_spec|].
      apply val_in_false in E.
      rewrite (keys_of_absent _ v u E) in Hin'. destruct Hin'. }
    destruct (value_eqb_spec u v) as [->|Hne].
    + left. apply (edges_from_intro false _ v v k); [exact Hin|].
      now rewrite seen_before_self.
    + destruct (seen_before_xor (dict_keys (Nx.g_adj g)) u v Hu Hv Hne [])
        as [[E1 E2]|[E1 E2]]; try (intros []).
      * right. split; [reflexivity|].
        apply (edges_from_intro false _ v u k); [exact Hin'|].
        now rewrite E2.
      * left. apply (edges_from_intro false _ u v k); [exact Hin|].
        now rewrite E1.
Qed.

(** A row of the edges table is found on its edge, whole, in a multigraph
    or when no later row joins the same pair. *)
Lemma surviving_row_stored (T : NetworkGraph.t) (pre post : list series)
      (row : series) :
  materializable T = true ->
  let src := NetworkGraph.source_column_name T in
  let tgt := NetworkGraph.target_column_name T in
  let c := graph_class_of (NetworkGraph.graph_type T) in
  iterrows (NetworkGraph.edges T) = pre ++ row :: post ->
  (Nx.is_multigraph c = true
   \/ forall r', In r' post -> matches (Nx.is_directed c) src tgt row r' = false) ->
  exists k,
    In (k, row) (Nx.keys_of (Nx.g_adj (build_graph T)) (cell row src) (cell row tgt)).
Proof.
  intros HM src tgt c Hrows Hlast.
  destruct (build_graph_spec T HM) as (_ & _ & _ & _ & Hko & _).
  fold c src tgt in Hko.
  specialize (Hko (cell row src) (cell row tgt)).
  rewrite Hrows in Hko.
  change (pre ++ row :: post) with (pre ++ [row] ++ post) in Hko.
  rewrite !pair_edges_app in Hko.
  set (kd0 := pair_edges (Nx.is_directed c) (Nx.is_multigraph c) src tgt
                         (cell row src) (cell row tgt) pre []) in Hko.
  assert (H1 : pair_edges (Nx.is_directed c) (Nx.is_multigraph c) src tgt
                          (cell row src) (cell row tgt) [row] kd0
               = keys_after_row (Nx.is_multigraph c) kd0 row).
  { unfold pair_edges. cbn [fold_left]. now rewrite same_pair_refl. }
  rewrite H1 in Hko. rewrite Hko.
  destruct (Nx.is_multigraph c) eqn:Hm.
  - destruct (pair_edges_multi_prefix (Nx.is_directed c) src tgt
                (cell row src) (cell row tgt) post
                (keys_after_row true kd0 row)) as [extra ->].
    exists (VInt (Z.of_nat (List.length kd0))). unfold keys_after_row.
    apply in_or_app. left. apply in_or_app. right. now left.
  - destruct Hlast as [Hmulti|Hlast]; [discriminate|].
    rewrite pair_edges_no_match by exact Hlast.
    exists (VInt 0). now left.
Qed.

(** *** The edges table of a graph object whose edges carry both
        end-point attributes *)

Lemma dict_get_map_renames (old new c : string) (s : series) :
  ~ In new (dict_keys s) ->
  dict_get String.eqb c (map (renames old new) s)
  = if String.eqb c new then dict_get String.eqb old s
    else if String.eqb c old then None
         else dict_get String.eqb c s.
Proof.
  induction s as [|[k v] s IH]; cbn [map dict_get dict_keys fst snd]; intros Hnew.
  - now destruct (String.eqb c new), (String.eqb c old).
  - assert (Hk : k <> new) by (simpl in Hnew; tauto).
    assert (Hs : ~ In new (dict_keys s)) by (simpl in Hnew; tauto).
    specialize (IH Hs). unfold renames at 1. cbn [fst snd].
    destruct (String.eqb_spec k old) as [->|Hko].
    + rewrite String.eqb_refl.
      destruct (String.eqb_spec c new) as [->|Hcn]; [reflexivity|].
      rewrite IH. destruct (String.eqb_spec c new); [contradiction|].
      destruct (String.eqb_spec c old); reflexivity.
    + destruct (String.eqb_spec old k) as [->|_]; [congruence|].
      destruct (String.eqb_spec c k) as [->|Hck].
      * destruct (String.eqb_spec k new); [contradiction|].
        destruct (String.eqb_spec k old); [contradiction | reflexivity].
      * exact IH.
Qed.

(** The row that [create_from_networkx_graph] makes of an edge [(u, v, a)]
    of a graph whose attribute names [names] include both end-point
    names. *)
Definition edge_series (ts tt src tgt : string) (names : list string)
           (e : value * value * attrs) : series :=
  map (renames tt tgt)
      (filter (keeps tgt)
              (map (renames ts src)
                   (filter (keeps src)
                           ((ts, fst (fst e)) :: (tt, snd (fst e))
                              :: combine names
                                   (map (attr_or_nan (snd e)) names))))).

Lemma filter_keeps_not_In (name : string) (s : series) :
  ~ In name (dict_keys (filter (keeps name) s)).
Proof.
  rewrite filter_keeps_keys. intros H. apply filter_In in H as [_ H].
  now rewrite String.eqb_refl in H.
Qed.

Lemma edge_series_get (ts tt src tgt : string) (names : list string)
      (u v : value) (a : attrs) :
  In src names -> In tgt names -> ~ In ts names -> ~ In tt names -> ts <> tt ->
  cell (edge_series ts tt src tgt names (u, v, a)) tgt = v
  /\ (src <> tgt -> cell (edge_series ts tt src tgt names (u, v, a)) src = u)
  /\ forall c, In c names -> c <> src -> c <> tgt ->
               cell (edge_series ts tt src tgt names (u, v, a)) c
               = attr_or_nan a c.
Proof.
  intros Hsrc Htgt Hts Htt Hne.
  assert (E1 : src <> ts) by congruence.
  assert (E2 : src <> tt) by congruence.
  assert (E3 : tgt <> ts) by congruence.
  assert (E4 : tgt <> tt) by congruence.
  assert (Hget : forall c,
             dict_get String.eqb c (edge_series ts tt src tgt names (u, v, a))
             = if String.eqb c tgt then Some v
               else if String.eqb c tt then None
               else if String.eqb c src then Some u
               else if String.eqb c ts then None
               else dict_get String.eqb c
                             (combine names (map (attr_or_nan a) names))).
  { intros c. unfold edge_series.
    rewrite dict_get_map_renames by apply filter_keeps_not_In.
    rewrite !dict_get_filter_keeps.
    rewrite !dict_get_map_renames by apply filter_keeps_not_In.
    rewrite !dict_get_filter_keeps. cbn [fst snd dict_get].
    repeat match goal with
           | |- context [String.eqb ?x ?y] =>
               destruct (String.eqb_spec x y); subst; try congruence
           end. }
  unfold cell, attr_or_nan, attrs_get. split; [|split].
  - rewrite Hget. now rewrite String.eqb_refl.
  - intros Hst. rewrite Hget.
    destruct (String.eqb_spec src tgt); [contradiction|].
    destruct (String.eqb_spec src tt); [contradiction|].
    now rewrite String.eqb_refl.
  - intros c Hc Hcs Hct. rewrite Hget.
    destruct (String.eqb_spec c tgt); [contradiction|].
    destruct (String.eqb_spec c tt); [congruence|].
    destruct (String.eqb_spec c src); [contradiction|].
    destruct (String.eqb_spec c ts); [congruence|].
    now rewrite dict_get_combine_map.
Qed.

Ltac string_cases :=
  repeat match goal with
         | |- context [String.eqb ?x ?y] =>
             destruct (String.eqb_spec x y); subst; try congruence
         | H : context [String.eqb ?x ?y] |- _ =>
             destruct (String.eqb_spec x y); subst; try congruence
         end.

Lemma final_columns_In (ts tt src tgt : string) (names : list string) (c : string) :
  In src names -> In tgt names -> ~ In ts names -> ~ In tt names -> ts <> tt ->
  In c (map (fun c => if String.eqb c tt then tgt else c)
            (filter (fun c => negb (String.eqb c tgt))
                    (map (fun c => if String.eqb c ts then src else c)
                         (filter (fun c => negb (String.eqb c src))
                                 (ts :: tt :: names)))))
  <-> In c names.
Proof.
  intros Hsrc Htgt Hts Htt Hne.
  assert (E1 : src <> ts) by congruence.
  assert (E2 : src <> tt) by congruence.
  assert (E3 : tgt <> ts) by congruence.
  assert (E4 : tgt <> tt) by congruence.
  split.
  - intros H. apply in_map_iff in H as [c1 [<- H]].
    apply filter_In in H as [H Hc1]. apply in_map_iff in H as [c2 [<- H]].
    apply filter_In in H as [H Hc2].
    destruct H as [<-|[<-|H]]; string_cases; try assumption; try discriminate.
  - intros Hc.
    destruct (String.eqb_spec c tgt) as [->|Hct];
      [|destruct (String.eqb_spec c src) as [->|Hcs]].
    + apply in_map_iff. exists tt. split; [now rewrite String.eqb_refl|].
      apply filter_In. split; [|string_cases; reflexivity].
      apply in_map_iff. exists tt. split; [string_cases; reflexivity|].
      apply filter_In. split; [right; now left | string_cases; reflexivity].
    + apply in_map_iff. exists src. split; [string_cases; reflexivity|].
      apply filter_In. split; [|string_cases; reflexivity].
      apply in_map_iff. exists ts. split; [now rewrite String.eqb_refl|].
      apply filter_In. split; [now left | string_cases; reflexivity].
    + assert (c <> ts) by congruence. assert (c <> tt) by congruence.
      apply in_map_iff. exists c. split; [string_cases; reflexivity|].
      apply filter_In. split; [|string_cases; reflexivity].
      apply in_map_iff. exists c. split; [string_cases; reflexivity|].
      apply filter_In. split; [now do 2 right | string_cases; reflexivity].
Qed.

(** The edges step on a graph whose edges carry attributes with the names
    of both end-point columns: both attribute columns are dropped, both
    temporary columns take their names. *)
Lemma edges_table_of_graph_both (ts tt : string) (g : Nx.graph)
      (src tgt : string) :
  let names := Nx.all_attrs (map snd (Nx.edges_data g)) in
  In src names -> In tgt names -> ~ In ts names -> ~ In tt names -> ts <> tt ->
  exists E,
    NetworkGraph.edges_table_of_graph ts tt g src tgt = Ok E
    /\ (forall c, In c (column_names E) <-> In c names)
    /\ num_rows E = List.length (Nx.edges_data g)
    /\ iterrows E = map (edge_series ts tt src tgt names) (Nx.edges_data g).
Proof.
  intros names Hsrc Htgt Hts Htt Hne.
  unfold NetworkGraph.edges_table_of_graph, Nx.to_pandas_edgelist. fold names.
  rewrite (proj2 (str_in_false _ _) Hts), (proj2 (str_in_false _ _) Htt).
  destruct (String.eqb_spec ts tt) as [|_]; [contradiction|].
  cbn [bind].
  set (df0 := {| column_names := ts :: tt :: names; rows := _ |}).
  assert (Hc0 : column_names df0 = ts :: tt :: names) by reflexivity.
  assert (Hi0 : iterrows df0
                = map (fun e : value * value * attrs =>
                         (ts, fst (fst e)) :: (tt, snd (fst e))
                           :: combine names (map (attr_or_nan (snd e)) names))
                      (Nx.edges_data g)).
  { unfold iterrows, df0. simpl. rewrite map_map. reflexivity. }
  assert (Hn0 : num_rows df0 = List.length (Nx.edges_data g))
    by (unfold num_rows; simpl; apply length_map).
  assert (H0 : In src (column_names df0)) by (rewrite Hc0; now do 2 right).
  rewrite (proj2 (str_in_spec _ _) H0).
  destruct (df_drop_Ok src df0 H0) as (df1 & Hd1 & Hc1 & Hi1 & Hn1).
  rewrite Hd1. cbn [bind].
  destruct (df_rename_spec ts src df1) as (Hc1' & Hi1' & Hn1').
  set (df1' := df_rename ts src df1) in *.
  assert (H1 : In tgt (column_names df1')).
  { rewrite Hc1', Hc1, Hc0. apply in_map_iff.
    destruct (String.eqb_spec tgt src) as [->|Hts'].
    - exists ts. split; [now rewrite String.eqb_refl|].
      apply filter_In. split; [now left|].
      destruct (String.eqb_spec ts src); [congruence | reflexivity].
    - exists tgt. split; [destruct (String.eqb_spec tgt ts); congruence|].
      apply filter_In. split; [now do 2 right|].
      destruct (String.eqb_spec tgt src); [contradiction | reflexivity]. }
  rewrite (proj2 (str_in_spec _ _) H1).
  destruct (df_drop_Ok tgt df1' H1) as (df2 & Hd2 & Hc2 & Hi2 & Hn2).
  rewrite Hd2. cbn [bind].
  destruct (df_rename_spec tt tgt df2) as (Hc3 & Hi3 & Hn3).
  unfold create_table. eexists. split; [reflexivity|]. split; [|split].
  - intros c. rewrite Hc3, Hc2, Hc1', Hc1, Hc0. now apply final_columns_In.
  - now rewrite Hn3, Hn2, Hn1', Hn1.
  - rewrite Hi3, Hi2, Hi1', Hi1, Hi0. rewrite !map_map. reflexivity.
Qed.

(** ** C1: the round trip *)

(** C1 as the specification words it, for the graph that
    [create_from_tables] makes of the tables [E] and [N]: the round trip
    returns a graph with the same number of nodes; its number of edges is
    the same in a multigraph or when no two rows join the same pair; every
    node row and every edge row that no later row overwrites is found
    again, cell by cell. *)
Definition round_trip_reproduces (ts tt : string) (gt : GraphType) (E : table)
           (N : option table_object) (src tgt nid : string) : Prop :=
  forall T,
    NetworkGraph.create_from_tables gt E N src tgt nid = Ok T ->
    let c := graph_class_of gt in
    exists g T',
      NetworkGraph.as_networkx_graph T = Ok g
      /\ NetworkGraph.create_from_networkx_graph ts tt (NxObject g) src tgt nid
         = Ok T'
      /\ NetworkGraph.num_nodes T' = NetworkGraph.num_nodes T
      /\ (Nx.is_multigraph c = true
          \/ no_repeated_pair (Nx.is_directed c) src tgt
                              (iterrows (NetworkGraph.edges T)) = true ->
          NetworkGraph.num_edges T' = NetworkGraph.num_edges T)
      /\ (forall pre row post,
             iterrows (NetworkGraph.nodes T) = pre ++ row :: post ->
             (forall r', In r' post -> cell r' nid <> cell row nid) ->
             exists row',
               In row' (iterrows (NetworkGraph.nodes T'))
               /\ forall col, In col (column_names (NetworkGraph.nodes T)) ->
                              cell row' col = cell row col)
      /\ (forall pre row post,
             iterrows (NetworkGraph.edges T) = pre ++ row :: post ->
             (Nx.is_multigraph c = true
              \/ forall r', In r' post ->
                            matches (Nx.is_directed c) src tgt row r' = false) ->
             exists row',
               In row' (iterrows (NetworkGraph.edges T'))
               /\ forall col, In col (column_names (NetworkGraph.edges T)) ->
                              col <> src -> col <> tgt ->
                              cell row' col = cell row col).

(** An edge from [A] to [B], and a nodes table that lists [A] only. *)
Definition edge_to_unlisted_node : table :=
  {| column_names := ["source"; "target"];
     rows := [[VStr "A"; VStr "B"]] |}.

Definition one_listed_node : table :=
  {| column_names := ["id"; "label"];
     rows := [[VStr "A"; VStr "first"]] |}.

Example unlisted_node_round_trip :
  (T <- NetworkGraph.create_from_tables DIRECTED edge_to_unlisted_node
                                        (Some (Arrow one_listed_node))
                                        "source" "target" "id" ;;
   g <- NetworkGraph.as_networkx_graph T ;;
   T' <- NetworkGraph.create_from_networkx_graph uuid_1 uuid_2 (NxObject g)
                                                 "source" "target" "id" ;;
   Ok (NetworkGraph.num_nodes T, NetworkGraph.nodes T'))
  = Ok (1, {| column_names := ["id"; "label"];
              rows := [[VStr "A"; VStr "first"]; [VNaN; VNaN]] |}).
Proof. vm_compute. reflexivity. Qed.


(** The graphs on which the round trip is taken: a materializable graph
    with at least one edge row, whose nodes table lists every end point, no
    identifier twice, and has no column with the name of the placeholder or
    of the index column; the two temporary names differ and name no column
    of the edges table. *)
Definition round_trip_ready (temp_source temp_target : string)
           (T : NetworkGraph.t) : bool :=
  let src := NetworkGraph.source_column_name T in
  let tgt := NetworkGraph.target_column_name T in
  let ids := column_values (NetworkGraph.nodes T)
                           (NetworkGraph.node_id_column_name T) in
  materializable T
  && negb (Nat.eqb (NetworkGraph.num_edges T) 0)
  && distinct_vals ids
  && forallb (fun r => val_in (cell r src) ids && val_in (cell r tgt) ids)
             (iterrows (NetworkGraph.edges T))
  && negb (str_in NetworkGraph.placeholder (column_names (NetworkGraph.nodes T)))
  && negb (str_in "index" (column_names (NetworkGraph.nodes T)))
  && negb (str_in temp_source (column_names (NetworkGraph.edges T)))
  && negb (str_in temp_target (column_names (NetworkGraph.edges T)))
  && negb (String.eqb temp_source temp_target).

Lemma graph_type_of_class_of (gt : GraphType) :
  graph_type_of_class (graph_class_of gt) = gt.
Proof. now destruct gt. Qed.

Lemma merged_count_pos (directed : bool) (src tgt : string) (rows : list series) :
  rows <> [] -> 1 <= merged_count directed src tgt [] rows.
Proof. destruct rows as [|r rows]; [congruence|]. intros _. simpl. lia. Qed.

Lemma iterrows_length (t : table) : List.length (iterrows t) = num_rows t.
Proof. unfold iterrows, num_rows. apply length_map. Qed.



(** ** C9: the end-point columns of the edges table *)

(** The edges step gives both end points their column names only when the
    edges carry attributes with both names. *)
Lemma edges_table_of_graph_not_both (ts tt : string) (g : Nx.graph)
      (src tgt : string) :
  let names := Nx.all_attrs (map snd (Nx.edges_data g)) in
  ~ In ts names -> ~ In tt names -> ts <> tt ->
  ~ In src [ts; tt] -> ~ In tgt [ts; tt] ->
  ~ (In src names /\ In tgt names) ->
  exists E,
    NetworkGraph.edges_table_of_graph ts tt g src tgt = Ok E
    /\ (str_in src (column_names E) = false
        \/ str_in tgt (column_names E) = false).
Proof.
  intros names Hts Htt Hne Hsrc Htgt Hnot.
  assert (E1 : src <> ts) by (intros ->; apply Hsrc; now left).
  assert (E2 : src <> tt) by (intros ->; apply Hsrc; right; now left).
  assert (E3 : tgt <> ts) by (intros ->; apply Htgt; now left).
  assert (E4 : tgt <> tt) by (intros ->; apply Htgt; right; now left).
  unfold NetworkGraph.edges_table_of_graph, Nx.to_pandas_edgelist. fold names.
  rewrite (proj2 (str_in_false _ _) Hts), (proj2 (str_in_false _ _) Htt).
  destruct (String.eqb_spec ts tt) as [|_]; [contradiction|].
  cbn [bind].
  set (df0 := {| column_names := ts :: tt :: names; rows := _ |}).
  assert (Hc0 : column_names df0 = ts :: tt :: names) by reflexivity.
  destruct (str_in src (column_names df0)) eqn:Es.
  - apply str_in_spec in Es.
    assert (Hs : In src names).
    { rewrite Hc0 in Es. destruct Es as [E|[E|H]]; congruence. }
    assert (Ht : ~ In tgt names) by tauto.
    destruct (df_drop_Ok src df0 Es) as (df1 & Hd1 & Hc1 & _).
    rewrite Hd1. cbn [bind].
    destruct (df_rename_spec ts src df1) as (Hc1' & _).
    assert (H1 : str_in tgt (column_names (df_rename ts src df1)) = false).
    { apply str_in_false. rewrite Hc1', Hc1, Hc0. intros H.
      apply in_map_iff in H as [c [Hc H]]. apply filter_In in H as [H _].
      destruct (String.eqb_spec c ts) as [Ec|Hcts]; [congruence|].
      rewrite Hc in H. destruct H as [E|[E|H]]; congruence. }
    rewrite H1. cbn [bind]. unfold create_table.
    eexists. split; [reflexivity | now right].
  - cbn [bind]. destruct (str_in tgt (column_names df0)) eqn:Et.
    + apply str_in_spec in Et.
      destruct (df_drop_Ok tgt df0 Et) as (df2 & Hd2 & Hc2 & _).
      rewrite Hd2. cbn [bind]. unfold create_table.
      destruct (df_rename_spec tt tgt df2) as (Hc3 & _).
      eexists. split; [reflexivity|]. left.
      apply str_in_false. rewrite Hc3, Hc2. intros H.
      apply str_in_false in Es.
      apply in_map_iff in H as [c [Hc H]]. apply filter_In in H as [H _].
      destruct (String.eqb_spec c tt) as [Ec|Hctt].
      * rewrite Hc in Et. contradiction.
      * rewrite Hc in H. contradiction.
    + unfold create_table. eexists. split; [reflexivity | now left].
Qed.

(** C9, as the code has it: the temporary end-point column is renamed
    only where an attribute column of that name has been dropped.  So, with
    temporary names that differ from each other, from every edge attribute
    name and from the two column names, [create_from_networkx_graph]
    raises an exception and returns no graph unless the edges carry an
    attribute named like the source column and an attribute named like the
    target column; a graph whose edges carry only one of the two, or
    neither, is rejected. *)
Theorem endpoint_columns_need_both_attributes (ts tt : string) (g : Nx.graph)
        (src tgt nid : string) :
  let names := Nx.all_attrs (map snd (Nx.edges_data g)) in
  ~ In ts names -> ~ In tt names -> ts <> tt ->
  ~ In src [ts; tt] -> ~ In tgt [ts; tt] ->
  ~ (In src names /\ In tgt names) ->
  exists e,
    NetworkGraph.create_from_networkx_graph ts tt (NxObject g) src tgt nid
    = Raise e.
Proof.
  intros names Hts Htt Hne Hsrc Htgt Hnot.
  destruct (edges_table_of_graph_not_both ts tt g src tgt
                                          Hts Htt Hne Hsrc Htgt Hnot)
    as (E & HE & Hmiss).
  unfold NetworkGraph.create_from_networkx_graph.
  rewrite graph_type_of_object_class. cbn [bind graph_of].
  rewrite HE. cbn [bind].
  destruct (NetworkGraph.nodes_table_of_graph g nid) as [N|e]; cbn [bind];
    [|now eexists].
  unfold NetworkGraph.create_from_tables, create_table.
  destruct (str_in src (column_names E)) eqn:Es; simpl; [|now eexists].
  destruct (str_in tgt (column_names E)) eqn:Et; simpl; [|now eexists].
  destruct Hmiss; discriminate.
Qed.

Lemma endpoint_columns_need_both_attributes_witness :
  exists e,
    NetworkGraph.create_from_networkx_graph
      uuid_1 uuid_2 (NxObject (one_edge_digraph [("source", VInt 7)]))
      "source" "target" "id"
    = Raise e.
Proof.
  apply (endpoint_columns_need_both_attributes
           uuid_1 uuid_2 (one_edge_digraph [("source", VInt 7)])
           "source" "target" "id").
  - vm_compute. intros [H|[]]. discriminate.
  - vm_compute. intros [H|[]]. discriminate.
  - discriminate.
  - intros [H|[H|[]]]; discriminate.
  - intros [H|[H|[]]]; discriminate.
  - vm_compute. intros [_ [H|[]]]. discriminate.
Defined.

(** * Further properties *)

(** ** The nodes of the graph object *)

Lemma first_seen_ext (seen seen' l : list value) :
  (forall x, In x seen <-> In x seen') -> first_seen seen l = first_seen seen' l.
Proof.
  revert seen seen'. induction l as [|y l IH]; intros seen seen' H; simpl;
    [reflexivity|].
  assert (E : val_in y seen = val_in y seen').
  { destruct (val_in y seen') eqn:E'.
    - apply val_in_spec. apply H. now apply val_in_spec.
    - apply val_in_false. rewrite H. now apply val_in_false. }
  rewrite E. destruct (val_in y seen'); [now apply IH|].
  f_equal. apply IH. intros x. simpl. now rewrite H.
Qed.

(** The keys of a dict to which the values of [l] are added as keys, one
    after the other, where they are new. *)
Definition keys_with (keys l : list value) : list value :=
  keys ++ first_seen keys l.

Lemma keys_with_cons (keys l : list value) (x : value) :
  keys_with keys (x :: l)
  = keys_with (if val_in x keys then keys else keys ++ [x]) l.
Proof.
  unfold keys_with. simpl. destruct (val_in x keys) eqn:E; [reflexivity|].
  rewrite <- app_assoc. simpl. do 2 f_equal. apply first_seen_ext.
  intros y. rewrite in_app_iff. simpl. tauto.
Qed.

Lemma keys_with_app (keys l1 l2 : list value) :
  keys_with (keys_with keys l1) l2 = keys_with keys (l1 ++ l2).
Proof.
  revert keys. induction l1 as [|x l1 IH]; intros keys.
  - unfold keys_with at 2. simpl. now rewrite app_nil_r.
  - simpl app. now rewrite !keys_with_cons, IH.
Qed.

Lemma ensure_node_node_keys (g : Nx.graph) (n : value) :
  dict_keys (Nx.g_node (Nx.ensure_node g n))
  = if val_in n (dict_keys (Nx.g_node g))
    then dict_keys (Nx.g_node g)
    else dict_keys (Nx.g_node g) ++ [n].
Proof.
  unfold Nx.ensure_node. destruct (Nx.has_node g n) eqn:Hn.
  - apply has_node_spec, val_in_spec in Hn. now rewrite Hn.
  - apply has_node_false in Hn. simpl.
    rewrite (dict_set_keys_absent value_eqb_spec) by exact Hn.
    apply val_in_false in Hn. rewrite Hn.
    unfold dict_keys. now rewrite map_app.
Qed.

Lemma add_node_row_node_keys (nid : string) (g : Nx.graph) (r : series) :
  dict_keys (Nx.g_node (add_node_row nid g r))
  = dict_keys (Nx.g_node (Nx.ensure_node g (cell r nid))).
Proof.
  unfold add_node_row, Nx.add_node_body. simpl.
  assert (H : In (cell r nid)
                 (dict_keys (Nx.g_node (Nx.ensure_node g (cell r nid)))))
    by apply ensure_node_has.
  now rewrite (dict_set_keys_present value_eqb_spec).
Qed.

Lemma build_nodes_keys (nid : string) (node_rows : list series) (g : Nx.graph) :
  dict_keys (Nx.g_node (fold_left (add_node_row nid) node_rows g))
  = keys_with (dict_keys (Nx.g_node g)) (map (fun r => cell r nid) node_rows).
Proof.
  revert g. induction node_rows as [|r l IH]; intros g.
  - unfold keys_with. simpl. now rewrite app_nil_r.
  - simpl fold_left. simpl map.
    rewrite IH, keys_with_cons, add_node_row_node_keys.
    now rewrite ensure_node_node_keys.
Qed.

Lemma build_edges_keys (src tgt : string) (edge_rows : list series)
      (g : Nx.graph) :
  dict_keys (Nx.g_node (build_edges src tgt edge_rows g))
  = keys_with (dict_keys (Nx.g_node g))
              (flat_map (fun r => [cell r src; cell r tgt]) edge_rows).
Proof.
  revert g. unfold build_edges. induction edge_rows as [|r l IH]; intros g.
  - unfold keys_with. simpl. now rewrite app_nil_r.
  - simpl fold_left. cbn [flat_map app].
    rewrite IH, !keys_with_cons, add_edge_row_node.
    now rewrite !ensure_node_node_keys.
Qed.

(** A node that the edges add has no attribute. *)
Lemma ensure_node_get_inv (g : Nx.graph) (n m : value) (a : attrs) :
  dict_get value_eqb m (Nx.g_node (Nx.ensure_node g n)) = Some a ->
  dict_get value_eqb m (Nx.g_node g) = Some a \/ a = [].
Proof.
  unfold Nx.ensure_node. destruct (Nx.has_node g n) eqn:Hn; [now left|].
  simpl. destruct (value_eqb_spec m n) as [->|Hne].
  - rewrite (dict_get_set_same value_eqb_spec). intros [= <-]. now right.
  - rewrite (dict_get_set_other value_eqb_spec) by exact Hne. now left.
Qed.

Lemma build_edges_get_inv (src tgt : string) (edge_rows : list series)
      (g : Nx.graph) (m : value) (a : attrs) :
  dict_get value_eqb m (Nx.g_node (build_edges src tgt edge_rows g)) = Some a ->
  dict_get value_eqb m (Nx.g_node g) = Some a \/ a = [].
Proof.
  revert g. unfold build_edges. induction edge_rows as [|r l IH]; intros g H;
    [now left|].
  simpl in H. apply IH in H as [H|H]; [|now right].
  rewrite add_edge_row_node in H.
  apply ensure_node_get_inv in H as [H|H]; [|now right].
  now apply ensure_node_get_inv in H.
Qed.


(** An edge from [A] to [B], and a nodes table that lists [A] only. *)
Definition unlisted_end_point_graph : NetworkGraph.t :=
  {| NetworkGraph.graph_type := DIRECTED;
     NetworkGraph.source_column_name := "source";
     NetworkGraph.target_column_name := "target";
     NetworkGraph.node_id_column_name := "id";
     NetworkGraph.edges := edge_to_unlisted_node;
     NetworkGraph.nodes := one_listed_node |}.


(** ** The edges of the graph object *)

(** The rows that join [x] and [y], in row order. *)
Definition joining (directed : bool) (src tgt : string) (x y : value)
           (edge_rows : list series) : list series :=
  filter (fun r => same_pair directed x y (cell r src) (cell r tgt)) edge_rows.

Definition last_row (l : list series) : option series :=
  match rev l with
  | [] => None
  | r :: _ => Some r
  end.

Lemma pair_edges_joining (directed multi : bool) (src tgt : string)
      (x y : value) (edge_rows : list series) (kd : Nx.keydict) :
  pair_edges directed multi src tgt x y edge_rows kd
  = fold_left (keys_after_row multi)
              (joining directed src tgt x y edge_rows) kd.
Proof.
  revert kd. unfold pair_edges, joining.
  induction edge_rows as [|r l IH]; intros kd; [reflexivity|].
  cbn [fold_left filter].
  destruct (same_pair directed x y (cell r src) (cell r tgt)); cbn [fold_left];
    apply IH.
Qed.

Lemma keys_after_rows_multi (rows : list series) (kd : Nx.keydict) :
  fold_left (keys_after_row true) rows kd
  = kd ++ combine (map (fun i => VInt (Z.of_nat i))
                       (seq (List.length kd) (List.length rows)))
                  rows.
Proof.
  revert kd. induction rows as [|r l IH]; intros kd; simpl.
  - now rewrite app_nil_r.
  - rewrite IH. unfold keys_after_row. rewrite <- app_assoc, length_app.
    simpl. now rewrite Nat.add_1_r.
Qed.

Lemma keys_after_rows_simple (rows : list series) (kd : Nx.keydict) :
  fold_left (keys_after_row false) rows kd
  = match last_row rows with
    | Some r => [(VInt 0, r)]
    | None => kd
    end.
Proof.
  revert kd. unfold last_row. induction rows as [|r l IH]; intros kd;
    [reflexivity|].
  simpl. rewrite IH. unfold keys_after_row.
  destruct (rev l) as [|r' l']; reflexivity.
Qed.



(** ** Columns named like a parameter of [add_node] or [add_edge] *)

Definition node_body (nid : string) (graph : Nx.graph) (row : series)
  : result Nx.graph :=
  n <- series_getitem row nid ;;
  Nx.add_node graph n (series_to_dict row).

Definition edge_body (src tgt : string) (graph : Nx.graph) (row : series)
  : result Nx.graph :=
  u <- series_getitem row src ;;
  v <- series_getitem row tgt ;;
  Nx.add_edge graph u v (series_to_dict row).

(** The two loops of [as_networkx_graph]. *)
Lemma as_networkx_graph_loops (T : NetworkGraph.t) :
  NetworkGraph.as_networkx_graph T
  = (g1 <- for_each (node_body (NetworkGraph.node_id_column_name T))
                    (iterrows (NetworkGraph.nodes T))
                    (Nx.empty (graph_class_of (NetworkGraph.graph_type T))) ;;
     for_each (edge_body (NetworkGraph.source_column_name T)
                         (NetworkGraph.target_column_name T))
              (iterrows (NetworkGraph.edges T)) g1).
Proof.
  unfold NetworkGraph.as_networkx_graph, to_pandas, arrow_table.
  unfold node_body, edge_body.
  destruct (NetworkGraph.graph_type T); simpl;
    match goal with
    | |- context [for_each ?b (iterrows (NetworkGraph.nodes T)) ?g] =>
        destruct (for_each b (iterrows (NetworkGraph.nodes T)) g) as [g1|e]
    end; simpl; try reflexivity;
    match goal with
    | |- context [for_each ?b ?l ?g] => destruct (for_each b l g)
    end; reflexivity.
Qed.

Lemma bind_kwargs_Raise (fname : string) (params : list string) (kw : attrs)
      (p : string) :
  In p params -> In p (dict_keys kw) ->
  exists q,
    In q params /\ In q (dict_keys kw)
    /\ bind_kwargs fname params kw
       = Raise (TypeError (fname ++ "() got multiple values for argument '"
                             ++ q ++ "'")).
Proof.
  intros Hp Hk. unfold bind_kwargs.
  destruct (find (fun kv : string * value => str_in (fst kv) params) kw)
    as [kv|] eqn:E.
  - apply find_some in E. destruct E as [Hin Hq].
    exists (fst kv). split; [now apply str_in_spec|].
    split; [unfold dict_keys; now apply in_map | reflexivity].
  - unfold dict_keys in Hk. apply in_map_iff in Hk.
    destruct Hk as (kv & <- & Hin).
    pose proof (find_none _ _ E kv Hin) as Hn. cbn beta in Hn.
    apply str_in_false in Hn. contradiction.
Qed.

Lemma iterrows_nonempty (t : table) :
  rows t <> [] -> exists row l, iterrows t = row :: l.
Proof.
  unfold iterrows. destruct (rows t) as [|r l]; [congruence|].
  intros _. simpl. now eexists; eexists.
Qed.

(** [as_networkx_graph] on a nodes table with a column named [self] or
    [node_for_adding]: the first node row makes [add_node] raise a
    [TypeError], since the row is passed as keyword arguments and the name
    is bound already.  The message names the method by its qualified name,
    [Graph.add_node] or [DiGraph.add_node]. *)
Theorem reserved_node_column (T : NetworkGraph.t) (p : string) :
  wf_table (NetworkGraph.nodes T) = true ->
  In (NetworkGraph.node_id_column_name T) (column_names (NetworkGraph.nodes T)) ->
  rows (NetworkGraph.nodes T) <> [] ->
  In p ["self"; "node_for_adding"] ->
  In p (column_names (NetworkGraph.nodes T)) ->
  exists q,
    In q ["self"; "node_for_adding"]
    /\ In q (column_names (NetworkGraph.nodes T))
    /\ NetworkGraph.as_networkx_graph T
       = Raise (TypeError
                  (Nx.add_node_qualname
                     (graph_class_of (NetworkGraph.graph_type T))
                     ++ "() got multiple values for argument '" ++ q ++ "'")).
Proof.
  intros Hwf Hnid Hrows Hp Hcol.
  destruct (iterrows_nonempty _ Hrows) as (row & l & Hit).
  assert (Hrow : In row (iterrows (NetworkGraph.nodes T)))
    by (rewrite Hit; now left).
  pose proof (iterrows_keys _ _ Hwf Hrow) as Hkeys.
  destruct (bind_kwargs_Raise
              (Nx.add_node_qualname
                 (graph_class_of (NetworkGraph.graph_type T)))
              ["self"; "node_for_adding"] row p Hp)
    as (q & Hq1 & Hq2 & Hq3); [now rewrite Hkeys|].
  exists q. split; [exact Hq1|]. split; [now rewrite <- Hkeys|].
  rewrite as_networkx_graph_loops, Hit. cbn [for_each].
  unfold node_body at 1.
  rewrite series_getitem_cell by (now rewrite Hkeys). cbn [bind].
  rewrite (series_to_dict_id _ _ Hwf Hrow). unfold Nx.add_node.
  cbn [Nx.g_class Nx.empty]. rewrite Hq3. reflexivity.
Qed.

Definition self_column_graph : NetworkGraph.t :=
  {| NetworkGraph.graph_type := DIRECTED;
     NetworkGraph.source_column_name := "source";
     NetworkGraph.target_column_name := "target";
     NetworkGraph.node_id_column_name := "id";
     NetworkGraph.edges :=
       {| column_names := ["source"; "target"]; rows := [[VInt 1; VInt 2]] |};
     NetworkGraph.nodes :=
       {| column_names := ["id"; "node_for_adding"];
          rows := [[VInt 1; VStr "x"]; [VInt 2; VStr "y"]] |} |}.

Lemma reserved_node_column_witness :
  exists q,
    NetworkGraph.as_networkx_graph self_column_graph
    = Raise (TypeError ("DiGraph.add_node() got multiple values for argument '"
                          ++ q ++ "'")).
Proof.
  destruct (reserved_node_column self_column_graph "node_for_adding")
    as (q & _ & _ & H).
  - reflexivity.
  - now left.
  - discriminate.
  - right. now left.
  - right. now left.
  - now exists q.
Defined.

(** The positional parameters of [add_edge]. *)
Definition edge_positional (c : Nx.graph_class) : list string :=
  if Nx.is_multigraph c
  then ["self"; "u_for_edge"; "v_for_edge"]
  else ["self"; "u_of_edge"; "v_of_edge"].

Lemma nodes_loop_Ok (c : Nx.graph_class) (t : table) (nid : string) :
  wf_table t = true -> In nid (column_names t) ->
  (forall k, In k node_keywords -> ~ In k (column_names t)) ->
  no_null (column_values t nid) = true ->
  for_each (node_body nid) (iterrows t) (Nx.empty c)
  = Ok (build_nodes c nid (iterrows t)).
Proof.
  intros Hwf Hnid Hkw Hnn.
  destruct (for_each_fold (fun _ : Nx.graph => True) (node_body nid)
                          (add_node_row nid) (iterrows t) (Nx.empty c) I)
    as [H _]; [|exact H].
  intros g row _ Hrow. split; [|exact I].
  pose proof (iterrows_keys _ _ Hwf Hrow) as Hkeys.
  unfold node_body. rewrite series_getitem_cell by (now rewrite Hkeys).
  cbn [bind]. rewrite (series_to_dict_id _ _ Hwf Hrow). unfold Nx.add_node.
  rewrite bind_kwargs_Ok by (intros k Hk; rewrite Hkeys; now apply Hkw).
  cbn [bind]. now rewrite (no_null_cells _ _ _ Hnn Hrow).
Qed.

(** [as_networkx_graph] on an edges table with a column named like a
    positional parameter of [add_edge] ([self], [u_of_edge] and [v_of_edge]
    for the simple types, [self], [u_for_edge] and [v_for_edge] for the
    multigraph types), where no node identifier is null: once the nodes are
    added, the first edge row makes [add_edge] raise a [TypeError].  The
    message names the method by its qualified name, the class of the graph
    before [add_edge]. *)
Theorem reserved_edge_column (T : NetworkGraph.t) (p : string) :
  let c := graph_class_of (NetworkGraph.graph_type T) in
  wf_table (NetworkGraph.nodes T) = true ->
  In (NetworkGraph.node_id_column_name T) (column_names (NetworkGraph.nodes T)) ->
  (forall k, In k ["self"; "node_for_adding"] ->
             ~ In k (column_names (NetworkGraph.nodes T))) ->
  no_null (column_values (NetworkGraph.nodes T)
                         (NetworkGraph.node_id_column_name T)) = true ->
  wf_table (NetworkGraph.edges T) = true ->
  In (NetworkGraph.source_column_name T) (column_names (NetworkGraph.edges T)) ->
  In (NetworkGraph.target_column_name T) (column_names (NetworkGraph.edges T)) ->
  rows (NetworkGraph.edges T) <> [] ->
  In p (edge_positional c) ->
  In p (column_names (NetworkGraph.edges T)) ->
  exists q,
    In q (edge_positional c)
    /\ In q (column_names (NetworkGraph.edges T))
    /\ NetworkGraph.as_networkx_graph T
       = Raise (TypeError
                  (Nx.add_edge_qualname c
                     ++ "() got multiple values for argument '" ++ q ++ "'")).
Proof.
  intros c Hwn Hnid Hkn Hnn Hwe Hsrc Htgt Hrows Hp Hcol.
  destruct (iterrows_nonempty _ Hrows) as (row & l & Hit).
  assert (Hrow : In row (iterrows (NetworkGraph.edges T)))
    by (rewrite Hit; now left).
  pose proof (iterrows_keys _ _ Hwe Hrow) as Hkeys.
  destruct (bind_kwargs_Raise (Nx.add_edge_qualname c) (edge_positional c)
                              row p Hp)
    as (q & Hq1 & Hq2 & Hq3); [now rewrite Hkeys|].
  exists q. split; [exact Hq1|]. split; [now rewrite <- Hkeys|].
  rewrite as_networkx_graph_loops. fold c.
  rewrite (nodes_loop_Ok c _ _ Hwn Hnid Hkn Hnn). cbn [bind].
  rewrite Hit. cbn [for_each]. unfold edge_body at 1.
  rewrite !series_getitem_cell by (now rewrite Hkeys). cbn [bind].
  rewrite (series_to_dict_id _ _ Hwe Hrow). unfold Nx.add_edge.
  rewrite build_nodes_class. unfold edge_positional in Hq3.
  destruct (Nx.is_multigraph c); rewrite Hq3; reflexivity.
Qed.

Definition u_of_edge_column_graph : NetworkGraph.t :=
  {| NetworkGraph.graph_type := UNDIRECTED;
     NetworkGraph.source_column_name := "source";
     NetworkGraph.target_column_name := "target";
     NetworkGraph.node_id_column_name := "id";
     NetworkGraph.edges :=
       {| column_names := ["source"; "target"; "u_of_edge"];
          rows := [[VInt 1; VInt 2; VInt 1]] |};
     NetworkGraph.nodes :=
       {| column_names := ["id"]; rows := [[VInt 1]; [VInt 2]] |} |}.

Lemma reserved_edge_column_witness :
  exists q,
    NetworkGraph.as_networkx_graph u_of_edge_column_graph
    = Raise (TypeError ("Graph.add_edge() got multiple values for argument '"
                          ++ q ++ "'")).
Proof.
  destruct (reserved_edge_column u_of_edge_column_graph "u_of_edge")
    as (q & _ & _ & H).
  - reflexivity.
  - now left.
  - intros k [<-|[<-|[]]] [H|[]]; discriminate.
  - reflexivity.
  - reflexivity.
  - now left.
  - right. now left.
  - discriminate.
  - right. now left.
  - do 2 right. now left.
  - now exists q.
Defined.

(** ** The factory methods *)

(** Whether [create_from_tables] takes the nodes table for supplied. *)
Definition supplied (N : option table_object) : bool :=
  match N with
  | Some x => truth x
  | None => false
  end.

(** Whether a nodes table with at least one row was passed. *)
Definition given (N : option table_object) : bool :=
  match N with
  | Some x => has_rows x
  | None => false
  end.

Definition inferred_nodes (E : table) (src tgt nid : string) : table :=
  {| column_names := [nid];
     rows := map one_cell
                 (sort_values
                    (distinct_values
                       (distinct_values
                          (column_values E src ++ column_values E tgt)))) |}.

(** The two ways in which [create_from_tables] returns a graph. *)
Lemma create_from_tables_cases
      (gt : GraphType) (E : table) (N : option table_object)
      (src tgt nid : string) (T : NetworkGraph.t) :
  NetworkGraph.create_from_tables gt E N src tgt nid = Ok T ->
  str_in src (column_names E) = true
  /\ str_in tgt (column_names E) = true
  /\ exists nodes_table,
      T = {| NetworkGraph.graph_type := gt;
             NetworkGraph.source_column_name := src;
             NetworkGraph.target_column_name := tgt;
             NetworkGraph.node_id_column_name := nid;
             NetworkGraph.edges := E;
             NetworkGraph.nodes := nodes_table |}
      /\ str_in nid (column_names nodes_table) = true
      /\ ((exists x, N = Some x /\ truth x = true /\ nodes_table = table_of x)
          \/ (supplied N = false
              /\ nodes_table = inferred_nodes E src tgt nid)).
Proof.
  intros H.
  destruct (create_from_tables_Ok_columns gt E N src tgt nid T H) as [Hs Ht].
  split; [exact Hs|]. split; [exact Ht|].
  assert (Hinf : supplied N = false ->
                 NetworkGraph.create_from_tables gt E N src tgt nid
                 = NetworkGraph.create_from_tables gt E None src tgt nid).
  { unfold NetworkGraph.create_from_tables, supplied.
    destruct N as [x|]; [|reflexivity]. now intros ->. }
  destruct (supplied N) eqn:Hsup.
  - destruct N as [x|]; [|discriminate]. simpl in Hsup.
    destruct (str_in nid (column_names (table_of x))) eqn:Hn.
    + rewrite (create_from_tables_truthy gt E x src tgt nid Hsup Hs Ht Hn) in H.
      injection H as <-. eexists. split; [reflexivity|]. split; [exact Hn|].
      left. now exists x.
    + exfalso. revert H.
      unfold NetworkGraph.create_from_tables, create_table.
      rewrite Hsup, Hs, Ht. simpl. rewrite Hn. discriminate.
  - rewrite (Hinf eq_refl) in H.
    destruct (DuckDB.is_reserved src || DuckDB.is_reserved tgt) eqn:Hres.
    + exfalso. revert H.
      unfold NetworkGraph.create_from_tables, create_table, arrow_table.
      rewrite Hs, Ht. simpl. unfold DuckDB.nodes_query. rewrite Hres.
      discriminate.
    + rewrite (create_from_tables_inferred gt E src tgt nid Hres Hs Ht) in H.
      injection H as <-. eexists. split; [reflexivity|].
      split; [simpl; now rewrite String.eqb_refl|]. right. now split.
Qed.

Lemma create_from_tables_not_kiara
      (gt : GraphType) (E : table) (N : option table_object)
      (src tgt nid msg : string) :
  NetworkGraph.create_from_tables gt E N src tgt nid
  <> Raise (KiaraException msg).
Proof.
  unfold NetworkGraph.create_from_tables, create_table, arrow_table.
  destruct (str_in src (column_names E)) eqn:Hs; simpl; [|discriminate].
  destruct (str_in tgt (column_names E)) eqn:Ht; simpl; [|discriminate].
  assert (Hq : (nodes_table <-
                  (nodes_table_arrow <- DuckDB.nodes_query src tgt nid E ;;
                   Ok nodes_table_arrow) ;;
                Ok {| NetworkGraph.graph_type := gt;
                      NetworkGraph.source_column_name := src;
                      NetworkGraph.target_column_name := tgt;
                      NetworkGraph.node_id_column_name := nid;
                      NetworkGraph.edges := E;
                      NetworkGraph.nodes := nodes_table |})
               <> Raise (KiaraException msg)).
  { destruct (DuckDB.is_reserved src || DuckDB.is_reserved tgt) eqn:Hres.
    - unfold DuckDB.nodes_query. rewrite Hres. discriminate.
    - rewrite nodes_query_value by assumption. discriminate. }
  destruct N as [x|]; [destruct (truth x)|]; cbn [bind]; try exact Hq.
  destruct (str_in nid (column_names (table_of x))); simpl; discriminate.
Qed.

(** [create_from_kiara_tables] raises a [KiaraException] exactly when the
    tables have no entry [edges]; whatever else goes wrong raises another
    exception.  With an [edges] entry the result is that of
    [create_from_tables] on that table and on the [nodes] entry, if there
    is one; entries under other names are not looked at. *)
Theorem create_from_kiara_tables_edges_entry
        (gt : GraphType) (tables : list (string * table))
        (src tgt nid : string) :
  (dict_get String.eqb "edges" tables = None ->
   NetworkGraph.create_from_kiara_tables gt tables src tgt nid
   = Raise (KiaraException "Can't import network data: no 'edges' table found"))
  /\ (forall msg,
         NetworkGraph.create_from_kiara_tables gt tables src tgt nid
         = Raise (KiaraException msg) ->
         dict_get String.eqb "edges" tables = None)
  /\ (forall tables',
         dict_get String.eqb "edges" tables'
         = dict_get String.eqb "edges" tables ->
         dict_get String.eqb "nodes" tables'
         = dict_get String.eqb "nodes" tables ->
         NetworkGraph.create_from_kiara_tables gt tables' src tgt nid
         = NetworkGraph.create_from_kiara_tables gt tables src tgt nid).
Proof.
  unfold NetworkGraph.create_from_kiara_tables, EDGES_TABLE_NAME,
    NODES_TABLE_NAME.
  split; [|split].
  - now intros ->.
  - intros msg. destruct (dict_get String.eqb "edges" tables) as [E|];
      [|reflexivity].
    intros H. now apply create_from_tables_not_kiara in H.
  - now intros tables' -> ->.
Qed.

Lemma create_from_kiara_tables_edges_entry_witness :
  NetworkGraph.create_from_kiara_tables
    DIRECTED [("nodes", one_listed_node)] "source" "target" "id"
  = Raise (KiaraException "Can't import network data: no 'edges' table found").
Proof.
  exact (proj1 (create_from_kiara_tables_edges_entry
                  DIRECTED [("nodes", one_listed_node)] "source" "target" "id")
               eq_refl).
Defined.





(** ** The nodes table of a graph object *)

Lemma nodes_table_of_graph_index (g : Nx.graph) (N : table) :
  NetworkGraph.nodes_table_of_graph g "index" = Ok N ->
  ~ In "index" (column_names N).
Proof.
  unfold NetworkGraph.nodes_table_of_graph.
  destruct (reset_index (from_dict_index (NetworkGraph.node_dict g)))
    as [t1|e] eqn:E1; cbn [bind]; [|discriminate].
  assert (H1 : In "index" (column_names t1)).
  { revert E1. unfold reset_index.
    destruct (str_in "index" (column_names
                                (data (from_dict_index (NetworkGraph.node_dict g)))))
      eqn:Ei; cbv zeta.
    - destruct (str_in "level_0" _); [discriminate|].
      intros [= <-]. simpl. right. now apply str_in_spec.
    - rewrite Ei. intros [= <-]. now left. }
  assert (H2 : forall t2,
             (if str_in NetworkGraph.placeholder (column_names t1)
              then df_drop NetworkGraph.placeholder t1 else Ok t1) = Ok t2 ->
             In "index" (column_names t2)).
  { intros t2. destruct (str_in NetworkGraph.placeholder (column_names t1)) eqn:Ep.
    - apply str_in_spec in Ep.
      destruct (df_drop_Ok _ _ Ep) as (t2' & -> & Hc2 & _). intros [= <-].
      rewrite Hc2. apply filter_In. split; [exact H1 | reflexivity].
    - now intros [= <-]. }
  destruct (if str_in NetworkGraph.placeholder (column_names t1)
            then df_drop NetworkGraph.placeholder t1 else Ok t1)
    as [t2|e] eqn:E2; cbn [bind]; [|discriminate].
  specialize (H2 t2 eq_refl).
  rewrite (proj2 (str_in_spec _ _) H2).
  destruct (df_drop_Ok "index" t2 H2) as (t3 & -> & Hc3 & _).
  cbn [bind]. unfold create_table. intros [= <-].
  rewrite Hc3. intros H. apply filter_In in H as [_ H].
  now rewrite String.eqb_refl in H.
Qed.

(** [create_from_networkx_graph] with the node-id column name [index]:
    the column of that name is dropped from the nodes frame, whether it
    holds the node identifiers or an attribute, so the nodes table never
    has the node-id column, and the function raises an exception for every
    object it is given. *)
Theorem node_id_column_named_index (ts tt : string) (graph : pyobject)
        (src tgt : string) :
  exists e,
    NetworkGraph.create_from_networkx_graph ts tt graph src tgt "index"
    = Raise e.
Proof.
  unfold NetworkGraph.create_from_networkx_graph.
  destruct (NetworkGraph.graph_type_of_object graph) as [gt|e]; cbn [bind];
    [|now eexists].
  destruct (NetworkGraph.edges_table_of_graph ts tt (graph_of graph) src tgt)
    as [E|e]; cbn [bind]; [|now eexists].
  destruct (NetworkGraph.nodes_table_of_graph (graph_of graph) "index")
    as [N|e] eqn:EN; cbn [bind]; [|now eexists].
  apply nodes_table_of_graph_index, str_in_false in EN.
  unfold NetworkGraph.create_from_tables, create_table.
  destruct (str_in src (column_names E)); simpl; [|now eexists].
  destruct (str_in tgt (column_names E)); simpl; [|now eexists].
  rewrite EN. simpl. now eexists.
Qed.

Lemma map_renames_index (nid : string) (cols : list string) :
  ~ In "index" cols ->
  map (fun c => if String.eqb c "index" then nid else c) cols = cols.
Proof.
  induction cols as [|c cols IH]; simpl; intros H; [reflexivity|].
  destruct (String.eqb_spec c "index") as [->|_]; [tauto|].
  rewrite IH; tauto.
Qed.

(** The nodes step when no node carries an attribute named like the
    node-id column or named [index]. *)
Lemma nodes_table_of_graph_identifiers (g : Nx.graph) (nid : string) :
  nid <> "index" ->
  (forall n a, In (n, a) (Nx.g_node g) ->
               attrs_mem nid a = false /\ attrs_mem "index" a = false) ->
  let nd := NetworkGraph.node_dict g in
  let cols0 := key_union (map snd nd) in
  exists N,
    NetworkGraph.nodes_table_of_graph g nid = Ok N
    /\ column_names N
       = nid :: filter (fun c => negb (String.eqb c NetworkGraph.placeholder))
                       cols0
    /\ iterrows N
       = map (fun i =>
                (nid, i)
                  :: filter (keeps NetworkGraph.placeholder)
                            (combine cols0
                                     (map (attr_or_nan (label_attrs nd i)) cols0)))
             (index (from_dict_index nd)).
Proof.
  intros Hni Hnone nd cols0.
  destruct (from_dict_index_spec nd) as (Hc0 & Hr0 & Hl0).
  fold cols0 in Hc0, Hr0.
  assert (Habs : forall c, (forall n a, In (n, a) (Nx.g_node g) ->
                                        attrs_mem c a = false) ->
                           c <> NetworkGraph.placeholder -> ~ In c cols0).
  { intros c Hc Hp H. apply node_dict_columns in H; [|exact Hp].
    destruct H as [n [a [Hin Hm]]]. rewrite (Hc n a Hin) in Hm. discriminate. }
  assert (Hidx0 : ~ In "index" cols0).
  { apply Habs; [|discriminate]. intros n a Hin. now apply (Hnone n a). }
  destruct (reset_index_Ok (from_dict_index nd)) as (t1 & Ht1 & Hc1 & Hr1 & _);
    [now rewrite Hc0 | exact Hl0 |].
  rewrite Hc0 in Hc1. rewrite Hr0, combine_map_self, map_map in Hr1.
  simpl in Hr1.
  unfold NetworkGraph.nodes_table_of_graph. fold nd. rewrite Ht1. cbn [bind].
  set (keep := fun c => negb (String.eqb c NetworkGraph.placeholder)).
  assert (Hpl : exists t2,
             (if str_in NetworkGraph.placeholder (column_names t1)
              then df_drop NetworkGraph.placeholder t1 else Ok t1) = Ok t2
             /\ column_names t2 = "index" :: filter keep cols0
             /\ iterrows t2
                = map (fun i =>
                         ("index", i)
                           :: filter (keeps NetworkGraph.placeholder)
                                (combine cols0
                                   (map (attr_or_nan (label_attrs nd i)) cols0)))
                      (index (from_dict_index nd))).
  { destruct (str_in NetworkGraph.placeholder (column_names t1)) eqn:Ep.
    - apply str_in_spec in Ep.
      destruct (df_drop_Ok NetworkGraph.placeholder t1 Ep)
        as (t2 & Ht2 & Hc2 & Hr2 & _).
      exists t2. split; [exact Ht2|]. split.
      + rewrite Hc2, Hc1. reflexivity.
      + rewrite Hr2, Hr1, map_map. reflexivity.
    - apply str_in_false in Ep. rewrite Hc1 in Ep.
      assert (Ep0 : ~ In NetworkGraph.placeholder cols0)
        by (intros H; apply Ep; now right).
      exists t1. split; [reflexivity|]. split.
      + rewrite Hc1. f_equal. symmetry. apply filter_all.
        intros c Hc. unfold keep. apply negb_true_iff, String.eqb_neq.
        intros ->. contradiction.
      + rewrite Hr1. apply map_ext. intros i. f_equal. symmetry.
        apply filter_keeps_absent.
        unfold dict_keys. rewrite combine_map_self, map_map. simpl.
        now rewrite map_id. }
  destruct Hpl as (t2 & -> & Hc2 & Hr2). cbn [bind].
  assert (Hn2 : str_in nid (column_names t2) = false).
  { apply str_in_false. rewrite Hc2. intros [E|H]; [congruence|].
    apply filter_In in H as [H Hk]. unfold keep in Hk.
    apply negb_true_iff, String.eqb_neq in Hk. revert H.
    apply Habs; [|exact Hk]. intros n a Hin. now apply (Hnone n a). }
  rewrite Hn2. cbn [bind]. unfold create_table.
  destruct (df_rename_spec "index" nid t2) as (Hc3 & Hr3 & _).
  eexists. split; [reflexivity|]. split.
  - rewrite Hc3, Hc2. simpl. f_equal. apply map_renames_index.
    intros H. apply filter_In in H as [H _]. contradiction.
  - rewrite Hr3, Hr2, map_map. apply map_ext. intros i. simpl.
    unfold renames at 1. simpl. f_equal. apply map_renames_absent.
    rewrite filter_keeps_keys. intros H. apply filter_In in H as [H _].
    unfold dict_keys in H. rewrite combine_map_self, map_map in H.
    simpl in H. rewrite map_id in H. contradiction.
Qed.


(** Node [1] carries [label], node [2] carries nothing; the edge from [1]
    to [2] carries both end-point attributes. *)
Definition labelled_node_graph : Nx.graph :=
  {| Nx.g_class := Nx.DiGraph;
     Nx.g_node := [(VInt 1, [("label", VStr "a")]); (VInt 2, [])];
     Nx.g_adj := [(VInt 1, [(VInt 2, [(VInt 0, [("source", VInt 1);
                                                ("target", VInt 2)])])]);
                  (VInt 2, [])] |}.


(** ** The metadata of a graph with inferred nodes *)

Lemma build_graph_node_keys (T : NetworkGraph.t) :
  dict_keys (Nx.g_node (build_graph T))
  = first_seen []
      (column_values (NetworkGraph.nodes T) (NetworkGraph.node_id_column_name T)
         ++ flat_map (fun r => [cell r (NetworkGraph.source_column_name T);
                                cell r (NetworkGraph.target_column_name T)])
                     (iterrows (NetworkGraph.edges T))).
Proof.
  change (build_graph T)
    with (build_edges (NetworkGraph.source_column_name T)
                      (NetworkGraph.target_column_name T)
                      (iterrows (NetworkGraph.edges T))
                      (build_nodes (graph_class_of (NetworkGraph.graph_type T))
                                   (NetworkGraph.node_id_column_name T)
                                   (iterrows (NetworkGraph.nodes T)))).
  rewrite build_edges_keys. unfold build_nodes.
  rewrite build_nodes_keys. simpl Nx.g_node. simpl dict_keys.
  rewrite keys_with_app. reflexivity.
Qed.

Lemma wf_table_one_column (nid : string) (vals : list value) :
  wf_table {| column_names := [nid]; rows := map one_cell vals |} = true.
Proof.
  unfold wf_table. simpl. apply forallb_forall. intros r Hr.
  apply in_map_iff in Hr as [v [<- _]]. reflexivity.
Qed.

Lemma forallb_negb_str_in (keywords cols : list string) :
  (forall k, In k keywords -> ~ In k cols) ->
  forallb (fun k => negb (str_in k cols)) keywords = true.
Proof.
  intros H. apply forallb_forall. intros k Hk.
  apply negb_true_iff, str_in_false, H, Hk.
Qed.

Lemma cells_typed_incl (l l' : list value) :
  incl l' l -> cells_typed l = true -> cells_typed l' = true.
Proof.
  unfold cells_typed. intros Hincl H.
  apply orb_true_iff in H. apply orb_true_iff.
  destruct H as [H|H]; [left | right];
    rewrite forallb_forall in *; intros x Hx; apply H, Hincl, Hx.
Qed.

Lemma no_null_incl (l l' : list value) :
  incl l' l -> no_null l = true -> no_null l' = true.
Proof.
  unfold no_null. intros Hincl H.
  rewrite forallb_forall in *; intros x Hx; apply H, Hincl, Hx.
Qed.

Lemma inferred_ids_incl (l : list value) :
  incl (sort_values (distinct_values (distinct_values l))) l.
Proof.
  intros x. now rewrite sort_values_In, !distinct_values_In.
Qed.



(** ** The [key] column of a multigraph *)

(** [add_edge] of a multigraph class on a row that has a [key] cell: the
    cell is the edge key, the other cells are the attributes. *)
Definition add_keyed_edge_row (src tgt : string) (g : Nx.graph) (row : series)
  : Nx.graph :=
  Nx.add_edge_multi g (cell row src) (cell row tgt) (Some (cell row "key"))
                    (dict_del String.eqb "key" row).

(** The edges of a pair once a row with a [key] cell has been added
    between its nodes. *)
Definition keyed_after_row (kd : Nx.keydict) (r : series) : Nx.keydict :=
  dict_set value_eqb (cell r "key")
           (attrs_update (match dict_get value_eqb (cell r "key") kd with
                          | Some d => d
                          | None => []
                          end)
                         (dict_del String.eqb "key" r))
           kd.

Record adj_inv (g : Nx.graph) : Prop := mkAdjInv {
  ai_keys : dict_keys (Nx.g_adj g) = dict_keys (Nx.g_node g);
  ai_sym : Nx.is_directed (Nx.g_class g) = false ->
           forall u v, Nx.keys_of (Nx.g_adj g) u v = Nx.keys_of (Nx.g_adj g) v u
}.

Lemma graph_inv_adj_inv (g : Nx.graph) : graph_inv g -> adj_inv g.
Proof. intros H. constructor; [apply H | apply (inv_sym g H)]. Qed.

Lemma ensure_node_adj_inv (g : Nx.graph) (n : value) :
  adj_inv g -> adj_inv (Nx.ensure_node g n).
Proof.
  intros [Hk Hsym]. constructor.
  - unfold Nx.ensure_node. destruct (Nx.has_node g n) eqn:Hn; [exact Hk|].
    simpl. apply has_node_false in Hn.
    rewrite (dict_set_keys_absent value_eqb_spec _ _ (Nx.g_adj g))
      by (rewrite Hk; exact Hn).
    rewrite (dict_set_keys_absent value_eqb_spec _ _ (Nx.g_node g))
      by exact Hn.
    unfold dict_keys in *. rewrite !map_app. simpl. congruence.
  - rewrite ensure_node_class. intros Hd u v.
    rewrite !ensure_node_keys_of by exact Hk. now apply Hsym.
Qed.

Lemma add_keyed_edge_row_class (src tgt : string) (g : Nx.graph) (r : series) :
  Nx.g_class (add_keyed_edge_row src tgt g r) = Nx.g_class g.
Proof.
  unfold add_keyed_edge_row, Nx.add_edge_multi, Nx.set_edge. simpl.
  now rewrite !ensure_node_class.
Qed.

Lemma same_pair_keys_of_adj (g : Nx.graph) (x y u v : value) :
  adj_inv g ->
  same_pair (Nx.is_directed (Nx.g_class g)) x y u v = true ->
  Nx.keys_of (Nx.g_adj g) u v = Nx.keys_of (Nx.g_adj g) x y.
Proof.
  intros Hinv. unfold same_pair.
  rewrite orb_true_iff, !andb_true_iff, !value_eqb_eq, negb_true_iff.
  intros [[-> ->]|[Hd [-> ->]]]; [reflexivity|]. now apply (ai_sym g Hinv).
Qed.

Lemma add_keyed_edge_row_keys_of (src tgt : string) (g : Nx.graph) (r : series)
      (x y : value) :
  adj_inv g ->
  Nx.keys_of (Nx.g_adj (add_keyed_edge_row src tgt g r)) x y
  = if same_pair (Nx.is_directed (Nx.g_class g)) x y (cell r src) (cell r tgt)
    then keyed_after_row (Nx.keys_of (Nx.g_adj g) x y) r
    else Nx.keys_of (Nx.g_adj g) x y.
Proof.
  intros Hinv.
  pose proof (ensure_node_adj_inv g (cell r src) Hinv) as Hinv1.
  unfold add_keyed_edge_row, Nx.add_edge_multi.
  rewrite keys_of_set_edge, !ensure_node_class.
  rewrite !(ensure_node_keys_of (Nx.ensure_node g (cell r src)))
    by apply Hinv1.
  rewrite !(ensure_node_keys_of g) by apply Hinv.
  destruct (same_pair _ x y _ _) eqn:E; [|reflexivity].
  now rewrite (same_pair_keys_of_adj g x y _ _ Hinv E).
Qed.

Lemma add_keyed_edge_row_inv (src tgt : string) (g : Nx.graph) (r : series) :
  adj_inv g -> adj_inv (add_keyed_edge_row src tgt g r).
Proof.
  intros Hinv.
  pose proof (fun x y => add_keyed_edge_row_keys_of src tgt g r x y Hinv) as Hko.
  constructor.
  - set (g1 := Nx.ensure_node (Nx.ensure_node g (cell r src)) (cell r tgt)).
    assert (Hinv1 : adj_inv g1)
      by (subst g1; now do 2 apply ensure_node_adj_inv).
    assert (Hu : In (cell r src) (dict_keys (Nx.g_adj g1))).
    { rewrite (ai_keys g1 Hinv1). subst g1.
      apply ensure_node_keeps, ensure_node_has. }
    assert (Hv : In (cell r tgt) (dict_keys (Nx.g_adj g1))).
    { rewrite (ai_keys g1 Hinv1). subst g1. apply ensure_node_has. }
    unfold add_keyed_edge_row, Nx.add_edge_multi. fold g1.
    rewrite set_edge_adj_keys by assumption. rewrite set_edge_node.
    apply Hinv1.
  - rewrite add_keyed_edge_row_class. intros Hd x y. rewrite !Hko, Hd.
    rewrite (same_pair_swap x y). now rewrite (ai_sym g Hinv Hd x y).
Qed.

Lemma keyed_edges_keys_of (src tgt : string) (edge_rows : list series)
      (g : Nx.graph) :
  adj_inv g ->
  forall x y,
    Nx.keys_of (Nx.g_adj (fold_left (add_keyed_edge_row src tgt) edge_rows g)) x y
    = fold_left keyed_after_row
                (joining (Nx.is_directed (Nx.g_class g)) src tgt x y edge_rows)
                (Nx.keys_of (Nx.g_adj g) x y).
Proof.
  revert g. induction edge_rows as [|r l IH]; intros g Hinv x y; [reflexivity|].
  cbn [fold_left]. rewrite IH by (now apply add_keyed_edge_row_inv).
  rewrite add_keyed_edge_row_class, add_keyed_edge_row_keys_of by exact Hinv.
  unfold joining. cbn [filter].
  destruct (same_pair _ x y _ _); reflexivity.
Qed.

(** *** The edges of a pair, by key *)

Lemma keyed_after_row_keys (kd : Nx.keydict) (r : series) :
  dict_keys (keyed_after_row kd r)
  = if val_in (cell r "key") (dict_keys kd)
    then dict_keys kd
    else dict_keys kd ++ [cell r "key"].
Proof.
  unfold keyed_after_row.
  destruct (val_in (cell r "key") (dict_keys kd)) eqn:E.
  - apply val_in_spec in E. now rewrite (dict_set_keys_present value_eqb_spec).
  - apply val_in_false in E.
    rewrite (dict_set_keys_absent value_eqb_spec) by exact E.
    unfold dict_keys. now rewrite map_app.
Qed.

Lemma keyed_after_rows_keys (rows : list series) (kd : Nx.keydict) :
  dict_keys (fold_left keyed_after_row rows kd)
  = keys_with (dict_keys kd) (map (fun r => cell r "key") rows).
Proof.
  revert kd. induction rows as [|r l IH]; intros kd.
  - unfold keys_with. simpl. now rewrite app_nil_r.
  - cbn [fold_left map]. now rewrite IH, keys_with_cons, keyed_after_row_keys.
Qed.

Lemma dict_del_filter (k : string) (d : attrs) :
  NoDup (dict_keys d) -> dict_del String.eqb k d = filter (keeps k) d.
Proof.
  induction d as [|[k' v'] d IH]; simpl; [reflexivity|]. intros Hnd.
  inversion Hnd as [|? ? Hni Hnd']; subst. unfold keeps at 1. simpl.
  destruct (String.eqb_spec k k') as [->|Hne].
  - rewrite String.eqb_refl. simpl. symmetry. now apply filter_keeps_absent.
  - destruct (String.eqb_spec k' k); [congruence|]. simpl. now rewrite IH.
Qed.

(** With rows of one shape, a row replaces what its key held. *)
Lemma keyed_after_row_set (cols : list string) (kd : Nx.keydict) (r : series) :
  NoDup cols ->
  (forall k a, In (k, a) kd -> dict_keys a = cols) ->
  dict_keys (dict_del String.eqb "key" r) = cols ->
  keyed_after_row kd r
  = dict_set value_eqb (cell r "key") (dict_del String.eqb "key" r) kd.
Proof.
  intros Hnd Hkd Hr. unfold keyed_after_row. f_equal. unfold attrs_update.
  destruct (dict_get value_eqb (cell r "key") kd) as [d|] eqn:E.
  - apply (dict_get_In value_eqb_spec) in E. apply Hkd in E.
    apply dict_update_same_keys; congruence.
  - apply dict_update_append. simpl. congruence.
Qed.

Lemma keyed_after_rows_attrs (cols : list string) (rows : list series)
      (kd : Nx.keydict) :
  NoDup cols ->
  (forall k a, In (k, a) kd -> dict_keys a = cols) ->
  (forall r, In r rows -> dict_keys (dict_del String.eqb "key" r) = cols) ->
  forall k a, In (k, a) (fold_left keyed_after_row rows kd) ->
              dict_keys a = cols.
Proof.
  intros Hnd. revert kd. induction rows as [|r l IH]; intros kd Hkd Hrows;
    [exact Hkd|].
  cbn [fold_left]. apply IH; [|intros r' Hr'; apply Hrows; now right].
  intros k a. rewrite (keyed_after_row_set cols) by auto using in_eq.
  intros Hin. apply dict_set_In_value in Hin as [->|Hin]; [|now apply (Hkd k a)].
  apply Hrows. now left.
Qed.

Lemma keyed_after_rows_last (cols : list string) (pre post : list series)
      (r : series) (kd : Nx.keydict) :
  NoDup cols ->
  (forall k a, In (k, a) kd -> dict_keys a = cols) ->
  (forall r', In r' (pre ++ r :: post) ->
              dict_keys (dict_del String.eqb "key" r') = cols) ->
  (forall r', In r' post -> cell r' "key" <> cell r "key") ->
  dict_get value_eqb (cell r "key")
           (fold_left keyed_after_row (pre ++ r :: post) kd)
  = Some (dict_del String.eqb "key" r).
Proof.
  intros Hnd Hkd Hrows Hpost.
  rewrite fold_left_app. cbn [fold_left].
  set (kd0 := fold_left keyed_after_row pre kd).
  assert (Hkd0 : forall k a, In (k, a) kd0 -> dict_keys a = cols).
  { apply (keyed_after_rows_attrs cols pre kd Hnd Hkd).
    intros r' Hr'. apply Hrows. apply in_or_app. now left. }
  assert (Hr : dict_keys (dict_del String.eqb "key" r) = cols).
  { apply Hrows. apply in_or_app. right. now left. }
  assert (Hstart : dict_get value_eqb (cell r "key") (keyed_after_row kd0 r)
                   = Some (dict_del String.eqb "key" r)).
  { rewrite (keyed_after_row_set cols) by assumption.
    apply (dict_get_set_same value_eqb_spec). }
  assert (Hpost' : forall r', In r' post ->
                              dict_keys (dict_del String.eqb "key" r') = cols).
  { intros r' Hr'. apply Hrows. apply in_or_app. right. now right. }
  revert Hstart Hpost Hpost'. generalize (keyed_after_row kd0 r) as kd1.
  clear. induction post as [|r' l IH]; intros kd1 Hstart Hpost Hrows;
    [exact Hstart|].
  cbn [fold_left]. apply IH.
  - unfold keyed_after_row.
    rewrite (dict_get_set_other value_eqb_spec); [exact Hstart|].
    intros E. apply (Hpost r'); [now left | now symmetry].
  - intros r'' Hr''. apply Hpost. now right.
  - intros r'' Hr''. apply Hrows. now right.
Qed.

Lemma edges_loop_keyed (c : Nx.graph_class) (E : table) (src tgt : string)
      (g : Nx.graph) :
  Nx.is_multigraph c = true -> Nx.g_class g = c ->
  wf_table E = true ->
  In src (column_names E) -> In tgt (column_names E) ->
  In "key" (column_names E) ->
  (forall k, In k (edge_positional c) -> ~ In k (column_names E)) ->
  no_null (column_values E src) = true ->
  no_null (column_values E tgt) = true ->
  ~ In VNaN (column_values E "key") ->
  for_each (edge_body src tgt) (iterrows E) g
  = Ok (fold_left (add_keyed_edge_row src tgt) (iterrows E) g).
Proof.
  intros Hm Hc Hwf Hsrc Htgt Hkey Hpos Hnu Hnv Hnk.
  destruct (for_each_fold (fun g => Nx.g_class g = c) (edge_body src tgt)
                          (add_keyed_edge_row src tgt) (iterrows E) g Hc)
    as [H _]; [|exact H].
  intros g' row Hg Hrow. split; [|now rewrite add_keyed_edge_row_class].
  pose proof (iterrows_keys _ _ Hwf Hrow) as Hkeys.
  unfold edge_body. rewrite !series_getitem_cell by (now rewrite Hkeys).
  cbn [bind]. rewrite (series_to_dict_id _ _ Hwf Hrow).
  unfold Nx.add_edge. rewrite Hg, Hm.
  unfold edge_positional in Hpos. rewrite Hm in Hpos.
  rewrite bind_kwargs_Ok by (intros k Hk; rewrite Hkeys; now apply Hpos).
  cbn [bind].
  rewrite (no_null_cells _ _ _ Hnu Hrow), (no_null_cells _ _ _ Hnv Hrow).
  cbn [orb]. unfold add_keyed_edge_row. do 2 f_equal.
  assert (Hk : cell row "key" <> VNaN).
  { intros Ek. apply Hnk. rewrite <- Ek.
    apply (in_map (fun row => match dict_get String.eqb "key" row with
                              | Some v => v
                              | None => VNaN
                              end) _ _ Hrow). }
  unfold cell, attr_or_nan in *.
  destruct (attrs_get "key" row) as [k|] eqn:Ek; [|congruence].
  destruct k; try reflexivity. congruence.
Qed.

Lemma joining_In (directed : bool) (src tgt : string) (x y : value)
      (edge_rows : list series) (r : series) :
  In r (joining directed src tgt x y edge_rows)
  <-> In r edge_rows
      /\ same_pair directed x y (cell r src) (cell r tgt) = true.
Proof. unfold joining. apply filter_In. Qed.


(** Three rows that join [A] and [B]; two of them have the key [k1]. *)
Definition keyed_multigraph : NetworkGraph.t :=
  {| NetworkGraph.graph_type := DIRECTED_MULTI;
     NetworkGraph.source_column_name := "source";
     NetworkGraph.target_column_name := "target";
     NetworkGraph.node_id_column_name := "id";
     NetworkGraph.edges :=
       {| column_names := ["source"; "target"; "key"; "weight"];
          rows := [[VStr "A"; VStr "B"; VStr "k1"; VInt 1];
                   [VStr "A"; VStr "B"; VStr "k2"; VInt 2];
                   [VStr "A"; VStr "B"; VStr "k1"; VInt 3]] |};
     NetworkGraph.nodes :=
       {| column_names := ["id"]; rows := [[VStr "A"]; [VStr "B"]] |} |}.


(** ** The edges table of a graph object *)

Lemma create_from_tables_Ok_edges
      (gt : GraphType) (E : table) (N : option table_object)
      (src tgt nid : string)
      (T : NetworkGraph.t) :
  NetworkGraph.create_from_tables gt E N src tgt nid = Ok T ->
  NetworkGraph.edges T = E.
Proof.
  intros H.
  destruct (create_from_tables_cases gt E N src tgt nid T H)
    as (_ & _ & N' & -> & _).
  reflexivity.
Qed.



(** ** Node attributes named [index] or [level_0] *)

Lemma reset_index_level_0 (f : frame) :
  In "index" (column_names (data f)) ->
  ~ In "level_0" (column_names (data f)) ->
  exists t,
    reset_index f = Ok t
    /\ column_names t = "level_0" :: column_names (data f)
    /\ iterrows t
       = map (fun ir => ("level_0", fst ir) :: snd ir)
             (combine (index f) (iterrows (data f))).
Proof.
  intros Hi Hl. unfold reset_index.
  apply str_in_spec in Hi. apply str_in_false in Hl.
  rewrite Hi. cbv zeta. rewrite Hl.
  eexists. split; [reflexivity|]. split; [reflexivity|].
  unfold iterrows. simpl. rewrite map_map.
  generalize (index f) as idx. generalize (rows (data f)) as rs.
  intros rs. induction rs as [|r rs IH]; intros [|i idx]; simpl;
    try reflexivity. now rewrite IH.
Qed.

(** [create_from_networkx_graph] on a graph object in which a node carries
    an attribute named [index] and a node carries an attribute named
    [level_0]: [reset_index] cannot name the column of the node
    identifiers and raises a [ValueError]; no graph is returned. *)
Theorem node_attributes_index_and_level_0 (ts tt : string) (g : Nx.graph)
        (src tgt nid : string) :
  (exists n a, In (n, a) (Nx.g_node g) /\ attrs_mem "index" a = true) ->
  (exists n a, In (n, a) (Nx.g_node g) /\ attrs_mem "level_0" a = true) ->
  NetworkGraph.nodes_table_of_graph g nid
  = Raise (ValueError "cannot insert level_0, already exists")
  /\ exists e,
      NetworkGraph.create_from_networkx_graph ts tt (NxObject g) src tgt nid
      = Raise e.
Proof.
  intros Hi Hl.
  apply node_dict_columns in Hi; [|discriminate].
  apply node_dict_columns in Hl; [|discriminate].
  assert (HN : NetworkGraph.nodes_table_of_graph g nid
               = Raise (ValueError "cannot insert level_0, already exists")).
  { unfold NetworkGraph.nodes_table_of_graph, reset_index.
    destruct (from_dict_index_spec (NetworkGraph.node_dict g)) as (-> & _).
    apply str_in_spec in Hi, Hl. rewrite Hi. cbv zeta. rewrite Hl.
    reflexivity. }
  split; [exact HN|].
  unfold NetworkGraph.create_from_networkx_graph.
  rewrite graph_type_of_object_class. cbn [bind graph_of].
  destruct (NetworkGraph.edges_table_of_graph ts tt g src tgt); cbn [bind];
    [|now eexists].
  rewrite HN. cbn [bind]. now eexists.
Qed.

(** Node [1] carries [index], node [2] carries [level_0]. *)
Definition index_level_0_graph : Nx.graph :=
  {| Nx.g_class := Nx.DiGraph;
     Nx.g_node := [(VInt 1, [("index", VInt 10)]);
                   (VInt 2, [("level_0", VInt 20)])];
     Nx.g_adj := [(VInt 1, []); (VInt 2, [])] |}.

Lemma node_attributes_index_and_level_0_witness :
  NetworkGraph.nodes_table_of_graph index_level_0_graph "id"
  = Raise (ValueError "cannot insert level_0, already exists").
Proof.
  apply (node_attributes_index_and_level_0
           uuid_1 uuid_2 index_level_0_graph "source" "target" "id").
  - exists (VInt 1), [("index", VInt 10)]. split; [now left | reflexivity].
  - exists (VInt 2), [("level_0", VInt 20)].
    split; [right; now left | reflexivity].
Defined.

Lemma nodes_table_of_graph_index_attribute (g : Nx.graph) (nid : string) :
  (exists n a, In (n, a) (Nx.g_node g) /\ attrs_mem "index" a = true) ->
  (forall n a, In (n, a) (Nx.g_node g) ->
               attrs_mem "level_0" a = false /\ attrs_mem nid a = false) ->
  nid <> "index" -> nid <> "level_0" ->
  let nd := NetworkGraph.node_dict g in
  let cols0 := key_union (map snd nd) in
  let keep := fun c => negb (String.eqb c NetworkGraph.placeholder) in
  exists N,
    NetworkGraph.nodes_table_of_graph g nid = Ok N
    /\ column_names N
       = "level_0" :: map (fun c => if String.eqb c "index" then nid else c)
                          (filter keep cols0)
    /\ ~ In nid (filter keep cols0)
    /\ iterrows N
       = map (fun i =>
                ("level_0", i)
                  :: map (renames "index" nid)
                         (filter (keeps NetworkGraph.placeholder)
                                 (combine cols0
                                          (map (attr_or_nan (label_attrs nd i))
                                               cols0))))
             (index (from_dict_index nd)).
Proof.
  intros Hi Hnone Hni Hnl nd cols0 keep.
  destruct (from_dict_index_spec nd) as (Hc0 & Hr0 & _).
  fold cols0 in Hc0, Hr0.
  assert (Hidx0 : In "index" cols0) by (now apply node_dict_columns).
  assert (Habs : forall c, (forall n a, In (n, a) (Nx.g_node g) ->
                                        attrs_mem c a = false) ->
                           c <> NetworkGraph.placeholder -> ~ In c cols0).
  { intros c Hc Hp H. apply node_dict_columns in H; [|exact Hp].
    destruct H as [n [a [Hin Hm]]]. rewrite (Hc n a Hin) in Hm. discriminate. }
  assert (Hl0 : ~ In "level_0" cols0).
  { apply Habs; [|discriminate]. intros n a Hin. now apply (Hnone n a). }
  destruct (reset_index_level_0 (from_dict_index nd)) as (t1 & Ht1 & Hc1 & Hr1);
    [now rewrite Hc0 | now rewrite Hc0 |].
  rewrite Hc0 in Hc1. rewrite Hr0, combine_map_self, map_map in Hr1.
  simpl in Hr1.
  unfold NetworkGraph.nodes_table_of_graph. fold nd. rewrite Ht1. cbn [bind].
  set (body := fun i => filter (keeps NetworkGraph.placeholder)
                          (combine cols0
                                   (map (attr_or_nan (label_attrs nd i)) cols0))).
  assert (Hpl : exists t2,
             (if str_in NetworkGraph.placeholder (column_names t1)
              then df_drop NetworkGraph.placeholder t1 else Ok t1) = Ok t2
             /\ column_names t2 = "level_0" :: filter keep cols0
             /\ iterrows t2
                = map (fun i => ("level_0", i) :: body i)
                      (index (from_dict_index nd))).
  { destruct (str_in NetworkGraph.placeholder (column_names t1)) eqn:Ep.
    - apply str_in_spec in Ep.
      destruct (df_drop_Ok NetworkGraph.placeholder t1 Ep)
        as (t2 & Ht2 & Hc2 & Hr2 & _).
      exists t2. split; [exact Ht2|]. split.
      + rewrite Hc2, Hc1. reflexivity.
      + rewrite Hr2, Hr1, map_map. reflexivity.
    - apply str_in_false in Ep. rewrite Hc1 in Ep.
      assert (Ep0 : ~ In NetworkGraph.placeholder cols0)
        by (intros H; apply Ep; now right).
      exists t1. split; [reflexivity|]. split.
      + rewrite Hc1. f_equal. symmetry. apply filter_all.
        intros c Hc. unfold keep. apply negb_true_iff, String.eqb_neq.
        intros ->. contradiction.
      + rewrite Hr1. apply map_ext. intros i. f_equal. symmetry.
        apply filter_keeps_absent.
        unfold dict_keys. rewrite combine_map_self, map_map. simpl.
        now rewrite map_id. }
  destruct Hpl as (t2 & -> & Hc2 & Hr2). cbn [bind].
  assert (Hnid0 : ~ In nid (filter keep cols0)).
  { intros H. apply filter_In in H as [H Hk]. unfold keep in Hk.
    apply negb_true_iff, String.eqb_neq in Hk. revert H.
    apply Habs; [|exact Hk]. intros n a Hin. now apply (Hnone n a). }
  assert (Hn2 : str_in nid (column_names t2) = false).
  { apply str_in_false. rewrite Hc2. intros [E|H]; [congruence | contradiction]. }
  rewrite Hn2. cbn [bind]. unfold create_table.
  destruct (df_rename_spec "index" nid t2) as (Hc3 & Hr3 & _).
  eexists. split; [reflexivity|]. split; [|split; [exact Hnid0|]].
  - rewrite Hc3, Hc2. reflexivity.
  - rewrite Hr3, Hr2, map_map. reflexivity.
Qed.


(** Node [1] carries [index], node [2] carries nothing. *)
Definition index_attribute_graph : Nx.graph :=
  {| Nx.g_class := Nx.DiGraph;
     Nx.g_node := [(VInt 1, [("index", VInt 10)]); (VInt 2, [])];
     Nx.g_adj := [(VInt 1, [(VInt 2, [(VInt 0, [("source", VInt 1);
                                                ("target", VInt 2)])])]);
                  (VInt 2, [])] |}.

